(** * reddit_researcher: pipeline run-state reconciliation and author-scoped
      ingestion, embedded from the Python sources

    The development follows four source files:
    - [app/streamlit_app.py]: [is_process_running], [get_pipeline_status],
      [update_pipeline_status], [check_pipeline_completion], and, further
      down, the pipeline state and the launch button of [main],
      [run_pipeline_script], [store_pipeline_pid], [update_post_status];
    - [utils/pipeline_health_check.py]: [is_pipeline_process_running],
      [find_orphaned_pipeline_processes], [perform_health_check], [main];
    - [ingestor/ingest.py]: [extract_text_from_image],
      [ingest_with_reddit_api], [cleanup_old_posts];
    - [config.py]: [get_subreddits].

    Conventions of the embedding:
    - text is [string]; Python's [in], [strip], [split], [lower], [endswith]
      are written out in [Text] for ASCII text; the value of the
      [SUBREDDITS] variable, which may hold any character, is a list of
      Unicode code points ([Config]);
    - integers and timestamps are [Z] (timestamps in microseconds);
    - a nullable SQL column or a Python value that may be [None] is an
      [option];
    - every [print] (and Streamlit notification) is an event of type [Msg]
      carrying the values its f-string interpolates; the events a run emits
      are collected in order;
    - storage is a committed database in the [World], connections carry the
      working copy of an open transaction, and every connect, statement and
      commit consults a fault script so that storage failures can be
      exercised. *)

From Stdlib Require Import ZArith List String Ascii Bool Lia.
Import ListNotations.
Local Open Scope string_scope.
Local Open Scope list_scope.
Local Open Scope Z_scope.

Set Implicit Arguments.

(* ===================================================================== *)
(** ** Python text primitives *)
(* ===================================================================== *)

Module Text.

(** [needle in hay] for two strings. *)
Fixpoint contains (needle hay : string) : bool :=
  if String.prefix needle hay then true
  else match hay with
       | EmptyString => false
       | String _ t => contains needle t
       end.

(** [s.endswith(suf)]. *)
Fixpoint endswith (suf s : string) : bool :=
  if String.eqb s suf then true
  else match s with
       | EmptyString => false
       | String _ t => endswith suf t
       end.

(** [str.isspace] on one ASCII character: TAB, LF, VT, FF, CR, FS, GS, RS,
    US and space. *)
Definition is_space (c : ascii) : bool :=
  let n := N_of_ascii c in
  ((9 <=? n) && (n <=? 13) || (28 <=? n) && (n <=? 32))%N.

Fixpoint lstrip (s : string) : string :=
  match s with
  | EmptyString => EmptyString
  | String c t => if is_space c then lstrip t else s
  end.

Fixpoint rstrip (s : string) : string :=
  match s with
  | EmptyString => EmptyString
  | String c t =>
      let t' := rstrip t in
      if is_space c && String.eqb t' EmptyString then EmptyString
      else String c t'
  end.

(** [s.strip()]. *)
Definition strip (s : string) : string := rstrip (lstrip s).

(** [s.split(sep)] for a one-character separator: never the empty list. *)
Fixpoint split_on (sep : ascii) (s : string) : list string :=
  match s with
  | EmptyString => [EmptyString]
  | String c t =>
      if Ascii.eqb c sep then EmptyString :: split_on sep t
      else match split_on sep t with
           | h :: r => String c h :: r
           | [] => [String c EmptyString]
           end
  end.

(** [s.split()]: maximal runs of non-space characters. *)
Fixpoint split_ws (s : string) : list string :=
  match s with
  | EmptyString => []
  | String c t =>
      if is_space c then split_ws t
      else match t with
           | EmptyString => [String c EmptyString]
           | String c' _ =>
               if is_space c' then String c EmptyString :: split_ws t
               else match split_ws t with
                    | h :: r => String c h :: r
                    | [] => [String c EmptyString]
                    end
           end
  end.

(** [sep.join(parts)]. *)
Definition join (sep : string) (parts : list string) : string :=
  String.concat sep parts.

Definition lower_ascii (c : ascii) : ascii :=
  let n := N_of_ascii c in
  if ((65 <=? n) && (n <=? 90))%N then ascii_of_N (n + 32) else c.

(** [s.lower()] on ASCII text. *)
Fixpoint lower (s : string) : string :=
  match s with
  | EmptyString => EmptyString
  | String c t => String (lower_ascii c) (lower t)
  end.

(** [x in [a, b, ...]] for a list of strings. *)
Definition mem (x : string) (l : list string) : bool :=
  existsb (String.eqb x) l.

(** The newline character, for [split('\n')]. *)
Definition LF : ascii := ascii_of_N 10.

End Text.

(** The three command-line keywords that identify a pipeline stage. *)
Definition pipeline_keywords : list string :=
  ["run_daily_reddit_pipeline"; "ingest.py"; "run_gemini_analysis.py"].

(** [any(keyword in cmdline for keyword in [...])]. *)
Definition has_pipeline_keyword (cmdline : string) : bool :=
  existsb (fun keyword => Text.contains keyword cmdline) pipeline_keywords.

(** Python truthiness of a pid that may be [None]: [None] and [0] are falsy. *)
Definition pid_truthy (pid : option Z) : bool :=
  match pid with
  | Some p => negb (p =? 0)
  | None => false
  end.

(** Truthiness of the nullable boolean column. *)
Definition bool_truthy (b : option bool) : bool :=
  match b with Some true => true | _ => false end.

(* ===================================================================== *)
(** ** What the operating system answers to the probes *)
(* ===================================================================== *)

Inductive psutil_error : Type := NoSuchProcess | AccessDenied.

Inductive os_error : Type := ProcessLookupError | PermissionError.

(** Outcome of [subprocess.run(['ps', ...], timeout=...)]: completion with a
    return code and captured stdout, [TimeoutExpired], another
    [SubprocessError], or an [OSError] because [ps] could not be started. *)
Inductive ps_outcome : Type :=
| Completed (returncode : Z) (stdout : string)
| TimeoutExpired
| SubprocessError
| PsOSError.

(** One entry of [psutil.process_iter(['pid', 'cmdline', 'create_time'])];
    a command line that cannot be read is [None] in [proc.info]. *)
Record proc_info : Type := {
  pi_pid : Z;
  pi_cmdline : option (list string);
  pi_create_time : Z
}.

(** [psutil.STATUS_ZOMBIE]. *)
Definition STATUS_ZOMBIE : string := "zombie".

Record OS : Type := {
  psutil_importable : bool;                    (* [import psutil] succeeds *)
  pid_exists : Z -> bool;                      (* [psutil.pid_exists] *)
  proc_open : Z -> option psutil_error;        (* [psutil.Process(pid)] *)
  proc_status : Z -> psutil_error + string;    (* [process.status()] *)
  proc_cmdline : Z -> psutil_error + list string; (* [process.cmdline()] *)
  process_iter : list proc_info;
  kill0 : Z -> option os_error;                (* [os.kill(pid, 0)] *)
  ps_stat : Z -> ps_outcome;                   (* [ps -p pid -o stat=] *)
  ps_stat_comm : Z -> ps_outcome;              (* [ps -p pid -o stat=,comm=] *)
  ps_aux : ps_outcome;                         (* [ps aux] *)
  config_loadable : bool                       (* [load_config()] succeeds *)
}.

(* ===================================================================== *)
(** ** Exceptions, events and the state-and-exception monad *)
(* ===================================================================== *)

Inductive exn : Type :=
| OperationalError                  (* connect, statement or commit failed *)
| InFailedSqlTransaction            (* statement on an aborted transaction *)
| UniqueViolation (constraint : string)
| ConfigError                       (* [load_config] failed *)
| UncaughtSubprocessError
| UncaughtOSError
| FeedError (text : string).        (* the feed iterator raised *)

(** [str(e)] for the two places that search the text of an exception. *)
Definition exn_text (e : exn) : string :=
  match e with
  | OperationalError => "could not connect to server"
  | InFailedSqlTransaction => "current transaction is aborted"
  | UniqueViolation c =>
      ("duplicate key value violates unique constraint " ++ c)%string
  | ConfigError => "config.yaml"
  | UncaughtSubprocessError => "subprocess error"
  | UncaughtOSError => "No such file or directory"
  | FeedError t => t
  end.

(** The reason returned next to the verdict by
    [is_pipeline_process_running]. *)
Inductive Reason : Type :=
| NoPidProvided
| PidDoesNotExist (pid : Z)
| PidIsZombie (pid : Z)
| PidRunningPipeline (pid : Z)
| PidNotPipeline (pid : Z) (cmdline : string)
| PidError (pid : Z) (e : psutil_error)
| PidRunning (pid : Z) (comm : string)
| PidStatusUnknown (pid : Z)
| PidTimeout (pid : Z).

(** The entries of [issues_found]. *)
Inductive Issue : Type :=
| NoStatusInDatabase
| MarkedRunningBut (r : Reason)
| PossiblyStuck (runtime_us : Z)
| OrphanedProcess (pid : Z) (cmdline : string)
| HealthCheckFailed (e : exn).

(** The entries of [fixes_applied]. *)
Inductive Fix : Type :=
| FixedStaleStatus (was_pid : option Z).

(* ===================================================================== *)
(** ** Persistent store *)
(* ===================================================================== *)

(** The singleton row of [pipeline_status] (the row with [id = 1]). *)
Record PipelineRow : Type := {
  last_run_timestamp : option Z;
  is_running : option bool;
  last_completion_timestamp : option Z;
  process_pid : option Z
}.

(** A row of [users]. *)
Record User : Type := {
  user_id : string;
  username : string;
  user_created_utc : option Z;
  comment_karma : option Z;
  link_karma : option Z;
  is_verified : option bool
}.

(** A row of [posts_raw]: the columns ingestion writes, the workflow
    [status] and one enrichment column. *)
Record Post : Type := {
  post_id : string;
  subreddit : string;
  created_utc : Z;
  title : string;
  body : string;
  img_text : option string;
  link_flair_text : option string;
  score : Z;
  num_comments : Z;
  url : string;
  author_id : option string;
  status : option string;
  priority_score : option Z
}.

(** Tables are lists of rows in table order; a [SELECT] without
    [ORDER BY] followed by [fetchone] yields the first matching row. *)
Record DB : Type := {
  pipeline_status : option PipelineRow;
  posts_raw : list Post;
  users : list User
}.

(** The committed database and the script of storage faults still to come:
    each connect, statement and commit consumes the head of the script and
    fails when it is [true]; an empty script means no further fault. *)
Record World : Type := {
  db : DB;
  faults : list bool
}.

(** A connection: the working copy of its open transaction, if any, and
    whether a failed statement has aborted that transaction. *)
Record Conn : Type := {
  work : option DB;
  aborted : bool
}.

Definition fresh_conn : Conn := {| work := None; aborted := false |}.

(** The state of a connection after a statement failed and the exception
    was swallowed without [rollback]. *)
Definition abort (c : Conn) : Conn := {| work := work c; aborted := true |}.

(** What a connection reads: its own uncommitted changes over the committed
    database. *)
Definition view (c : Conn) (w : World) : DB :=
  match work c with
  | Some d => d
  | None => db w
  end.

(** The dict returned by [get_pipeline_status]. *)
Record StatusDict : Type := {
  sd_last_run : Z;
  sd_is_running : bool;
  sd_last_completion : Z;
  sd_process_pid : option Z
}.

(** The dict returned by [perform_health_check]. *)
Record HealthResult : Type := {
  healthy : bool;
  issues : list Issue;
  fixes : list Fix
}.

(** Every [print] and Streamlit notification of the three programs. *)
Inductive Msg : Type :=
(* app/streamlit_app.py *)
| AutoFixingStaleState (pid : option Z)
| StWarningAutoFixed (pid : option Z)
| ErrorGettingPipelineStatus (e : exn)
| ErrorUpdatingPipelineStatus (e : exn)
| ErrorCheckingCompletion (e : exn)
(* utils/pipeline_health_check.py *)
| HcStarting
| HcRule
| HcWarnNoStatus
| HcDatabaseStatus (row : PipelineRow)
| HcCross (i : Issue)
| HcAutoFixing
| HcCheck (f : Fix)
| HcFixFailed
| HcValidation (r : Reason)
| HcWarn (i : Issue)
| HcCheckingOrphans
| HcNoOrphans
| HcSummary (n_issues n_fixes : nat)
| HcIssuesHeader
| HcIssueLine (i : Issue)
| HcFixesHeader
| HcFixLine (f : Fix)
| HcAllPassed
| HcErrorGettingStatus (e : exn)
| HcErrorFixingStale (e : exn)
(* ingestor/ingest.py *)
| FetchingNewPosts (subreddit_name : string)
| StopOlderThan3Days (id subreddit_name : string)
| StopAlreadyExists (id subreddit_name : string)
| SkipNoAuthor (id : string)
| SkipAuthorIdTooLong (author_id id : string)
| SkipProtected (author_username : string) (existing_status : option string)
    (existing_post_id id : string)
| SkipIdentical (author_username id : string)
| ReplacingPost (existing_post_id : string) (existing_status : option string)
    (author_username id : string)
| WarnAuthorDetails (author_username : string)
| SkipUsernameConflict (author_username id : string)
| ErrorInsertingUser (author_username : string) (e : exn)
| ErrorDownloadingImage (url : string)
| ErrorDuringOcr (url : string)
| RedditConfigIncomplete
| UsingRedditApi
| ErrorRedditIngestion (e : exn)
| ProcessingImagePost (url : string)
| ExtractedText (text : string)
| ErrorInsertingPost (id author_username : string) (e : exn)
| FinishedFetching (count : nat) (subreddit_name : string)
| SkippedSummary (n : nat)
| ReplacedSummary (n : nat)
| ErrorAccessingSubreddit (subreddit_name : string) (e : exn)
| RateLimitWait (subreddit_name : string)
| CleaningUp (five_days_ago : Z)
| DeletedOldPosts (n : nat)
| NoOldPosts
| ErrorDuringCleanup (e : exn).

(** Computations: read and update the [World], emit events, and either
    return a value or raise.  State changes and events made before a raise
    persist, as in Python. *)
Definition M (A : Type) : Type := World -> (exn + A) * World * list Msg.

Definition ret {A} (a : A) : M A := fun w => (inr a, w, []).

Definition raise {A} (e : exn) : M A := fun w => (inl e, w, []).

Definition bind {A B} (m : M A) (k : A -> M B) : M B :=
  fun w =>
    match m w with
    | (inl e, w1, o1) => (inl e, w1, o1)
    | (inr a, w1, o1) =>
        match k a w1 with
        | (r, w2, o2) => (r, w2, o1 ++ o2)
        end
    end.

(** [try: m  except Exception as e: h e]. *)
Definition try_catch {A} (m : M A) (h : exn -> M A) : M A :=
  fun w =>
    match m w with
    | (inl e, w1, o1) =>
        match h e w1 with
        | (r, w2, o2) => (r, w2, o1 ++ o2)
        end
    | (inr a, w1, o1) => (inr a, w1, o1)
    end.

Definition print (m : Msg) : M unit := fun w => (inr tt, w, [m]).

(** [if verbose: print(...)]. *)
Definition when_verbose (verbose : bool) (ms : list Msg) : M unit :=
  fun w => (inr tt, w, if verbose then ms else []).

Declare Scope monad_scope.
Delimit Scope monad_scope with monad.
Notation "x <- c1 ;; c2" := (bind c1 (fun x => c2))
  (at level 61, c1 at next level, right associativity) : monad_scope.
Notation "' pat <- c1 ;; c2" := (bind c1 (fun x => match x with pat => c2 end))
  (at level 61, pat pattern, c1 at next level, right associativity)
  : monad_scope.
Notation "c1 ;; c2" := (bind c1 (fun _ => c2))
  (at level 61, right associativity) : monad_scope.
Local Open Scope monad_scope.

(** Accessors for the three components of a run. *)
Definition result_of {A} (r : (exn + A) * World * list Msg) : exn + A :=
  fst (fst r).
Definition world_of {A} (r : (exn + A) * World * list Msg) : World :=
  snd (fst r).
Definition output_of {A} (r : (exn + A) * World * list Msg) : list Msg :=
  snd r.

(** *** Storage primitives *)

(** Consume one entry of the fault script. *)
Definition storage_fault : M unit :=
  fun w =>
    match faults w with
    | true :: fs => (inl OperationalError, {| db := db w; faults := fs |}, [])
    | false :: fs => (inr tt, {| db := db w; faults := fs |}, [])
    | [] => (inr tt, w, [])
    end.

(** [psycopg2.connect(...)]. *)
Definition get_db_connection : M Conn :=
  storage_fault ;; ret fresh_conn.

(** [cur.execute(stmt)]: the first statement opens the transaction on the
    committed database; a statement on an aborted transaction raises. *)
Definition execute {A} (c : Conn) (stmt : DB -> exn + (DB * A))
  : M (Conn * A) :=
  if aborted c then raise InFailedSqlTransaction
  else
    storage_fault ;;
    fun w =>
      match stmt (view c w) with
      | inl e => (inl e, w, [])
      | inr (d, a) => (inr ({| work := Some d; aborted := false |}, a), w, [])
      end.

(** [conn.commit()]: on an aborted transaction it only ends it. *)
Definition commit (c : Conn) : M Conn :=
  storage_fault ;;
  fun w =>
    if aborted c then (inr fresh_conn, w, [])
    else (inr fresh_conn, {| db := view c w; faults := faults w |}, []).

(** [conn.rollback()]: the open transaction is discarded; like every call
    on the connection it can fail, and then it raises. *)
Definition rollback (c : Conn) : M Conn :=
  storage_fault ;; ret fresh_conn.

(** [conn.close()]: the connection is given up; nothing is written. *)
Definition close (c : Conn) : M unit := ret tt.

(** [try: conn = get_db_connection(...); body  except Exception as e:
    handler], for the handlers that ask whether [conn] was bound
    ([if conn:], [if 'conn' in locals():]): the handler receives the
    connection when the connect succeeded.  What the handler raises
    propagates to the caller. *)
Definition try_with_connection {A} (body : Conn -> M A)
  (handler : exn -> option Conn -> M A) : M A :=
  r <- try_catch (conn <- get_db_connection ;; ret (inr conn))
                 (fun e => ret (inl e)) ;;
  match r with
  | inl e => handler e None
  | inr conn => try_catch (body conn) (fun e => handler e (Some conn))
  end.

(** A statement that reads. *)
Definition query {A} (f : DB -> A) : DB -> exn + (DB * A) :=
  fun d => inr (d, f d).

(** A statement that writes. *)
Definition update (f : DB -> DB) : DB -> exn + (DB * unit) :=
  fun d => inr (f d, tt).

(** [CREATE TABLE IF NOT EXISTS] and [ALTER TABLE ... ADD COLUMN IF NOT
    EXISTS]: no row changes. *)
Definition ddl : DB -> exn + (DB * unit) := update (fun d => d).

Definition set_pipeline_status (r : option PipelineRow) (d : DB) : DB :=
  {| pipeline_status := r; posts_raw := posts_raw d; users := users d |}.

(* ===================================================================== *)
(** ** app/streamlit_app.py *)
(* ===================================================================== *)

Module Dashboard.

(** [is_process_running(pid)].  With [psutil]: the pid must exist, not be a
    zombie, and its command line must contain a pipeline keyword;
    [NoSuchProcess] and [AccessDenied] give [False].  Without [psutil]:
    signal 0, then [ps -o stat=]; a timeout or subprocess error gives
    [True], an [OSError] (from [os.kill] or from starting [ps]) [False]. *)
Definition is_process_running (os : OS) (pid : option Z) : bool :=
  match pid with
  | None => false
  | Some p =>
    if p =? 0 then false
    else if psutil_importable os then
      if pid_exists os p then
        match proc_open os p with
        | Some _ => false
        | None =>
          match proc_status os p with
          | inl _ => false
          | inr st =>
            if String.eqb st STATUS_ZOMBIE then false
            else
              match proc_cmdline os p with
              | inl _ => false
              | inr args =>
                let cmdline := Text.join " " args in
                if Text.contains "run_daily_reddit_pipeline" cmdline
                   || Text.contains "ingest.py" cmdline
                   || Text.contains "run_gemini_analysis.py" cmdline
                then true
                else false  (* PID exists but it's a different process *)
              end
          end
        end
      else false
    else
      match kill0 os p with
      | Some _ => false
      | None =>
        match ps_stat os p with
        | Completed returncode stdout =>
          if returncode =? 0 then
            let stat := Text.strip stdout in
            if Text.contains "Z" stat || Text.contains "<defunct>" stat
            then false
            else true
          else false
        | TimeoutExpired | SubprocessError => true
        | PsOSError => false
        end
      end
  end.

(** The row written by [INSERT ... ON CONFLICT (id) DO UPDATE] for each
    action; columns absent from the [INSERT] take their defaults
    ([is_running] defaults to [FALSE], the others to [NULL]). *)
Definition upsert_start (ts : Z) (d : DB) : DB :=
  set_pipeline_status
    (Some match pipeline_status d with
          | None =>
              {| last_run_timestamp := Some ts; is_running := Some true;
                 last_completion_timestamp := None; process_pid := None |}
          | Some r =>
              {| last_run_timestamp := Some ts; is_running := Some true;
                 last_completion_timestamp := last_completion_timestamp r;
                 process_pid := process_pid r |}
          end) d.

Definition upsert_complete (ts : Z) (d : DB) : DB :=
  set_pipeline_status
    (Some match pipeline_status d with
          | None =>
              {| last_run_timestamp := None; is_running := Some false;
                 last_completion_timestamp := Some ts; process_pid := None |}
          | Some r =>
              {| last_run_timestamp := last_run_timestamp r;
                 is_running := Some false;
                 last_completion_timestamp := Some ts;
                 process_pid := process_pid r |}
          end) d.

Definition upsert_failed (d : DB) : DB :=
  set_pipeline_status
    (Some match pipeline_status d with
          | None =>
              {| last_run_timestamp := None; is_running := Some false;
                 last_completion_timestamp := None; process_pid := None |}
          | Some r =>
              {| last_run_timestamp := last_run_timestamp r;
                 is_running := Some false;
                 last_completion_timestamp := last_completion_timestamp r;
                 process_pid := None |}
          end) d.

(** [update_pipeline_status(db_config, timestamp, action)]. *)
Definition update_pipeline_status (timestamp : Z) (action : string) : M bool :=
  try_catch
    (conn <- get_db_connection ;;
     conn <- (if String.eqb action "start" then
                '(conn, _) <- execute conn (update (upsert_start timestamp)) ;;
                ret conn
              else if String.eqb action "complete" then
                '(conn, _) <- execute conn (update (upsert_complete timestamp)) ;;
                ret conn
              else if String.eqb action "failed" then
                '(conn, _) <- execute conn (update upsert_failed) ;;
                ret conn
              else ret conn) ;;
     _ <- commit conn ;;
     ret true)
    (fun e => print (ErrorUpdatingPipelineStatus e) ;; ret false).

Definition default_status : StatusDict :=
  {| sd_last_run := 0; sd_is_running := false;
     sd_last_completion := 0; sd_process_pid := None |}.

(** [x.timestamp() if x else 0]. *)
Definition timestamp_or_0 (x : option Z) : Z :=
  match x with Some t => t | None => 0 end.

(** [get_pipeline_status(db_config)]; [now] is [time.time()]. *)
Definition get_pipeline_status (os : OS) (now : Z) : M StatusDict :=
  try_catch
    (conn <- get_db_connection ;;
     '(conn, _) <- execute conn ddl ;;
     conn <- try_catch
               ('(c1, _) <- execute conn ddl ;;
                '(c2, _) <- execute c1 ddl ;;
                '(c3, _) <- execute c2 ddl ;;
                ret c3)
               (fun _ => ret (abort conn)) ;;
     '(conn, result) <- execute conn (query pipeline_status) ;;
     _ <- commit conn ;;
     match result with
     | Some row =>
         let last_run := last_run_timestamp row in
         let last_completion := last_completion_timestamp row in
         let process_pid := process_pid row in
         is_running <-
           (if bool_truthy (is_running row) && pid_truthy process_pid then
              if negb (is_process_running os process_pid) then
                print (AutoFixingStaleState process_pid) ;;
                _ <- update_pipeline_status now "failed" ;;
                print (StWarningAutoFixed process_pid) ;;
                ret (Some false)
              else ret (is_running row)
            else ret (is_running row)) ;;
         ret {| sd_last_run := timestamp_or_0 last_run;
                sd_is_running := bool_truthy is_running;
                sd_last_completion := timestamp_or_0 last_completion;
                sd_process_pid := process_pid |}
     | None => ret default_status
     end)
    (fun e => print (ErrorGettingPipelineStatus e) ;; ret default_status).

(** [SELECT COUNT( * ) FROM posts_raw WHERE created_utc > %s]. *)
Definition count_posts_newer (t : Z) (d : DB) : nat :=
  List.length (filter (fun p => created_utc p >? t) (posts_raw d)).

(** [check_pipeline_completion(db_config)]. *)
Definition check_pipeline_completion (os : OS) (now : Z) : M bool :=
  try_catch
    (conn <- get_db_connection ;;
     status <- get_pipeline_status os now ;;
     if negb (sd_is_running status) then ret true
     else
       '(conn, new_posts_count) <-
          execute conn (query (count_posts_newer (sd_last_run status))) ;;
       if (0 <? Z.of_nat new_posts_count) && sd_is_running status then
         _ <- update_pipeline_status now "complete" ;;
         ret true
       else ret (negb (sd_is_running status)))
    (fun e => print (ErrorCheckingCompletion e) ;; ret true).

End Dashboard.

Arguments Dashboard.is_process_running : simpl never.
Arguments Dashboard.get_pipeline_status : simpl never.

(* ===================================================================== *)
(** ** utils/pipeline_health_check.py *)
(* ===================================================================== *)

Module Health.

(** [is_pipeline_process_running(pid)]: verdict and reason.  In the
    fallback branch a [SubprocessError] other than a timeout is not caught
    and propagates to the caller. *)
Definition is_pipeline_process_running (os : OS) (pid : option Z)
  : exn + (bool * Reason) :=
  match pid with
  | None => inr (false, NoPidProvided)
  | Some p =>
    if p =? 0 then inr (false, NoPidProvided)
    else if psutil_importable os then
      if negb (pid_exists os p) then inr (false, PidDoesNotExist p)
      else
        match proc_open os p with
        | Some e => inr (false, PidError p e)
        | None =>
          match proc_status os p with
          | inl e => inr (false, PidError p e)
          | inr st =>
            if String.eqb st STATUS_ZOMBIE then inr (false, PidIsZombie p)
            else
              match proc_cmdline os p with
              | inl e => inr (false, PidError p e)
              | inr args =>
                let cmdline := Text.join " " args in
                if has_pipeline_keyword cmdline
                then inr (true, PidRunningPipeline p)
                else inr (false, PidNotPipeline p cmdline)
              end
          end
        end
    else
      match kill0 os p with
      | Some _ => inr (false, PidDoesNotExist p)
      | None =>
        match ps_stat_comm os p with
        | Completed returncode stdout =>
          if returncode =? 0 then
            let lines := Text.split_on Text.LF (Text.strip stdout) in
            match lines with
            | [] => inr (false, PidStatusUnknown p)
            | line0 :: _ =>
              match Text.split_ws line0 with
              | stat :: ((_ :: _) as rest) =>
                let comm := Text.join " " rest in
                if Text.contains "Z" stat || Text.contains "<defunct>" comm
                then inr (false, PidIsZombie p)
                else inr (true, PidRunning p comm)
              | _ => inr (false, PidStatusUnknown p)
              end
            end
          else inr (false, PidStatusUnknown p)
        | TimeoutExpired => inr (true, PidTimeout p)
        | SubprocessError => inl UncaughtSubprocessError
        | PsOSError => inr (false, PidDoesNotExist p)
        end
      end
  end.

(** An entry of the list built by [find_orphaned_pipeline_processes]. *)
Record Orphan : Type := {
  o_pid : Z;
  o_cmdline : string;
  o_create_time : option Z
}.

(** [int(s)] on a token of [ps] output: an optional sign, then decimal
    digits, where single underscores may separate digits; anything else is
    a [ValueError] ([None]).  [prev_digit] tells whether the previous
    character was a digit. *)
Fixpoint parse_digits (acc : Z) (prev_digit : bool) (s : string) : option Z :=
  match s with
  | EmptyString => if prev_digit then Some acc else None
  | String c t =>
      let n := N_of_ascii c in
      if ((48 <=? n) && (n <=? 57))%N
      then parse_digits (10 * acc + Z.of_N (n - 48)) true t
      else if Ascii.eqb c "_"%char && prev_digit
      then parse_digits acc false t
      else None
  end.

Definition parse_int (s : string) : option Z :=
  match s with
  | EmptyString => None
  | String c t =>
      if Ascii.eqb c "-"%char then option_map Z.opp (parse_digits 0 false t)
      else if Ascii.eqb c "+"%char then parse_digits 0 false t
      else parse_digits 0 false s
  end.

(** One line of [ps aux] in the fallback scan. *)
Definition orphan_of_line (line : string) : option Orphan :=
  if has_pipeline_keyword line then
    match Text.split_ws line with
    | (_ :: p1 :: _) as parts =>
        match parse_int p1 with
        | Some pid =>
            Some {| o_pid := pid;
                    o_cmdline := Text.join " " (skipn 10 parts);
                    o_create_time := None |}
        | None => None
        end
    | _ => None
    end
  else None.

Fixpoint filter_map {A B} (f : A -> option B) (l : list A) : list B :=
  match l with
  | [] => []
  | x :: r => match f x with
              | Some y => y :: filter_map f r
              | None => filter_map f r
              end
  end.

(** [find_orphaned_pipeline_processes()]. *)
Definition find_orphaned_pipeline_processes (os : OS) : exn + list Orphan :=
  if psutil_importable os then
    inr (filter_map
           (fun proc =>
              let cmdline :=
                Text.join " " (match pi_cmdline proc with
                               | Some args => args
                               | None => []
                               end) in
              if has_pipeline_keyword cmdline
              then Some {| o_pid := pi_pid proc; o_cmdline := cmdline;
                           o_create_time := Some (pi_create_time proc) |}
              else None)
           (process_iter os))
  else
    match ps_aux os with
    | Completed returncode stdout =>
        if returncode =? 0
        then inr (filter_map orphan_of_line (Text.split_on Text.LF stdout))
        else inr []
    | TimeoutExpired => inr []
    | SubprocessError => inl UncaughtSubprocessError
    | PsOSError => inl UncaughtOSError
    end.

(** Lift a computation that does not touch the store. *)
Definition lift {A} (r : exn + A) : M A :=
  match r with
  | inl e => raise e
  | inr a => ret a
  end.

(** [load_config()]. *)
Definition load_config (os : OS) : M unit :=
  if config_loadable os then ret tt else raise ConfigError.

(** [get_pipeline_status_from_db(db_config)]. *)
Definition get_pipeline_status_from_db : M (option PipelineRow) :=
  try_catch
    (conn <- get_db_connection ;;
     '(_, result) <- execute conn (query pipeline_status) ;;
     ret result)
    (fun e => print (HcErrorGettingStatus e) ;; ret None).

(** [UPDATE pipeline_status SET is_running = FALSE, process_pid = NULL
    WHERE id = 1]. *)
Definition clear_running (d : DB) : DB :=
  set_pipeline_status
    (match pipeline_status d with
     | None => None
     | Some r =>
         Some {| last_run_timestamp := last_run_timestamp r;
                 is_running := Some false;
                 last_completion_timestamp := last_completion_timestamp r;
                 process_pid := None |}
     end) d.

(** [fix_stale_pipeline_status(db_config, reason)]. *)
Definition fix_stale_pipeline_status (reason : Reason) : M bool :=
  try_catch
    (conn <- get_db_connection ;;
     '(conn, _) <- execute conn (update clear_running) ;;
     _ <- commit conn ;;
     ret true)
    (fun e => print (HcErrorFixingStale e) ;; ret false).

(** Two hours, the bound of the long-running check, in microseconds. *)
Definition two_hours : Z := 2 * 3600 * 1000000.

(** The loop over the orphan candidates: the tracked pid is skipped, every
    other one is an issue. *)
Fixpoint report_orphans (verbose : bool) (db_status : option PipelineRow)
  (orphaned : list Orphan) (issues_found : list Issue)
  : M (list Issue) :=
  match orphaned with
  | [] => ret issues_found
  | proc :: rest =>
      let tracked :=
        match db_status with
        | Some row =>
            match process_pid row with
            | Some p => o_pid proc =? p
            | None => false
            end
        | None => false
        end in
      if tracked then report_orphans verbose db_status rest issues_found
      else
        let issue := OrphanedProcess (o_pid proc) (o_cmdline proc) in
        when_verbose verbose [HcWarn issue] ;;
        report_orphans verbose db_status rest (issues_found ++ [issue])
  end.

(** Lines 210-231: the tracked process of a row marked running. *)
Definition check_tracked_process (verbose : bool) (os : OS)
  (row : PipelineRow) : M (list Issue * list Fix) :=
  if bool_truthy (is_running row) && pid_truthy (process_pid row) then
    '(running, reason) <-
       lift (is_pipeline_process_running os (process_pid row)) ;;
    if negb running then
      let issue := MarkedRunningBut reason in
      when_verbose verbose [HcCross issue; HcAutoFixing] ;;
      fixed <- fix_stale_pipeline_status reason ;;
      if fixed then
        let fix_ := FixedStaleStatus (process_pid row) in
        when_verbose verbose [HcCheck fix_] ;;
        ret ([issue], [fix_])
      else
        when_verbose verbose [HcFixFailed] ;;
        ret ([issue], [])
    else
      when_verbose verbose [HcValidation reason] ;;
      ret ([], [])
  else ret ([], []).

(** Lines 233-242: a run longer than two hours is reported.  The row is
    the one read at the start, also after a repair. *)
Definition check_runtime (verbose : bool) (now : Z) (row : PipelineRow)
  (issues_found : list Issue) : M (list Issue) :=
  match is_running row, last_run_timestamp row with
  | Some true, Some last_run =>
      let runtime := now - last_run in
      if two_hours <? runtime then
        let issue := PossiblyStuck runtime in
        when_verbose verbose [HcWarn issue] ;;
        ret (issues_found ++ [issue])
      else ret issues_found
  | _, _ => ret issues_found
  end.

(** Lines 244-261: orphaned pipeline processes. *)
Definition check_orphans (verbose : bool) (os : OS)
  (db_status : option PipelineRow) (issues_found : list Issue)
  : M (list Issue) :=
  when_verbose verbose [HcCheckingOrphans] ;;
  orphaned <- lift (find_orphaned_pipeline_processes os) ;;
  match orphaned with
  | [] => when_verbose verbose [HcNoOrphans] ;; ret issues_found
  | _ => report_orphans verbose db_status orphaned issues_found
  end.

(** Lines 263-281: the summary. *)
Definition print_summary (verbose : bool) (issues_found : list Issue)
  (fixes_applied : list Fix) : M unit :=
  when_verbose verbose
    ([HcRule; HcSummary (List.length issues_found)
                        (List.length fixes_applied)]
     ++ match issues_found with
        | [] => []
        | _ => HcIssuesHeader :: map HcIssueLine issues_found
        end
     ++ match fixes_applied with
        | [] => []
        | _ => HcFixesHeader :: map HcFixLine fixes_applied
        end
     ++ match issues_found with
        | [] => [HcAllPassed]
        | _ => []
        end).

(** [perform_health_check(verbose)]; [now] is
    [datetime.now(timezone.utc)].  The two lists the source appends to are
    threaded through the steps. *)
Definition perform_health_check (verbose : bool) (os : OS) (now : Z)
  : M HealthResult :=
  when_verbose verbose [HcStarting; HcRule] ;;
  try_catch
    (load_config os ;;
     db_status <- get_pipeline_status_from_db ;;
     '(issues_found, fixes_applied) <-
        match db_status with
        | None =>
            when_verbose verbose [HcWarnNoStatus] ;;
            ret ([NoStatusInDatabase], [])
        | Some row =>
            when_verbose verbose [HcDatabaseStatus row] ;;
            '(issues_found, fixes_applied) <-
               check_tracked_process verbose os row ;;
            issues_found <- check_runtime verbose now row issues_found ;;
            ret (issues_found, fixes_applied)
        end ;;
     issues_found <- check_orphans verbose os db_status issues_found ;;
     print_summary verbose issues_found fixes_applied ;;
     ret {| healthy := Nat.eqb (List.length issues_found) 0;
            issues := issues_found;
            fixes := fixes_applied |})
    (fun e =>
       let error := HealthCheckFailed e in
       when_verbose verbose [HcCross error] ;;
       ret {| healthy := false; issues := [error]; fixes := [] |}).

(** [main()]: the exit code passed to [sys.exit]; [quiet] is the
    [--quiet] flag. *)
Definition main (quiet : bool) (os : OS) (now : Z) : M Z :=
  result <- perform_health_check (negb quiet) os now ;;
  ret (if healthy result then 0 else 1).

End Health.

Arguments Health.is_pipeline_process_running : simpl never.
Arguments Health.get_pipeline_status_from_db : simpl never.
Arguments Health.fix_stale_pipeline_status : simpl never.
Arguments Health.check_tracked_process : simpl never.
Arguments Health.check_runtime : simpl never.
Arguments Health.check_orphans : simpl never.
Arguments Health.print_summary : simpl never.
Arguments Health.find_orphaned_pipeline_processes : simpl never.

(* ===================================================================== *)
(** ** ingestor/ingest.py *)
(* ===================================================================== *)

Module Ingest.

(** An attribute probed with [hasattr] and then read: absent, present with
    a value, or raising something other than [AttributeError]. *)
Inductive attr (A : Type) : Type :=
| Missing
| Has (a : A)
| Raises.
Arguments Missing {A}.
Arguments Has {A} a.
Arguments Raises {A}.

(** [submission.author]. *)
Record Redditor : Type := {
  name : string;
  fullname : option string;          (* [None]: [AttributeError] *)
  a_created_utc : attr Z;
  a_comment_karma : attr Z;
  a_link_karma : attr Z;
  a_has_verified_email : attr (option bool)
}.

(** A candidate yielded by [subreddit.new(limit=2000)]. *)
Record Submission : Type := {
  id : string;
  s_created_utc : Z;
  author : option Redditor;
  s_title : string;
  selftext : string;
  display_name : string;             (* [submission.subreddit.display_name] *)
  post_hint : option string;
  s_url : string;
  s_link_flair_text : option string;
  s_score : Z;
  s_num_comments : Z;
  permalink : string
}.

(** One step of the lazy feed iterator. *)
Inductive feed_step : Type :=
| Yield (submission : Submission)
| FeedRaises (text : string).

(** Download and OCR of one image. *)
Inductive ocr_result : Type :=
| OcrText (text : string)
| OcrDownloadError
| OcrFailure.

(** What ingestion reads from its surroundings.  [status_default] is the
    column default of [posts_raw.status]: the [CREATE TABLE] of [posts_raw]
    is not among the sources, so the default is a parameter. *)
Record Env : Type := {
  reddit_configured : bool;
  subreddits : list string;
  feed : string -> list feed_step;
  ocr : string -> ocr_result;
  status_default : option string
}.

(** The three counters of one subreddit's loop. *)
Record Counters : Type := {
  count : nat;
  skipped_existing_users : nat;
  replaced_posts : nat
}.

Definition zero_counters : Counters :=
  {| count := 0; skipped_existing_users := 0; replaced_posts := 0 |}.

Inductive ctl : Type := Continue | Break.

Definition image_extensions : list string := [".png"; ".jpg"; ".jpeg"; ".gif"].

(** [any(url.lower().endswith(ext) for ext in [...])]. *)
Definition has_image_extension (url : string) : bool :=
  existsb (fun ext => Text.endswith ext (Text.lower url)) image_extensions.

(** [extract_text_from_image(image_url)]. *)
Definition extract_text_from_image (env : Env) (image_url : string)
  : M (option string) :=
  if String.eqb image_url "" then ret None
  else if negb (has_image_extension image_url) then ret None
  else match ocr env image_url with
       | OcrText t => ret (Some t)
       | OcrDownloadError => print (ErrorDownloadingImage image_url) ;; ret None
       | OcrFailure => print (ErrorDuringOcr image_url) ;; ret None
       end.

(** *** Statements *)

(** [SELECT 1 FROM posts_raw WHERE id = %s]. *)
Definition post_exists (i : string) (d : DB) : bool :=
  existsb (fun p => String.eqb (post_id p) i) (posts_raw d).

Definition by_author (a : string) (p : Post) : bool :=
  match author_id p with
  | Some x => String.eqb x a
  | None => false
  end.

(** [SELECT id, status, title, subreddit FROM posts_raw WHERE author_id = %s]
    followed by [fetchone]. *)
Definition select_by_author (a : string) (d : DB) : option Post :=
  find (by_author a) (posts_raw d).

(** [DELETE FROM posts_raw WHERE id = %s]. *)
Definition delete_post (i : string) (d : DB) : DB :=
  {| pipeline_status := pipeline_status d;
     posts_raw := filter (fun p => negb (String.eqb (post_id p) i)) (posts_raw d);
     users := users d |}.

(** [SELECT 1 FROM users WHERE id = %s]. *)
Definition user_exists (i : string) (d : DB) : bool :=
  existsb (fun u => String.eqb (user_id u) i) (users d).

(** [COALESCE(EXCLUDED.x, users.x)]. *)
Definition coalesce {A} (excluded stored : option A) : option A :=
  match excluded with
  | Some v => Some v
  | None => stored
  end.

(** The [DO UPDATE SET] clause of the user upsert. *)
Definition merge_user (excluded stored : User) : User :=
  {| user_id := user_id stored;
     username := username excluded;
     user_created_utc :=
       coalesce (user_created_utc excluded) (user_created_utc stored);
     comment_karma := coalesce (comment_karma excluded) (comment_karma stored);
     link_karma := coalesce (link_karma excluded) (link_karma stored);
     is_verified := coalesce (is_verified excluded) (is_verified stored) |}.

(** Another row already holds this username ([users_username_key]). *)
Definition username_taken (u : User) (d : DB) : bool :=
  existsb (fun x => String.eqb (username x) (username u)
                    && negb (String.eqb (user_id x) (user_id u)))
          (users d).

(** [INSERT INTO users ... ON CONFLICT (id) DO UPDATE SET ...]. *)
Definition upsert_user (u : User) (d : DB) : exn + (DB * unit) :=
  if username_taken u d then inl (UniqueViolation "users_username_key")
  else
    inr ({| pipeline_status := pipeline_status d;
            posts_raw := posts_raw d;
            users :=
              if user_exists (user_id u) d
              then map (fun x => if String.eqb (user_id x) (user_id u)
                                 then merge_user u x else x) (users d)
              else users d ++ [u] |}, tt).

(** Another row already holds this url ([idx_posts_url_unique]). *)
Definition url_taken (p : Post) (d : DB) : bool :=
  existsb (fun x => String.eqb (url x) (url p)) (posts_raw d).

(** [INSERT INTO posts_raw (...) VALUES (...) ON CONFLICT (id) DO NOTHING]. *)
Definition insert_post (p : Post) (d : DB) : exn + (DB * unit) :=
  if post_exists (post_id p) d then inr (d, tt)
  else if url_taken p d then inl (UniqueViolation "idx_posts_url_unique")
  else inr ({| pipeline_status := pipeline_status d;
               posts_raw := posts_raw d ++ [p];
               users := users d |}, tt).

(** *** The body of the loop over one subreddit's feed *)

(** The statuses the admission check keeps: the literal list at the
    replacement decision. *)
Definition admit_protected : list string := ["sent"; "selected"; "answered"].

(** [existing_status in ['sent', 'selected', 'answered']]. *)
Definition status_in (st : option string) (l : list string) : bool :=
  match st with
  | Some s => Text.mem s l
  | None => false
  end.

(** The author attributes read before the user insert; the flag tells
    whether reading them raised (the remaining ones keep their initial
    value). *)
Definition author_details (a : Redditor)
  : option Z * option Z * option Z * option bool * bool :=
  match a_created_utc a with
  | Raises => (None, None, None, Some false, true)
  | c =>
    let created := match c with Has v => Some v | _ => None end in
    match a_comment_karma a with
    | Raises => (created, None, None, Some false, true)
    | ck =>
      let ckv := match ck with Has v => Some v | _ => None end in
      match a_link_karma a with
      | Raises => (created, ckv, None, Some false, true)
      | lk =>
        let lkv := match lk with Has v => Some v | _ => None end in
        match a_has_verified_email a with
        | Raises => (created, ckv, lkv, Some false, true)
        | Has v => (created, ckv, lkv, v, false)
        | Missing => (created, ckv, lkv, Some false, false)
        end
      end
    end
  end.

(** [author.fullname], or the constructed id when it is not available. *)
Definition author_id_of (a : Redditor) : string :=
  match fullname a with
  | Some f => f
  | None => ("t2_" ++ name a)%string
  end.

(** The tuple [user_data]. *)
Definition user_data (a : Redditor) : User :=
  let '(created, ck, lk, verified, _) := author_details a in
  {| user_id := author_id_of a;
     username := name a;
     user_created_utc := created;
     comment_karma := ck;
     link_karma := lk;
     is_verified := verified |}.

(** The tuple [post_data] as the row it becomes. *)
Definition post_data (env : Env) (s : Submission) (author_id : string)
  (img_text : option string) : Post :=
  {| post_id := id s;
     subreddit := display_name s;
     created_utc := s_created_utc s;
     title := s_title s;
     body := selftext s;
     img_text := img_text;
     link_flair_text := s_link_flair_text s;
     score := s_score s;
     num_comments := s_num_comments s;
     url := ("https://reddit.com" ++ permalink s)%string;
     author_id := Some author_id;
     status := status_default env;
     priority_score := None |}.

Definition bump_count (c : Counters) : Counters :=
  {| count := S (count c);
     skipped_existing_users := skipped_existing_users c;
     replaced_posts := replaced_posts c |}.

Definition bump_skipped (c : Counters) : Counters :=
  {| count := count c;
     skipped_existing_users := S (skipped_existing_users c);
     replaced_posts := replaced_posts c |}.

Definition bump_replaced (c : Counters) : Counters :=
  {| count := count c;
     skipped_existing_users := skipped_existing_users c;
     replaced_posts := S (replaced_posts c) |}.

(** Lines 236-246: the text of an image post. *)
Definition image_text (env : Env) (s : Submission) : M (option string) :=
  let is_image_post :=
    match post_hint s with
    | Some h => String.eqb h "image"
    | None => false
    end || has_image_extension (s_url s) in
  if is_image_post then
    print (ProcessingImagePost (s_url s)) ;;
    t <- extract_text_from_image env (s_url s) ;;
    match t with
    | Some txt =>
        if String.eqb txt "" then ret t
        else print (ExtractedText (substring 0 100 txt)) ;; ret t
    | None => ret t
    end
  else ret None.

(** Lines 236-275: OCR, [post_data] and the insert into [posts_raw]. *)
Definition insert_submission (env : Env) (s : Submission) (a : Redditor)
  (conn : Conn) (cnt : Counters) : M (Conn * Counters * ctl) :=
  img_text <- image_text env s ;;
  try_catch
    ('(conn, _) <-
        execute conn (insert_post (post_data env s (author_id_of a) img_text)) ;;
     ret (conn, bump_count cnt, Continue))
    (fun e =>
       print (ErrorInsertingPost (id s) (name a) e) ;;
       conn <- rollback conn ;;
       ret (conn, cnt, Continue)).

(** Lines 181-234: create the user when no row has this id. *)
Definition ensure_user (env : Env) (s : Submission) (a : Redditor)
  (conn : Conn) (cnt : Counters) : M (Conn * Counters * ctl) :=
  '(conn, found) <- execute conn (query (user_exists (author_id_of a))) ;;
  if found then insert_submission env s a conn cnt
  else
    let '(_, warned) := author_details a in
    (if warned then print (WarnAuthorDetails (name a)) else ret tt) ;;
    r <- try_catch
           ('(conn, _) <- execute conn (upsert_user (user_data a)) ;;
            ret (Some conn))
           (fun e =>
              (if Text.contains "users_username_key" (exn_text e)
               then print (SkipUsernameConflict (name a) (id s))
               else print (ErrorInsertingUser (name a) e)) ;;
              ret None) ;;
    match r with
    | Some conn => insert_submission env s a conn cnt
    | None => conn <- rollback conn ;; ret (conn, cnt, Continue)
    end.

(** Lines 123-275: one iteration of the loop over [subreddit.new]. *)
Definition process_submission (env : Env) (subreddit_name : string)
  (three_days_ago : Z) (s : Submission) (conn : Conn) (cnt : Counters)
  : M (Conn * Counters * ctl) :=
  if s_created_utc s <? three_days_ago then
    print (StopOlderThan3Days (id s) subreddit_name) ;;
    ret (conn, cnt, Break)
  else
    '(conn, found) <- execute conn (query (post_exists (id s))) ;;
    if found then
      print (StopAlreadyExists (id s) subreddit_name) ;;
      ret (conn, cnt, Break)
    else
      match author s with
      | None => print (SkipNoAuthor (id s)) ;; ret (conn, cnt, Continue)
      | Some a =>
        let author_id := author_id_of a in
        if (50 <? String.length author_id)%nat then
          print (SkipAuthorIdTooLong (substring 0 50 author_id) (id s)) ;;
          ret (conn, cnt, Continue)
        else
          '(conn, existing_post) <-
             execute conn (query (select_by_author author_id)) ;;
          match existing_post with
          | Some existing =>
            if status_in (status existing) admit_protected then
              print (SkipProtected (name a) (status existing)
                                   (post_id existing) (id s)) ;;
              ret (conn, bump_skipped cnt, Continue)
            else if String.eqb (title existing) (s_title s)
                    && String.eqb (subreddit existing) (display_name s) then
              print (SkipIdentical (name a) (id s)) ;;
              ret (conn, bump_skipped cnt, Continue)
            else
              print (ReplacingPost (post_id existing) (status existing)
                                   (name a) (id s)) ;;
              '(conn, _) <-
                 execute conn (update (delete_post (post_id existing))) ;;
              ensure_user env s a conn (bump_replaced cnt)
          | None => ensure_user env s a conn cnt
          end
      end.

(** The [for submission in subreddit.new(...)] loop. *)
Fixpoint run_feed (env : Env) (subreddit_name : string) (three_days_ago : Z)
  (steps : list feed_step) (conn : Conn) (cnt : Counters)
  : M (Conn * Counters) :=
  match steps with
  | [] => ret (conn, cnt)
  | FeedRaises t :: _ => raise (FeedError t)
  | Yield s :: rest =>
      '(conn, cnt, c) <-
         process_submission env subreddit_name three_days_ago s conn cnt ;;
      match c with
      | Break => ret (conn, cnt)
      | Continue => run_feed env subreddit_name three_days_ago rest conn cnt
      end
  end.

Definition three_days : Z := 3 * 86400 * 1000000.
Definition five_days : Z := 5 * 86400 * 1000000.

(** Lines 114-290: one subreddit: the feed loop, one [commit] at its end,
    and the handler that rolls the subreddit back.  Returns the connection
    and the counters the summary prints. *)
Definition ingest_subreddit (env : Env) (three_days_ago : Z)
  (subreddit_name : string) (conn : Conn) : M (Conn * Counters) :=
  print (FetchingNewPosts subreddit_name) ;;
  try_catch
    ('(conn, cnt) <-
        run_feed env subreddit_name three_days_ago
                 (feed env subreddit_name) conn zero_counters ;;
     conn <- commit conn ;;
     print (FinishedFetching (count cnt) subreddit_name) ;;
     (if (0 <? skipped_existing_users cnt)%nat
      then print (SkippedSummary (skipped_existing_users cnt)) else ret tt) ;;
     (if (0 <? replaced_posts cnt)%nat
      then print (ReplacedSummary (replaced_posts cnt)) else ret tt) ;;
     ret (conn, cnt))
    (fun e =>
       print (ErrorAccessingSubreddit subreddit_name e) ;;
       (if Text.contains "429" (exn_text e)
           || Text.contains "rate" (Text.lower (exn_text e))
        then print (RateLimitWait subreddit_name) else ret tt) ;;
       conn <- rollback conn ;;
       ret (conn, zero_counters)).

Fixpoint ingest_subreddits (env : Env) (three_days_ago : Z)
  (names : list string) (conn : Conn) : M Conn :=
  match names with
  | [] => ret conn
  | n :: rest =>
      '(conn, _) <- ingest_subreddit env three_days_ago n conn ;;
      ingest_subreddits env three_days_ago rest conn
  end.

(** [ingest_with_reddit_api(db_config_dict)]; [now] is
    [datetime.now(timezone.utc)]. *)
Definition ingest_with_reddit_api (env : Env) (now : Z) : M bool :=
  if negb (reddit_configured env) then
    print RedditConfigIncomplete ;; ret false
  else
    print UsingRedditApi ;;
    try_catch
      (conn <- get_db_connection ;;
       _ <- ingest_subreddits env (now - three_days) (subreddits env) conn ;;
       ret true)
      (fun e => print (ErrorRedditIngestion e) ;; ret false).

(** The statuses the reaper keeps: the [NOT IN] list of both queries. *)
Definition reap_protected : list string :=
  ["selected"; "answered"; "sent"; "lead"].

(** [created_utc < %s AND (status IS NULL OR status NOT IN (...))]. *)
Definition reapable (five_days_ago : Z) (p : Post) : bool :=
  (created_utc p <? five_days_ago)
  && match status p with
     | None => true
     | Some s => negb (Text.mem s reap_protected)
     end.

Definition count_reapable (t : Z) (d : DB) : nat :=
  List.length (filter (reapable t) (posts_raw d)).

Definition delete_reapable (t : Z) (d : DB) : DB :=
  {| pipeline_status := pipeline_status d;
     posts_raw := filter (fun p => negb (reapable t p)) (posts_raw d);
     users := users d |}.

(** [cleanup_old_posts(db_config_dict)].  The handler rolls back when the
    connection was made ([if conn: conn.rollback()]); a rollback that
    fails raises out of the function. *)
Definition cleanup_old_posts (now : Z) : M bool :=
  try_with_connection
    (fun conn =>
       let five_days_ago := now - five_days in
       print (CleaningUp five_days_ago) ;;
       '(conn, posts_to_delete) <-
          execute conn (query (count_reapable five_days_ago)) ;;
       if (0 <? posts_to_delete)%nat then
         '(conn, _) <- execute conn (update (delete_reapable five_days_ago)) ;;
         _ <- commit conn ;;
         print (DeletedOldPosts posts_to_delete) ;;
         ret true
       else
         print NoOldPosts ;;
         ret true)
    (fun e conn =>
       print (ErrorDuringCleanup e) ;;
       match conn with
       | Some c => _ <- rollback c ;; ret false
       | None => ret false
       end).

End Ingest.

Arguments execute : simpl never.
Arguments rollback : simpl never.
Arguments Ingest.image_text : simpl never.

(* ===================================================================== *)
(** ** Observations, sample states and the properties under study *)
(* ===================================================================== *)

(** What the probes show about a pid, as the two checkers read them. *)

(** The pid names no process: [pid_exists] is false, or signal 0 fails. *)
Definition observed_not_found (os : OS) (p : Z) : bool :=
  if psutil_importable os then negb (pid_exists os p)
  else match kill0 os p with
       | Some _ => true
       | None => false
       end.

(** The process exists and is a zombie: [status()] says so, or the state
    column of [ps] contains [Z]. *)
Definition observed_zombie (os : OS) (p : Z) : bool :=
  if psutil_importable os then
    pid_exists os p
    && match proc_open os p, proc_status os p with
       | None, inr st => String.eqb st STATUS_ZOMBIE
       | _, _ => false
       end
  else
    match kill0 os p, ps_stat os p with
    | None, Completed 0 stdout =>
        Text.contains "Z" (Text.strip stdout)
        || Text.contains "<defunct>" (Text.strip stdout)
    | _, _ => false
    end.

(** The same machine with another answer to [process.cmdline()]. *)
Definition with_cmdline (os : OS) (f : Z -> psutil_error + list string) : OS :=
  {| psutil_importable := psutil_importable os;
     pid_exists := pid_exists os;
     proc_open := proc_open os;
     proc_status := proc_status os;
     proc_cmdline := f;
     process_iter := process_iter os;
     kill0 := kill0 os;
     ps_stat := ps_stat os;
     ps_stat_comm := ps_stat_comm os;
     ps_aux := ps_aux os;
     config_loadable := config_loadable os |}.

(** Seen through [psutil], the only way a command line is read: the
    process exists, is not a zombie, and its readable command line names
    no pipeline stage. *)
Definition observed_foreign (os : OS) (p : Z) : bool :=
  psutil_importable os
  && pid_exists os p
  && match proc_open os p, proc_status os p, proc_cmdline os p with
     | None, inr st, inr args =>
         negb (String.eqb st STATUS_ZOMBIE)
         && negb (has_pipeline_keyword (Text.join " " args))
     | _, _, _ => false
     end.


(** The row the forced-failed transition leaves behind. *)
Definition failed_row (row : PipelineRow) : PipelineRow :=
  {| last_run_timestamp := last_run_timestamp row;
     is_running := Some false;
     last_completion_timestamp := last_completion_timestamp row;
     process_pid := None |}.

(** *** Sample states used by the closed lemmas below *)

Module Sample.

(** A recorded run owned by pid 4242. *)
Definition row_running : PipelineRow :=
  {| last_run_timestamp := Some 1700000000000000;
     is_running := Some true;
     last_completion_timestamp := None;
     process_pid := Some 4242 |}.

Definition db_running : DB :=
  {| pipeline_status := Some row_running; posts_raw := []; users := [] |}.

Definition w_running : World := {| db := db_running; faults := [] |}.

(** A recorded run whose owner pid was never stored. *)
Definition row_no_pid : PipelineRow :=
  {| last_run_timestamp := Some 1700000000000000;
     is_running := Some true;
     last_completion_timestamp := None;
     process_pid := None |}.

Definition w_no_pid : World :=
  {| db := {| pipeline_status := Some row_no_pid;
              posts_raw := []; users := [] |};
     faults := [] |}.

Definition now : Z := 1700000600000000.

(** The line terminator of [ps] output. *)
Definition nl : string := String Text.LF EmptyString.

(** [psutil] is installed and pid 4242 is a login shell. *)
Definition os_foreign : OS :=
  {| psutil_importable := true;
     pid_exists := fun p => p =? 4242;
     proc_open := fun _ => None;
     proc_status := fun _ => inr "sleeping";
     proc_cmdline := fun _ => inr ["-bash"];
     process_iter :=
       [{| pi_pid := 4242; pi_cmdline := Some ["-bash"];
           pi_create_time := 1700000000 |}];
     kill0 := fun p => if p =? 4242 then None else Some ProcessLookupError;
     ps_stat := fun _ => Completed 0 "Ss";
     ps_stat_comm := fun _ => Completed 0 "Ss   bash";
     ps_aux := Completed 0 "";
     config_loadable := true |}.

(** [psutil] is installed and pid 4242 is the ingestion stage. *)
Definition os_alive : OS :=
  {| psutil_importable := true;
     pid_exists := fun p => p =? 4242;
     proc_open := fun _ => None;
     proc_status := fun _ => inr "running";
     proc_cmdline := fun _ => inr ["python"; "ingestor/ingest.py"];
     process_iter :=
       [{| pi_pid := 4242; pi_cmdline := Some ["python"; "ingestor/ingest.py"];
           pi_create_time := 1700000000 |}];
     kill0 := fun p => if p =? 4242 then None else Some ProcessLookupError;
     ps_stat := fun _ => Completed 0 "R";
     ps_stat_comm := fun _ => Completed 0 "R    python";
     ps_aux := Completed 0 "";
     config_loadable := true |}.

(** [psutil] is installed and no process has pid 4242. *)
Definition os_gone : OS :=
  {| psutil_importable := true;
     pid_exists := fun _ => false;
     proc_open := fun _ => Some NoSuchProcess;
     proc_status := fun _ => inl NoSuchProcess;
     proc_cmdline := fun _ => inl NoSuchProcess;
     process_iter := [];
     kill0 := fun _ => Some ProcessLookupError;
     ps_stat := fun _ => Completed 1 "";
     ps_stat_comm := fun _ => Completed 1 "";
     ps_aux := Completed 0 "";
     config_loadable := true |}.



(** No [psutil]; pid 4242 answers signal 0 and [ps] shows it sleeping. *)
Definition os_fallback : OS :=
  {| psutil_importable := false;
     pid_exists := fun _ => false;
     proc_open := fun _ => Some NoSuchProcess;
     proc_status := fun _ => inl NoSuchProcess;
     proc_cmdline := fun _ => inl NoSuchProcess;
     process_iter := [];
     kill0 := fun p => if p =? 4242 then None else Some ProcessLookupError;
     ps_stat := fun _ => Completed 0 ("Ss" ++ nl)%string;
     ps_stat_comm := fun _ => Completed 0 ("Ss   bash" ++ nl)%string;
     ps_aux := Completed 0 "";
     config_loadable := true |}.

End Sample.

(** The world after [n] status reads in a row. *)
Fixpoint reads (os : OS) (now : Z) (n : nat) (w : World) : World :=
  match n with
  | O => w
  | S k => reads os now k (world_of (Dashboard.get_pipeline_status os now w))
  end.

(** A storage fault among the next [n] storage operations. *)
Definition fault_within (n : nat) (w : World) : bool :=
  existsb (fun b => b) (firstn n (faults w)).

(** [triple P m Q]: from a world satisfying [P], the run of [m] ends with
    a result and a world satisfying [Q]. *)
Definition triple {A} (P : World -> Prop) (m : M A)
  (Q : exn + A -> World -> Prop) : Prop :=
  forall w, P w -> Q (result_of (m w)) (world_of (m w)).

(** The committed database is fixed to [d] throughout. *)
Definition db_is (d : DB) : World -> Prop := fun w => db w = d.

(** Two computations that differ at most in the events they emit. *)
Definition same_run {A} (m1 m2 : M A) : Prop :=
  forall w,
    result_of (m1 w) = result_of (m2 w) /\ world_of (m1 w) = world_of (m2 w).





(** *** Sample posts, users and feeds *)

Module SampleIngest.

Definition day : Z := 86400 * 1000000.

(** The time of the run. *)
Definition now : Z := 1700000000000000.

Definition post (i author st_title : string) (st : option string) (age : Z)
  : Post :=
  {| post_id := i;
     subreddit := "dating_advice";
     created_utc := now - age;
     title := st_title;
     body := "";
     img_text := None;
     link_flair_text := None;
     score := 3;
     num_comments := 1;
     url := ("https://reddit.com/r/dating_advice/comments/" ++ i)%string;
     author_id := Some author;
     status := st;
     priority_score := Some 8 |}.

(** Three posts created six days ago. *)
Definition old_open : Post := post "p1" "t2_u1" "First" (Some "open") (6 * day).
Definition old_selected : Post :=
  post "p2" "t2_u2" "Second" (Some "selected") (6 * day).
Definition old_null : Post := post "p3" "t2_u3" "Third" None (6 * day).

Definition w_old : World :=
  {| db := {| pipeline_status := None;
              posts_raw := [old_open; old_selected; old_null];
              users := [] |};
     faults := [] |}.

(** A redditor whose profile attributes are all readable. *)
Definition redditor (n full : string) (ck lk : Z) : Ingest.Redditor :=
  {| Ingest.name := n;
     Ingest.fullname := Some full;
     Ingest.a_created_utc := Ingest.Has 1600000000000000;
     Ingest.a_comment_karma := Ingest.Has ck;
     Ingest.a_link_karma := Ingest.Has lk;
     Ingest.a_has_verified_email := Ingest.Has (Some true) |}.

(** A fresh text submission, one hour old. *)
Definition submission (i : string) (a : Ingest.Redditor) (t : string)
  : Ingest.Submission :=
  {| Ingest.id := i;
     Ingest.s_created_utc := now - 3600 * 1000000;
     Ingest.author := Some a;
     Ingest.s_title := t;
     Ingest.selftext := "text";
     Ingest.display_name := "dating_advice";
     Ingest.post_hint := None;
     Ingest.s_url := ("https://www.reddit.com/r/dating_advice/comments/" ++ i)%string;
     Ingest.s_link_flair_text := None;
     Ingest.s_score := 1;
     Ingest.s_num_comments := 0;
     Ingest.permalink := ("/r/dating_advice/comments/" ++ i)%string |}.

Definition env_of (steps : list Ingest.feed_step) : Ingest.Env :=
  {| Ingest.reddit_configured := true;
     Ingest.subreddits := ["dating_advice"];
     Ingest.feed := fun _ => steps;
     Ingest.ocr := fun _ => Ingest.OcrFailure;
     Ingest.status_default := Some "open" |}.

(** Author u1, already known, with one stored post. *)
Definition alice : Ingest.Redditor := redditor "alice" "t2_u1" 100 7.

Definition alice_row : User :=
  {| user_id := "t2_u1"; username := "alice";
     user_created_utc := None; comment_karma := Some 5;
     link_karma := None; is_verified := Some false |}.

(** The stored post of u1 with a given status, two days old. *)
Definition alice_post (st : option string) : Post :=
  post "p0" "t2_u1" "Earlier question" st (2 * day).

Definition w_alice (st : option string) : World :=
  {| db := {| pipeline_status := None;
              posts_raw := [alice_post st];
              users := [alice_row] |};
     faults := [] |}.

(** A new post by u1 with another title. *)
Definition alice_new : Ingest.Submission := submission "n1" alice "New question".

(** A second author, first seen in this run. *)
Definition bob : Ingest.Redditor := redditor "bob" "t2_u7" 1 1.
Definition bob_new : Ingest.Submission := submission "n2" bob "Hello".

(** A third author whose username is stored under another id (a row
    created from the constructed id [t2_carol]). *)
Definition carol : Ingest.Redditor := redditor "carol" "t2_u9" 1 1.
Definition carol_row : User :=
  {| user_id := "t2_carol"; username := "carol";
     user_created_utc := None; comment_karma := None;
     link_karma := None; is_verified := Some false |}.
Definition carol_new : Ingest.Submission := submission "n3" carol "Hi".

Definition w_carol : World :=
  {| db := {| pipeline_status := None; posts_raw := [];
              users := [carol_row] |};
     faults := [] |}.

End SampleIngest.

(** The claim of C8 as the spec words it: after an admission that counted
    the candidate, the stored row of an already known author holds, for
    each nullable profile field, the incoming value when there is one and
    the stored value otherwise. *)
Definition repeat_sighting_merges : Prop :=
  forall env sub t s a c cnt w c' cnt' k w' o stored,
    Ingest.process_submission env sub t s c cnt w
    = (inr (c', cnt', k), w', o) ->
    Ingest.author s = Some a ->
    In stored (users (view c w)) ->
    user_id stored = Ingest.author_id_of a ->
    Ingest.count cnt' = S (Ingest.count cnt) ->
    exists merged,
      In merged (users (view c' w'))
      /\ user_id merged = user_id stored
      /\ comment_karma merged
         = Ingest.coalesce (comment_karma (Ingest.user_data a))
                           (comment_karma stored)
      /\ link_karma merged
         = Ingest.coalesce (link_karma (Ingest.user_data a))
                           (link_karma stored).

(** [keeps d m]: [m] leaves the committed database [d] as it is, whether
    it returns or raises. *)
Definition keeps {A} (d : DB) (m : M A) : Prop :=
  triple (db_is d) m (fun _ w => db_is d w).

(** The events printed by the handlers of a failed user or item insert. *)
Definition is_insert_failure (m : Msg) : bool :=
  match m with
  | SkipUsernameConflict _ _ | ErrorInsertingUser _ _
  | ErrorInsertingPost _ _ _ => true
  | _ => false
  end.

Definition insert_failed (o : list Msg) : bool := existsb is_insert_failure o.

(** The claim of C4 as the spec words it: when a candidate was admitted
    and a later candidate of the same batch fails at an insert, the row of
    the earlier candidate is still what the batch will commit. *)
Definition per_item_isolation : Prop :=
  forall env sub t s1 s2 c cnt w c1 cnt1 w1 o1 c2 cnt2 k2 w2 o2 p,
    Ingest.process_submission env sub t s1 c cnt w
    = (inr (c1, cnt1, Ingest.Continue), w1, o1) ->
    Ingest.count cnt1 = S (Ingest.count cnt) ->
    In p (posts_raw (view c1 w1)) ->
    post_id p = Ingest.id s1 ->
    Ingest.process_submission env sub t s2 c1 cnt1 w1
    = (inr (c2, cnt2, k2), w2, o2) ->
    insert_failed o2 = true ->
    In p (posts_raw (view c2 w2)).

(** The feed of the sample batch: a post of a new author, then a post
    whose author's username is already stored under another id. *)
Definition batch_env : Ingest.Env :=
  SampleIngest.env_of [Ingest.Yield SampleIngest.bob_new;
                       Ingest.Yield SampleIngest.carol_new].

(* ===================================================================== *)
(** ** Further observations and sample states *)
(* ===================================================================== *)

(** [runs_to m w r w']: from [w] the computation [m] ends with result [r]
    in world [w'], whatever it prints. *)
Definition runs_to {A} (m : M A) (w : World) (r : exn + A) (w' : World)
  : Prop :=
  result_of (m w) = r /\ world_of (m w) = w'.

(** The orphan candidate is the process the row tracks. *)
Definition tracked_by (db_status : option PipelineRow) (proc : Health.Orphan)
  : bool :=
  match db_status with
  | Some row =>
      match process_pid row with
      | Some p => Health.o_pid proc =? p
      | None => false
      end
  | None => false
  end.

(** The run recorded in [row] has lasted more than two hours at [now]. *)
Definition over_two_hours (now : Z) (row : PipelineRow) : bool :=
  match is_running row, last_run_timestamp row with
  | Some true, Some last_run => Health.two_hours <? now - last_run
  | _, _ => false
  end.

(** The row is marked running with a usable owner pid, so the health check
    examines the owner. *)
Definition owner_examined (row : PipelineRow) : bool :=
  bool_truthy (is_running row) && pid_truthy (process_pid row).

(** The issue the long-run check adds, if any. *)
Definition stuck_issue (now : Z) (row : PipelineRow) : list Issue :=
  match is_running row, last_run_timestamp row with
  | Some true, Some last_run =>
      if Health.two_hours <? now - last_run
      then [PossiblyStuck (now - last_run)]
      else []
  | _, _ => []
  end.

(** The issues the orphan scan adds: one per pipeline process other than
    the tracked one. *)
Definition orphan_issues (db_status : option PipelineRow)
  (orphaned : list Health.Orphan) : list Issue :=
  map (fun proc => OrphanedProcess (Health.o_pid proc) (Health.o_cmdline proc))
      (filter (fun proc => negb (tracked_by db_status proc)) orphaned).

(** The write each [action] of [update_pipeline_status] asks for; an
    action other than the three known ones asks for none. *)
Definition action_effect (timestamp : Z) (action : string) (d : DB) : DB :=
  if String.eqb action "start" then Dashboard.upsert_start timestamp d
  else if String.eqb action "complete" then
    Dashboard.upsert_complete timestamp d
  else if String.eqb action "failed" then Dashboard.upsert_failed d
  else d.

(** Some stored item was created after [t]. *)
Definition has_post_newer (t : Z) (d : DB) : bool :=
  existsb (fun p => created_utc p >? t) (posts_raw d).

(** The status read takes the row's word for a running pipeline: the row
    is marked running and either has no usable pid or its owner passes the
    liveness check. *)
Definition believed_running (os : OS) (row : PipelineRow) : bool :=
  bool_truthy (is_running row)
  && (negb (pid_truthy (process_pid row))
      || Dashboard.is_process_running os (process_pid row)).

(** *** Further sample states *)

Module SampleRun.

(** The run of [Sample.row_running], with one item created a minute after
    its start. *)
Definition new_post : Post :=
  SampleIngest.post "p9" "t2_u9" "New" None (- 60000000).

Definition w_new_post : World :=
  {| db := {| pipeline_status := Some Sample.row_running;
              posts_raw := [new_post]; users := [] |};
     faults := [] |}.

(** A submission created four days before the run. *)
Definition stale : Ingest.Submission :=
  {| Ingest.id := "s4";
     Ingest.s_created_utc := SampleIngest.now - 4 * SampleIngest.day;
     Ingest.author := Some SampleIngest.alice;
     Ingest.s_title := "Four days ago";
     Ingest.selftext := "text";
     Ingest.display_name := "dating_advice";
     Ingest.post_hint := None;
     Ingest.s_url := "https://www.reddit.com/r/dating_advice/comments/s4";
     Ingest.s_link_flair_text := None;
     Ingest.s_score := 1;
     Ingest.s_num_comments := 0;
     Ingest.permalink := "/r/dating_advice/comments/s4" |}.

End SampleRun.

(** The running pipeline of [Sample.w_running] behind a storage that
    refuses the next connection. *)
Definition w_storage_down : World :=
  {| db := Sample.db_running; faults := [true] |}.

(** What a counted admission of candidate [s] of author [a] writes to the
    working copy [d] of its transaction: the author's stored item, if any,
    is deleted; the author is inserted when no row has the id; the
    candidate's row, with image text [img_text], is inserted. *)
Definition admission (env : Ingest.Env) (s : Ingest.Submission)
  (a : Ingest.Redditor) (img_text : option string) (d : DB) : exn + DB :=
  let author_id := Ingest.author_id_of a in
  let d1 := match Ingest.select_by_author author_id d with
            | Some existing => Ingest.delete_post (post_id existing) d
            | None => d
            end in
  match (if Ingest.user_exists author_id d1 then inr (d1, tt)
         else Ingest.upsert_user (Ingest.user_data a) d1) with
  | inl e => inl e
  | inr (d2, _) =>
      match Ingest.insert_post
              (Ingest.post_data env s author_id img_text) d2 with
      | inl e => inl e
      | inr (d3, _) => inr d3
      end
  end.

(** No author has more than one stored item. *)
Definition one_per_author (d : DB) : bool :=
  forallb (fun p =>
             match author_id p with
             | Some a =>
                 (List.length (filter (Ingest.by_author a) (posts_raw d))
                  <=? 1)%nat
             | None => true
             end)
          (posts_raw d).

(** No two stored items share an id (the primary key that
    [ON CONFLICT (id)] relies on). *)
Fixpoint no_dup_ids (l : list Post) : bool :=
  match l with
  | [] => true
  | p :: rest =>
      negb (existsb (fun q => String.eqb (post_id q) (post_id p)) rest)
      && no_dup_ids rest
  end.

(** [Inv] survives every admission the feed loop can make: the candidate's
    id is not stored, and the author's stored item, if any, has none of
    the statuses the admission check keeps. *)
Definition preserved_by_admission (Inv : DB -> Prop) : Prop :=
  forall env s a img d d',
    Inv d ->
    Ingest.post_exists (Ingest.id s) d = false ->
    match Ingest.select_by_author (Ingest.author_id_of a) d with
    | Some existing =>
        Ingest.status_in (status existing) Ingest.admit_protected = false
    | None => True
    end ->
    admission env s a img d = inr d' ->
    Inv d'.

(** [Inv] holds of the committed database and of what connection [c]
    sees. *)
Definition holds_in (Inv : DB -> Prop) (c : Conn) : World -> Prop :=
  fun w => Inv (db w) /\ Inv (view c w).

(** The assertion after a step that returns a connection (first component
    of its result) or raises. *)
Definition holds_after {A} (Inv : DB -> Prop) (conn_of : A -> Conn)
  : exn + A -> World -> Prop :=
  fun r w =>
    match r with
    | inr a => holds_in Inv (conn_of a) w
    | inl _ => Inv (db w)
    end.

(* ===================================================================== *)
(** ** app/streamlit_app.py: the page's pipeline state, status changes of
       items, and the launch of the pipeline *)
(* ===================================================================== *)

Module Page.

(** Lines 981-988 of [main()]: the status, the completion check, and the
    status read again when the check says not complete. *)
Definition pipeline_state (os : OS) (now : Z) : M (StatusDict * bool) :=
  pipeline_status <- Dashboard.get_pipeline_status os now ;;
  pipeline_complete <- Dashboard.check_pipeline_completion os now ;;
  pipeline_status <-
    (if negb pipeline_complete then Dashboard.get_pipeline_status os now
     else ret pipeline_status) ;;
  ret (pipeline_status, pipeline_complete).

(** Lines 1005-1016: [pipeline_status['is_running'] and not
    pipeline_complete] disables the launch button. *)
Definition button_disabled (state : StatusDict * bool) : bool :=
  let '(pipeline_status, pipeline_complete) := state in
  sd_is_running pipeline_status && negb pipeline_complete.

(** The message returned by [update_post_status]. *)
Inductive StatusMessage : Type :=
| StatusUpdatedTo (new_status : string)
| ErrorUpdatingStatus (e : exn).

(** A row after [SET status = %s]. *)
Definition with_status (new_status : string) (p : Post) : Post :=
  {| post_id := post_id p;
     subreddit := subreddit p;
     created_utc := created_utc p;
     title := title p;
     body := body p;
     img_text := img_text p;
     link_flair_text := link_flair_text p;
     score := score p;
     num_comments := num_comments p;
     url := url p;
     author_id := author_id p;
     status := Some new_status;
     priority_score := priority_score p |}.

(** [UPDATE posts_raw SET status = %s WHERE url = %s]. *)
Definition set_status (new_status post_url : string) (d : DB) : DB :=
  {| pipeline_status := pipeline_status d;
     posts_raw :=
       map (fun p => if String.eqb (url p) post_url
                     then with_status new_status p else p)
           (posts_raw d);
     users := users d |}.

(** [invalidate_caches()]: the four [clear()] calls on Streamlit's memo
    of the read queries; the model reads the storage directly, so there is
    nothing to clear. *)
Definition invalidate_caches : M unit := ret tt.

(** [update_post_status(db_config, post_url, new_status)].  The handler
    rolls back and closes when the connection was made
    ([if 'conn' in locals():]); a rollback that fails raises out of the
    function. *)
Definition update_post_status (post_url new_status : string)
  : M (bool * StatusMessage) :=
  try_with_connection
    (fun conn =>
       '(conn, _) <- execute conn (update (set_status new_status post_url)) ;;
       conn <- commit conn ;;
       close conn ;;
       invalidate_caches ;;
       ret (true, StatusUpdatedTo new_status))
    (fun e conn =>
       match conn with
       | Some c =>
           c <- rollback c ;;
           close c ;;
           ret (false, ErrorUpdatingStatus e)
       | None => ret (false, ErrorUpdatingStatus e)
       end).

End Page.

Module Launch.

(** What the launch reads from its surroundings. *)
Record Launcher : Type := {
  script_exists : bool;       (* [os.path.exists(script_path)] *)
  chmod : option exn;         (* [os.chmod(script_path, 0o755)] raises *)
  popen : exn + Z;            (* [subprocess.Popen(...)]: the child's pid *)
  config_dict : option exn    (* [get_db_connection_dict()] raises; the
                                 dict it returns is never empty *)
}.

(** The prints and Streamlit notifications of the launch. *)
Inductive Notice : Type :=
| LookingForScript
| StErrorScriptNotFound
| StErrorRunningPipeline (e : exn)
| StoredPipelinePid (pid : Z)
| ErrorStoringPipelinePid (e : exn)
| ToastStarted
| ToastStatusUpdateFailed
| ToastFailedToStart.

(** The events of a launch: those of the functions it calls, and its
    own. *)
Definition Event : Type := (Msg + Notice)%type.

(** Computations of the launch: as [M], over the larger type of events. *)
Definition L (A : Type) : Type := World -> (exn + A) * World * list Event.

Definition ret {A} (a : A) : L A := fun w => (inr a, w, []).

Definition raise {A} (e : exn) : L A := fun w => (inl e, w, []).

Definition bind {A B} (m : L A) (k : A -> L B) : L B :=
  fun w =>
    match m w with
    | (inl e, w1, o1) => (inl e, w1, o1)
    | (inr a, w1, o1) =>
        match k a w1 with
        | (r, w2, o2) => (r, w2, o1 ++ o2)
        end
    end.

Definition try_catch {A} (m : L A) (h : exn -> L A) : L A :=
  fun w =>
    match m w with
    | (inl e, w1, o1) =>
        match h e w1 with
        | (r, w2, o2) => (r, w2, o1 ++ o2)
        end
    | (inr a, w1, o1) => (inr a, w1, o1)
    end.

Definition notify (n : Notice) : L unit := fun w => (inr tt, w, [inr n]).

(** A computation of the other programs, run inside a launch. *)
Definition core {A} (m : M A) : L A :=
  fun w =>
    match m w with
    | (r, w1, o) => (r, w1, map inl o)
    end.

Declare Scope launch_scope.
Delimit Scope launch_scope with launch.
Notation "x <- c1 ;; c2" := (bind c1 (fun x => c2))
  (at level 61, c1 at next level, right associativity) : launch_scope.
Notation "' pat <- c1 ;; c2" := (bind c1 (fun x => match x with pat => c2 end))
  (at level 61, pat pattern, c1 at next level, right associativity)
  : launch_scope.
Notation "c1 ;; c2" := (bind c1 (fun _ => c2))
  (at level 61, right associativity) : launch_scope.
Local Open Scope launch_scope.

Definition result_of {A} (r : (exn + A) * World * list Event) : exn + A :=
  fst (fst r).
Definition world_of {A} (r : (exn + A) * World * list Event) : World :=
  snd (fst r).

(** The row written by [INSERT INTO pipeline_status (id, process_pid)
    VALUES (1, %s) ON CONFLICT (id) DO UPDATE SET process_pid =
    EXCLUDED.process_pid]. *)
Definition upsert_pid (pid : Z) (d : DB) : DB :=
  set_pipeline_status
    (Some match pipeline_status d with
          | None =>
              {| last_run_timestamp := None; is_running := Some false;
                 last_completion_timestamp := None;
                 process_pid := Some pid |}
          | Some r =>
              {| last_run_timestamp := last_run_timestamp r;
                 is_running := is_running r;
                 last_completion_timestamp := last_completion_timestamp r;
                 process_pid := Some pid |}
          end) d.

(** [store_pipeline_pid(db_config, pid)]. *)
Definition store_pipeline_pid (pid : Z) : L unit :=
  try_catch
    (conn <- core get_db_connection ;;
     conn <- try_catch
               ('(c1, _) <- core (execute conn ddl) ;; ret c1)
               (fun _ => ret (abort conn)) ;;
     '(conn, _) <- core (execute conn (update (upsert_pid pid))) ;;
     _ <- core (commit conn) ;;
     notify (StoredPipelinePid pid))
    (fun e => notify (ErrorStoringPipelinePid e)).

(** [run_pipeline_script()]. *)
Definition run_pipeline_script (l : Launcher) : L bool :=
  try_catch
    (notify LookingForScript ;;
     if negb (script_exists l) then
       notify StErrorScriptNotFound ;; ret false
     else
       match chmod l with Some e => raise e | None => ret tt end ;;
       pid <- match popen l with inl e => raise e | inr pid => ret pid end ;;
       match config_dict l with Some e => raise e | None => ret tt end ;;
       store_pipeline_pid pid ;;
       ret true)
    (fun e => notify (StErrorRunningPipeline e) ;; ret false).

(** How a click on the launch button ends. *)
Inductive outcome : Type :=
| Started               (* toast, then [st.rerun()] *)
| StatusUpdateFailed    (* the pipeline runs, the start is not recorded *)
| NotStarted.

(** Lines 1018-1031 of [main()]: the handler of the launch button;
    [current_time] is the [time.time()] of the page load. *)
Definition on_click (l : Launcher) (current_time : Z) : L outcome :=
  started <- run_pipeline_script l ;;
  if started then
    updated <- core (Dashboard.update_pipeline_status current_time "start") ;;
    if updated then notify ToastStarted ;; ret Started
    else notify ToastStatusUpdateFailed ;; ret StatusUpdateFailed
  else notify ToastFailedToStart ;; ret NotStarted.

End Launch.

(** A launcher for which the script exists and every step before the pid
    store succeeds, the child having pid [pid]. *)
Definition launcher_ok (pid : Z) : Launch.Launcher :=
  {| Launch.script_exists := true;
     Launch.chmod := None;
     Launch.popen := inr pid;
     Launch.config_dict := None |}.

(** The steps of a launch before the pid store succeed. *)
Definition spawns (l : Launch.Launcher) (pid : Z) : bool :=
  Launch.script_exists l
  && match Launch.chmod l, Launch.popen l, Launch.config_dict l with
     | None, inr p, None => p =? pid
     | _, _, _ => false
     end.

(* ===================================================================== *)
(** ** config.py *)
(* ===================================================================== *)

Module Config.

(** A [str] read from the environment: its Unicode code points.  The
    value of a variable may hold any character, so the text operations of
    [get_subreddits] are written out over code points, with the whitespace
    of [str.strip()] in full. *)
Definition ustr : Type := list N.

(** The code points of an ASCII literal. *)
Fixpoint of_string (s : string) : ustr :=
  match s with
  | EmptyString => []
  | String c t => N_of_ascii c :: of_string t
  end.

(** [str.isspace] on one code point, the test [str.strip()] applies:
    U+0009..U+000D, U+001C..U+0020, U+0085, U+00A0, U+1680,
    U+2000..U+200A, U+2028, U+2029, U+202F, U+205F and U+3000. *)
Definition is_space (c : N) : bool :=
  ((9 <=? c) && (c <=? 13)
   || (28 <=? c) && (c <=? 32)
   || (c =? 133) || (c =? 160) || (c =? 5760)
   || (8192 <=? c) && (c <=? 8202)
   || (c =? 8232) || (c =? 8233) || (c =? 8239) || (c =? 8287)
   || (c =? 12288))%N.

(** Python truthiness of a [str]. *)
Definition truthy (s : ustr) : bool :=
  match s with
  | [] => false
  | _ :: _ => true
  end.

Fixpoint lstrip (s : ustr) : ustr :=
  match s with
  | [] => []
  | c :: t => if is_space c then lstrip t else s
  end.

Fixpoint rstrip (s : ustr) : ustr :=
  match s with
  | [] => []
  | c :: t =>
      let t' := rstrip t in
      if is_space c && negb (truthy t') then [] else c :: t'
  end.

(** [s.strip()]. *)
Definition strip (s : ustr) : ustr := rstrip (lstrip s).

(** [s.split(sep)] for a one-character separator: never the empty list. *)
Fixpoint split_on (sep : N) (s : ustr) : list ustr :=
  match s with
  | [] => [[]]
  | c :: t =>
      if (c =? sep)%N then [] :: split_on sep t
      else match split_on sep t with
           | h :: r => (c :: h) :: r
           | [] => [[c]]
           end
  end.

(** The comma, U+002C. *)
Definition comma : N := 44%N.

(** The list returned when [SUBREDDITS] is unset or empty. *)
Definition default_subreddits : list ustr :=
  map of_string
      ["Rizz"; "dating"; "relationships"; "Tinder"; "relationship_advice";
       "PickUpArtist"; "seduction"; "dating_advice"; "AskMenRelationships";
       "OnlineDating"; "datingoverthirty"; "bodylanguage";
       "datingadviceformen"; "pickup"; "Bumble"].

(** [get_subreddits()]; [subreddits] is the environment variable
    [SUBREDDITS], [None] when it is unset. *)
Definition get_subreddits (subreddits : option ustr) : list ustr :=
  let subreddits_env := match subreddits with Some v => v | None => [] end in
  if truthy subreddits_env then
    map strip
        (filter (fun sr => truthy (strip sr)) (split_on comma subreddits_env))
  else default_subreddits.

End Config.

(* ===================================================================== *)
(** ** Facts about the text primitives and the probes *)
(* ===================================================================== *)

(** The dashboard's three-way disjunction and the health check's [any]
    over the keyword list are the same test. *)
Lemma has_pipeline_keyword_unfold (cmdline : string) :
  has_pipeline_keyword cmdline
  = (Text.contains "run_daily_reddit_pipeline" cmdline
     || Text.contains "ingest.py" cmdline
     || Text.contains "run_gemini_analysis.py" cmdline).
Proof.
  unfold has_pipeline_keyword, pipeline_keywords. simpl.
  rewrite orb_false_r. now rewrite orb_assoc.
Qed.

Lemma not_found_not_running os p :
  observed_not_found os p = true ->
  Dashboard.is_process_running os (Some p) = false.
Proof.
  unfold observed_not_found, Dashboard.is_process_running. intros H.
  destruct (p =? 0); [reflexivity|].
  destruct (psutil_importable os).
  - destruct (pid_exists os p); [discriminate | reflexivity].
  - destruct (kill0 os p); [reflexivity | discriminate].
Qed.

Lemma zombie_not_running os p :
  observed_zombie os p = true ->
  Dashboard.is_process_running os (Some p) = false.
Proof.
  unfold observed_zombie, Dashboard.is_process_running. intros H.
  destruct (p =? 0); [reflexivity|].
  destruct (psutil_importable os).
  - destruct (pid_exists os p); [|reflexivity]. simpl in H.
    destruct (proc_open os p); [reflexivity|].
    destruct (proc_status os p) as [e|st]; [reflexivity|].
    now rewrite H.
  - destruct (kill0 os p); [reflexivity|].
    destruct (ps_stat os p) as [rc out| | |]; try discriminate.
    destruct rc as [|rc|rc]; try discriminate.
    simpl. now rewrite H.
Qed.

Lemma foreign_not_running os p :
  observed_foreign os p = true ->
  Dashboard.is_process_running os (Some p) = false.
Proof.
  unfold observed_foreign, Dashboard.is_process_running. intros H.
  destruct (p =? 0); [reflexivity|].
  destruct (psutil_importable os); [|discriminate].
  destruct (pid_exists os p); [|reflexivity]. simpl in H.
  destruct (proc_open os p); [reflexivity|].
  destruct (proc_status os p) as [e|st]; [reflexivity|].
  destruct (proc_cmdline os p) as [e|args]; [discriminate|].
  apply andb_prop in H. destruct H as [Hz Hk].
  apply negb_true_iff in Hz. apply negb_true_iff in Hk.
  rewrite Hz. rewrite has_pipeline_keyword_unfold in Hk. now rewrite Hk.
Qed.

Lemma foreign_health_verdict os p :
  p <> 0 ->
  observed_foreign os p = true ->
  exists cmdline,
    Health.is_pipeline_process_running os (Some p)
    = inr (false, PidNotPipeline p cmdline).
Proof.
  unfold observed_foreign, Health.is_pipeline_process_running. intros Hp H.
  apply Z.eqb_neq in Hp. rewrite Hp.
  destruct (psutil_importable os); [|discriminate].
  destruct (pid_exists os p); [|discriminate]. simpl in *.
  destruct (proc_open os p); [discriminate|].
  destruct (proc_status os p) as [e|st]; [discriminate|].
  destruct (proc_cmdline os p) as [e|args]; [discriminate|].
  apply andb_prop in H. destruct H as [Hz Hk].
  apply negb_true_iff in Hz. apply negb_true_iff in Hk.
  rewrite Hz, Hk. eauto.
Qed.

(* ===================================================================== *)
(** ** Status reads *)
(* ===================================================================== *)

(** A status read of a running row whose owner the liveness check rejects,
    with no storage fault: the row is rewritten, the read reports
    not-running and still carries the pid it read. *)
Lemma status_read_repairs os now w row p :
  faults w = [] ->
  pipeline_status (db w) = Some row ->
  is_running row = Some true ->
  process_pid row = Some p ->
  p <> 0 ->
  Dashboard.is_process_running os (Some p) = false ->
  Dashboard.get_pipeline_status os now w
  = (inr {| sd_last_run := Dashboard.timestamp_or_0 (last_run_timestamp row);
            sd_is_running := false;
            sd_last_completion :=
              Dashboard.timestamp_or_0 (last_completion_timestamp row);
            sd_process_pid := Some p |},
     {| db := set_pipeline_status (Some (failed_row row)) (db w);
        faults := [] |},
     [AutoFixingStaleState (Some p); StWarningAutoFixed (Some p)]).
Proof.
  intros Hf Hrow Hrun Hpid Hp Hdead.
  destruct w as [d fs]. simpl in *. subst fs.
  apply Z.eqb_neq in Hp.
  unfold Dashboard.get_pipeline_status, Dashboard.update_pipeline_status,
    try_catch, bind, get_db_connection, execute, commit, storage_fault,
    ret, print, query, update, ddl, view, abort. simpl.
  rewrite Hrow. simpl. rewrite Hrun, Hpid. simpl. rewrite Hp. simpl.
  rewrite Hdead. simpl.
  unfold Dashboard.upsert_failed, failed_row. simpl. rewrite Hrow.
  reflexivity.
Qed.

(** A status read of a row that is not marked running, with no storage
    fault, changes nothing and reports the row. *)
Lemma status_read_idle os now w row :
  faults w = [] ->
  pipeline_status (db w) = Some row ->
  bool_truthy (is_running row) = false ->
  Dashboard.get_pipeline_status os now w
  = (inr {| sd_last_run := Dashboard.timestamp_or_0 (last_run_timestamp row);
            sd_is_running := false;
            sd_last_completion :=
              Dashboard.timestamp_or_0 (last_completion_timestamp row);
            sd_process_pid := process_pid row |},
     w, []).
Proof.
  intros Hf Hrow Hrun.
  destruct w as [d fs]. simpl in *. subst fs.
  unfold Dashboard.get_pipeline_status,
    try_catch, bind, get_db_connection, execute, commit, storage_fault,
    ret, print, query, update, ddl, view, abort. simpl.
  rewrite Hrow. simpl. rewrite Hrun. simpl. rewrite Hrun.
  destruct d; reflexivity.
Qed.

(* ===================================================================== *)
(** ** Reconciliation on a status read *)
(* ===================================================================== *)

(** C2 (as stated) fails: pid 4242 exists, is not a zombie and runs a
    login shell, and one status read clears both the running flag and the
    owner pid. *)
Lemma foreign_process_is_repaired_example :
  observed_foreign Sample.os_foreign 4242 = true
  /\ pipeline_status (db Sample.w_running) = Some Sample.row_running
  /\ pipeline_status
       (db (world_of (Dashboard.get_pipeline_status
                        Sample.os_foreign Sample.now Sample.w_running)))
     = Some {| last_run_timestamp := Some 1700000000000000;
               is_running := Some false;
               last_completion_timestamp := None;
               process_pid := None |}
  /\ output_of (Dashboard.get_pipeline_status
                  Sample.os_foreign Sample.now Sample.w_running)
     = [AutoFixingStaleState (Some 4242); StWarningAutoFixed (Some 4242)].
Proof. vm_compute. repeat split. Qed.

(** C2 (amended): when [psutil] can be imported, a recorded owner whose
    process exists, is not a zombie and has a command line naming no
    pipeline stage is treated as not running by both checkers, and a
    status read (with working storage) performs the forced-failed
    transition: the running flag and the owner pid are cleared and the
    auto-fix is announced.  When [psutil] cannot be imported no checker
    reads the command line: on such a machine [os'] the verdict of either
    checker is the same whatever the command line [f] of the process is,
    so no process is ever told apart as foreign there. *)
Theorem foreign_process_forces_failed os now w row p os' f :
  psutil_importable os = true ->
  faults w = [] ->
  pipeline_status (db w) = Some row ->
  is_running row = Some true ->
  process_pid row = Some p ->
  p <> 0 ->
  observed_foreign os p = true ->
  psutil_importable os' = false ->
  (Dashboard.is_process_running os (Some p) = false
   /\ (exists cmdline,
         Health.is_pipeline_process_running os (Some p)
         = inr (false, PidNotPipeline p cmdline))
   /\ pipeline_status (db (world_of (Dashboard.get_pipeline_status os now w)))
      = Some (failed_row row)
   /\ output_of (Dashboard.get_pipeline_status os now w)
      = [AutoFixingStaleState (Some p); StWarningAutoFixed (Some p)])
  /\ Dashboard.is_process_running (with_cmdline os' f) (Some p)
     = Dashboard.is_process_running os' (Some p)
  /\ Health.is_pipeline_process_running (with_cmdline os' f) (Some p)
     = Health.is_pipeline_process_running os' (Some p).
Proof.
  intros _ Hf Hrow Hrun Hpid Hp Hobs Hno.
  pose proof (foreign_not_running os p Hobs) as Hdead.
  split.
  { split; [exact Hdead|].
    split; [now apply foreign_health_verdict|].
    rewrite (status_read_repairs os now w Hf Hrow Hrun Hpid Hp Hdead).
    split; reflexivity. }
  unfold Dashboard.is_process_running, Health.is_pipeline_process_running,
    with_cmdline.
  cbn [psutil_importable pid_exists proc_open proc_status proc_cmdline
       kill0 ps_stat ps_stat_comm].
  rewrite Hno. split; reflexivity.
Qed.

Lemma foreign_process_forces_failed_witness :
  (Dashboard.is_process_running Sample.os_foreign (Some 4242) = false
   /\ (exists cmdline,
         Health.is_pipeline_process_running Sample.os_foreign (Some 4242)
         = inr (false, PidNotPipeline 4242 cmdline))
   /\ pipeline_status
        (db (world_of (Dashboard.get_pipeline_status
                         Sample.os_foreign Sample.now Sample.w_running)))
      = Some (failed_row Sample.row_running)
   /\ output_of (Dashboard.get_pipeline_status
                   Sample.os_foreign Sample.now Sample.w_running)
      = [AutoFixingStaleState (Some 4242); StWarningAutoFixed (Some 4242)])
  /\ Dashboard.is_process_running
       (with_cmdline Sample.os_fallback (fun _ => inr ["-bash"]))
       (Some 4242)
     = Dashboard.is_process_running Sample.os_fallback (Some 4242)
  /\ Health.is_pipeline_process_running
       (with_cmdline Sample.os_fallback (fun _ => inr ["-bash"]))
       (Some 4242)
     = Health.is_pipeline_process_running Sample.os_fallback (Some 4242).
Proof.
  apply (@foreign_process_forces_failed
           Sample.os_foreign Sample.now Sample.w_running
           Sample.row_running 4242 Sample.os_fallback
           (fun _ => inr ["-bash"]));
    first [reflexivity | discriminate].
Defined.

(** C3 (as stated) fails twice over.  With the owner gone, the first read
    returns the pid it found and the second returns none, so the two
    results differ; and when the store write of the repair fails, the read
    still reports not-running while the persisted row keeps its running
    flag and pid. *)
Lemma stale_repair_results_differ_example :
  observed_not_found Sample.os_gone 4242 = true
  /\ (let r1 := Dashboard.get_pipeline_status
                  Sample.os_gone Sample.now Sample.w_running in
      let r2 := Dashboard.get_pipeline_status
                  Sample.os_gone Sample.now (world_of r1) in
      option_map sd_process_pid
        (match result_of r1 with inr d => Some d | inl _ => None end)
      = Some (Some 4242)
      /\ option_map sd_process_pid
           (match result_of r2 with inr d => Some d | inl _ => None end)
         = Some None
      /\ result_of r1 <> result_of r2)
  /\ (let w := {| db := Sample.db_running;
                  faults := [false; false; false; false; false; false;
                             false; true] |} in
      let r := Dashboard.get_pipeline_status Sample.os_gone Sample.now w in
      option_map sd_is_running
        (match result_of r with inr d => Some d | inl _ => None end)
      = Some false
      /\ pipeline_status (db (world_of r)) = Some Sample.row_running).
Proof.
  vm_compute. repeat split. intros H. discriminate H.
Qed.

(** C3 (amended): for a persisted running row whose owner pid is observed
    absent or zombie, one status read with working storage rewrites the row
    to not-running with no owner and reports not-running; any number of
    further reads leave the world as the first read left it, and each
    reports not-running with no owner pid. *)
Theorem stale_state_repair_idempotent os now w row p :
  faults w = [] ->
  pipeline_status (db w) = Some row ->
  is_running row = Some true ->
  process_pid row = Some p ->
  p <> 0 ->
  observed_not_found os p = true \/ observed_zombie os p = true ->
  let r1 := Dashboard.get_pipeline_status os now w in
  let r2 := Dashboard.get_pipeline_status os now (world_of r1) in
  pipeline_status (db (world_of r1)) = Some (failed_row row)
  /\ (exists d1, result_of r1 = inr d1 /\ sd_is_running d1 = false)
  /\ world_of r2 = world_of r1
  /\ (exists d2, result_of r2 = inr d2
                 /\ sd_is_running d2 = false /\ sd_process_pid d2 = None)
  /\ forall n, reads os now (S n) w = world_of r1.
Proof.
  intros Hf Hrow Hrun Hpid Hp Hobs r1 r2.
  assert (Hdead : Dashboard.is_process_running os (Some p) = false).
  { destruct Hobs as [H|H];
      [now apply not_found_not_running | now apply zombie_not_running]. }
  pose proof (status_read_repairs os now w Hf Hrow Hrun Hpid Hp Hdead) as E1.
  set (w1 := {| db := set_pipeline_status (Some (failed_row row)) (db w);
                faults := [] |}) in *.
  assert (E2 : Dashboard.get_pipeline_status os now w1
               = (inr {| sd_last_run :=
                           Dashboard.timestamp_or_0 (last_run_timestamp row);
                         sd_is_running := false;
                         sd_last_completion :=
                           Dashboard.timestamp_or_0
                             (last_completion_timestamp row);
                         sd_process_pid := None |}, w1, [])).
  { apply (@status_read_idle os now w1 (failed_row row)); reflexivity. }
  assert (Hw1 : world_of r1 = w1) by (subst r1; now rewrite E1).
  repeat split.
  - subst r1. now rewrite E1.
  - subst r1. rewrite E1. eexists. split; reflexivity.
  - subst r2. rewrite Hw1. now rewrite E2.
  - subst r2. rewrite Hw1, E2. eexists. repeat split; reflexivity.
  - intros n. simpl. fold r1. rewrite Hw1. clear - E2.
    induction n as [|n IH]; [reflexivity|].
    simpl. rewrite E2. exact IH.
Qed.

Lemma stale_state_repair_idempotent_witness :
  let r1 := Dashboard.get_pipeline_status
              Sample.os_gone Sample.now Sample.w_running in
  let r2 := Dashboard.get_pipeline_status
              Sample.os_gone Sample.now (world_of r1) in
  pipeline_status (db (world_of r1)) = Some (failed_row Sample.row_running)
  /\ (exists d1, result_of r1 = inr d1 /\ sd_is_running d1 = false)
  /\ world_of r2 = world_of r1
  /\ (exists d2, result_of r2 = inr d2
                 /\ sd_is_running d2 = false /\ sd_process_pid d2 = None)
  /\ forall n, reads Sample.os_gone Sample.now (S n) Sample.w_running
               = world_of r1.
Proof.
  apply (@stale_state_repair_idempotent
           Sample.os_gone Sample.now Sample.w_running
           Sample.row_running 4242);
    first [reflexivity | discriminate | (left; reflexivity)].
Defined.

(* ===================================================================== *)
(** ** Storage failures during a status read *)
(* ===================================================================== *)

(** The seven storage operations of the read part of
    [get_pipeline_status]: connect, [CREATE TABLE], three [ALTER TABLE],
    [SELECT], commit.  A fault in any of them ends in the [except] branch:
    the default dict is returned and nothing is written. *)
Lemma status_read_fault os now w :
  fault_within 7 w = true ->
  result_of (Dashboard.get_pipeline_status os now w)
  = inr Dashboard.default_status
  /\ db (world_of (Dashboard.get_pipeline_status os now w)) = db w.
Proof.
  unfold fault_within. destruct w as [d fs]. simpl.
  do 7 (destruct fs as [|[|] fs]; simpl;
        [intros H; discriminate H | intros _; split; reflexivity | ]).
  intros H; discriminate H.
Qed.

(** C9: when a storage operation of the status read fails (the connect,
    one of the schema statements, the [SELECT] or the commit), the read
    returns the default dict, so it reports not-running whatever the
    persisted row and the process table say, and writes nothing; and the
    completion check, whether its own connect fails or the status read it
    makes does, reports complete. *)
Theorem storage_failure_reports_not_running os now w :
  fault_within 7 w = true ->
  (exists d,
     result_of (Dashboard.get_pipeline_status os now w) = inr d
     /\ sd_is_running d = false)
  /\ db (world_of (Dashboard.get_pipeline_status os now w)) = db w
  /\ forall connect_fails,
       result_of (Dashboard.check_pipeline_completion os now
                    {| db := db w; faults := connect_fails :: faults w |})
       = inr true.
Proof.
  intros H. destruct (status_read_fault os now w H) as [Hr Hd].
  split; [eexists; split; [exact Hr | reflexivity]|].
  split; [exact Hd|].
  intros [|].
  - reflexivity.
  - unfold Dashboard.check_pipeline_completion, try_catch, bind at 1.
    unfold get_db_connection, bind at 1. simpl.
    unfold bind at 1.
    replace {| db := db w; faults := faults w |} with w by (now destruct w).
    unfold result_of in Hr.
    destruct (Dashboard.get_pipeline_status os now w) as [[r w1] o1].
    simpl in Hr. subst r. reflexivity.
Qed.

(** The ingestion stage is alive under pid 4242 and recorded as running;
    the [SELECT] of the status read fails. *)
Lemma storage_failure_reports_not_running_witness :
  let w := {| db := Sample.db_running;
              faults := [false; false; false; false; false; true] |} in
  Dashboard.is_process_running Sample.os_alive (Some 4242) = true
  /\ (exists d,
        result_of (Dashboard.get_pipeline_status Sample.os_alive Sample.now w)
        = inr d
        /\ sd_is_running d = false)
  /\ db (world_of (Dashboard.get_pipeline_status Sample.os_alive Sample.now w))
     = db w
  /\ forall connect_fails,
       result_of (Dashboard.check_pipeline_completion Sample.os_alive Sample.now
                    {| db := db w; faults := connect_fails :: faults w |})
       = inr true.
Proof.
  split; [reflexivity|].
  apply (@storage_failure_reports_not_running Sample.os_alive Sample.now
           {| db := Sample.db_running;
              faults := [false; false; false; false; false; true] |}).
  reflexivity.
Defined.

(* ===================================================================== *)
(** ** A running row without an owner pid *)
(* ===================================================================== *)

(** Reporting orphans touches neither the store nor the fault script. *)
Lemma report_orphans_world verbose db_status orphaned issues_found w :
  world_of (Health.report_orphans verbose db_status orphaned issues_found w)
  = w
  /\ exists l,
       result_of (Health.report_orphans verbose db_status orphaned
                    issues_found w) = inr l.
Proof.
  revert issues_found.
  induction orphaned as [|proc rest IH]; intros issues_found; simpl.
  - split; [reflexivity | eexists; reflexivity].
  - destruct (match db_status with
              | Some row => match process_pid row with
                            | Some p => Health.o_pid proc =? p
                            | None => false
                            end
              | None => false
              end).
    + apply IH.
    + unfold bind, when_verbose.
      specialize (IH (issues_found
                      ++ [OrphanedProcess (Health.o_pid proc)
                                          (Health.o_cmdline proc)])).
      destruct IH as [IHw [l IHr]].
      unfold world_of, result_of in *.
      destruct (Health.report_orphans verbose db_status rest
                  (issues_found ++ [OrphanedProcess (Health.o_pid proc)
                                                    (Health.o_cmdline proc)])
                  w) as [[r w1] o1].
      simpl in *. subst. split; [reflexivity | eexists; reflexivity].
Qed.

(** A status read of a running row without owner pid writes nothing,
    whatever storage faults occur. *)
Lemma status_read_no_pid_db os now w row :
  pipeline_status (db w) = Some row ->
  is_running row = Some true ->
  process_pid row = None ->
  db (world_of (Dashboard.get_pipeline_status os now w)) = db w.
Proof.
  intros Hrow Hrun Hpid. destruct w as [d fs]. simpl in *.
  unfold Dashboard.get_pipeline_status,
    try_catch, bind, get_db_connection, execute, commit, storage_fault,
    ret, print, query, update, ddl, view, abort.
  do 7 (destruct fs as [|[|] fs]; simpl;
        [ rewrite ?Hrow; simpl; rewrite ?Hrun, ?Hpid; simpl; reflexivity
        | reflexivity | ]).
  rewrite ?Hrow; simpl; rewrite ?Hrun, ?Hpid; simpl; reflexivity.
Qed.

(** With no fault among its seven storage operations, the same read
    reports the pipeline as running. *)
Lemma status_read_no_pid_running os now w row :
  pipeline_status (db w) = Some row ->
  is_running row = Some true ->
  process_pid row = None ->
  fault_within 7 w = false ->
  exists o,
    Dashboard.get_pipeline_status os now w
    = (inr {| sd_last_run := Dashboard.timestamp_or_0 (last_run_timestamp row);
              sd_is_running := true;
              sd_last_completion :=
                Dashboard.timestamp_or_0 (last_completion_timestamp row);
              sd_process_pid := None |},
       {| db := db w; faults := skipn 7 (faults w) |}, o).
Proof.
  intros Hrow Hrun Hpid. destruct w as [d fs]. unfold fault_within.
  simpl in *.
  unfold Dashboard.get_pipeline_status,
    try_catch, bind, get_db_connection, execute, commit, storage_fault,
    ret, print, query, update, ddl, view, abort.
  do 7 (destruct fs as [|[|] fs]; simpl;
        [ intros _; rewrite ?Hrow; simpl; rewrite ?Hrun, ?Hpid; simpl;
          rewrite ?Hrun; eexists; reflexivity
        | intros H; discriminate H | ]).
  intros _; rewrite ?Hrow; simpl; rewrite ?Hrun, ?Hpid; simpl;
    rewrite ?Hrun; eexists; reflexivity.
Qed.

(* ===================================================================== *)
(** ** Reasoning about runs: pre- and postconditions *)
(* ===================================================================== *)

Lemma run_bind {A B} (m : M A) (k : A -> M B) w :
  result_of (bind m k w)
  = match result_of (m w) with
    | inl e => inl e
    | inr a => result_of (k a (world_of (m w)))
    end
  /\ world_of (bind m k w)
     = match result_of (m w) with
       | inl e => world_of (m w)
       | inr a => world_of (k a (world_of (m w)))
       end.
Proof.
  unfold bind, result_of, world_of.
  destruct (m w) as [[[e|a] w1] o1]; simpl; [split; reflexivity|].
  destruct (k a w1) as [[r w2] o2]; split; reflexivity.
Qed.

Lemma run_try {A} (m : M A) (h : exn -> M A) w :
  result_of (try_catch m h w)
  = match result_of (m w) with
    | inl e => result_of (h e (world_of (m w)))
    | inr a => inr a
    end
  /\ world_of (try_catch m h w)
     = match result_of (m w) with
       | inl e => world_of (h e (world_of (m w)))
       | inr a => world_of (m w)
       end.
Proof.
  unfold try_catch, result_of, world_of.
  destruct (m w) as [[[e|a] w1] o1]; simpl; [|split; reflexivity].
  destruct (h e w1) as [[r w2] o2]; split; reflexivity.
Qed.

Lemma triple_bind {A B} P (R : A -> World -> Prop) Q (m : M A) (k : A -> M B) :
  triple P m (fun r w => match r with
                         | inl e => Q (inl e) w
                         | inr a => R a w
                         end) ->
  (forall a, triple (R a) (k a) Q) ->
  triple P (bind m k) Q.
Proof.
  intros Hm Hk w Hw. destruct (run_bind m k w) as [Er Ew].
  rewrite Er, Ew. specialize (Hm w Hw).
  destruct (result_of (m w)) as [e|a]; [exact Hm|].
  now apply Hk.
Qed.

Lemma triple_try {A} P (R : exn -> World -> Prop) Q (m : M A) (h : exn -> M A) :
  triple P m (fun r w => match r with
                         | inl e => R e w
                         | inr a => Q (inr a) w
                         end) ->
  (forall e, triple (R e) (h e) Q) ->
  triple P (try_catch m h) Q.
Proof.
  intros Hm Hh w Hw. destruct (run_try m h w) as [Er Ew].
  rewrite Er, Ew. specialize (Hm w Hw).
  destruct (result_of (m w)) as [e|a]; [|exact Hm].
  now apply Hh.
Qed.

(** Sequencing and handlers, with the intermediate assertion taken from
    the triple of the first computation. *)
Lemma triple_seq {A B} P Qm Q (m : M A) (k : A -> M B) :
  triple P m Qm ->
  (forall e w, Qm (inl e) w -> Q (inl e) w) ->
  (forall a, triple (fun w => Qm (inr a) w) (k a) Q) ->
  triple P (bind m k) Q.
Proof.
  intros Hm He Hk. apply triple_bind with (R := fun a w => Qm (inr a) w).
  - intros w Hw. specialize (Hm w Hw).
    destruct (result_of (m w)); [now apply He | exact Hm].
  - exact Hk.
Qed.

Lemma triple_handle {A} P Qm Q (m : M A) (h : exn -> M A) :
  triple P m Qm ->
  (forall a w, Qm (inr a) w -> Q (inr a) w) ->
  (forall e, triple (fun w => Qm (inl e) w) (h e) Q) ->
  triple P (try_catch m h) Q.
Proof.
  intros Hm Ha Hh. apply triple_try with (R := fun e w => Qm (inl e) w).
  - intros w Hw. specialize (Hm w Hw).
    destruct (result_of (m w)); [exact Hm | now apply Ha].
  - exact Hh.
Qed.

Lemma triple_when_verbose (P : World -> Prop) verbose ms :
  triple P (when_verbose verbose ms) (fun r w => r = inr tt /\ P w).
Proof. intros w Hw. split; [reflexivity | exact Hw]. Qed.

Lemma triple_execute {A} d c (stmt : DB -> exn + (DB * A)) :
  triple (db_is d) (execute c stmt) (fun _ w => db_is d w).
Proof.
  intros [d0 fs] Hw. unfold execute, bind, storage_fault, raise, view, db_is in *.
  simpl in *. destruct (aborted c); [exact Hw|].
  destruct fs as [|[|] fs]; simpl; auto;
    destruct (stmt _) as [e|[d1 a]]; simpl; auto.
Qed.

(* ===================================================================== *)
(** ** Runs of the health check's steps *)
(* ===================================================================== *)

(** The status query of the health check returns the stored row, or
    [None] when storage fails; it writes nothing. *)
Lemma get_pipeline_status_from_db_run w :
  exists r fs o,
    Health.get_pipeline_status_from_db w
    = (inr r, {| db := db w; faults := fs |}, o)
    /\ (r = None \/ r = pipeline_status (db w)).
Proof.
  destruct w as [d fs].
  unfold Health.get_pipeline_status_from_db, try_catch, bind,
    get_db_connection, execute, storage_fault, ret, print, query, view.
  do 2 (destruct fs as [|[|] fs]; simpl;
        [ do 3 eexists; split; [reflexivity | now right]
        | do 3 eexists; split; [reflexivity | now left] | ]).
  do 3 eexists; split; [reflexivity | now right].
Qed.

Lemma check_runtime_run verbose now row issues_found w :
  exists l o,
    Health.check_runtime verbose now row issues_found w = (inr l, w, o)
    /\ (l = issues_found
        \/ exists i, l = issues_found ++ [i]).
Proof.
  unfold Health.check_runtime.
  destruct (is_running row) as [[|]|];
    try (do 2 eexists; split; [reflexivity | now left]).
  destruct (last_run_timestamp row) as [t|];
    try (do 2 eexists; split; [reflexivity | now left]).
  destruct (Health.two_hours <? now - t).
  - do 2 eexists. split; [reflexivity | right; eexists; reflexivity].
  - do 2 eexists; split; [reflexivity | now left].
Qed.

Lemma check_orphans_run verbose os db_status issues_found w :
  exists r o,
    Health.check_orphans verbose os db_status issues_found w = (r, w, o).
Proof.
  unfold Health.check_orphans, bind, when_verbose, Health.lift.
  destruct (Health.find_orphaned_pipeline_processes os) as [e|orphaned].
  - do 2 eexists; reflexivity.
  - unfold ret. destruct orphaned as [|proc rest].
    + do 2 eexists; reflexivity.
    + destruct (report_orphans_world verbose db_status (proc :: rest)
                  issues_found w) as [Hw _].
      unfold world_of in Hw.
      destruct (Health.report_orphans verbose db_status (proc :: rest)
                  issues_found w) as [[r w1] o1].
      simpl in Hw. subst w1. do 2 eexists; reflexivity.
Qed.

(** A row without a truthy owner pid is not examined. *)
Lemma check_tracked_process_skips verbose os row w :
  pid_truthy (process_pid row) = false ->
  Health.check_tracked_process verbose os row w = (inr ([], []), w, []).
Proof.
  intros H. unfold Health.check_tracked_process.
  rewrite H, andb_false_r. reflexivity.
Qed.

Lemma triple_get_pipeline_status_from_db d :
  triple (db_is d) Health.get_pipeline_status_from_db
         (fun r w => db_is d w
                     /\ (r = inr None \/ r = inr (pipeline_status d))).
Proof.
  intros w Hw. destruct (get_pipeline_status_from_db_run w)
    as (r & fs & o & E & Hr).
  unfold result_of, world_of, db_is in *. rewrite E. simpl. subst d.
  split; [reflexivity|]. destruct Hr as [-> | ->]; auto.
Qed.

Lemma triple_check_orphans (P : World -> Prop) verbose os db_status
  issues_found :
  triple P (Health.check_orphans verbose os db_status issues_found)
         (fun _ w => P w).
Proof.
  intros w Hw.
  destruct (check_orphans_run verbose os db_status issues_found w)
    as (r & o & E).
  unfold world_of. rewrite E. exact Hw.
Qed.

(** A health check of a row without owner pid never attempts the repair:
    nothing is written and no fix is recorded, whatever storage faults
    occur. *)
Lemma health_check_no_pid verbose os now w row :
  pipeline_status (db w) = Some row ->
  process_pid row = None ->
  db (world_of (Health.perform_health_check verbose os now w)) = db w
  /\ exists res,
       result_of (Health.perform_health_check verbose os now w) = inr res
       /\ fixes res = [].
Proof.
  intros Hrow Hpid.
  cut (triple (db_is (db w)) (Health.perform_health_check verbose os now)
         (fun r w' => db_is (db w) w'
                      /\ exists res, r = inr res /\ fixes res = [])).
  { intros T. exact (T w eq_refl). }
  set (d := db w) in *. clearbody d. clear w.
  unfold Health.perform_health_check.
  eapply triple_seq; [apply triple_when_verbose with (P := db_is d) | |].
  { intros e w [H _]. discriminate H. }
  intros u.
  apply triple_handle
    with (Qm := fun r w => db_is d w
                           /\ match r with
                              | inr res => fixes res = []
                              | inl _ => True
                              end).
  2:{ intros res w [Hw Hf]. split; [exact Hw | eauto]. }
  2:{ intros e w [Hw _]. split; [exact Hw | eexists; split; reflexivity]. }
  eapply triple_seq
    with (Qm := fun r w => db_is d w).
  { intros w [_ Hw]. unfold Health.load_config.
    destruct (config_loadable os); exact Hw. }
  { intros e w Hw. split; [exact Hw | exact I]. }
  intros u'.
  eapply triple_seq; [apply triple_get_pipeline_status_from_db | |].
  { intros e w [Hw _]. split; [exact Hw | exact I]. }
  intros db_status.
  eapply triple_seq
    with (Qm := fun r w => db_is d w
                           /\ match r with
                              | inr (_, fixes_applied) => fixes_applied = []
                              | inl _ => True
                              end).
  { destruct db_status as [row'|].
    - intros w [Hw [Hr|Hr]]; [discriminate Hr|].
      rewrite Hrow in Hr. injection Hr as ->.
      destruct (run_bind (when_verbose verbose [HcDatabaseStatus row])
                  (fun _ =>
                     '(issues_found, fixes_applied) <-
                        Health.check_tracked_process verbose os row ;;
                     issues_found <-
                        Health.check_runtime verbose now row issues_found ;;
                     ret (issues_found, fixes_applied)) w) as [Er Ew].
      rewrite Er, Ew. clear Er Ew. simpl.
      change (world_of (when_verbose verbose [HcDatabaseStatus row] w)) with w.
      unfold bind at 1 3.
      rewrite check_tracked_process_skips by (now rewrite Hpid).
      unfold bind.
      destruct (check_runtime_run verbose now row [] w) as (l & o & E & _).
      rewrite E. simpl. split; [exact Hw | reflexivity].
    - intros w [Hw _]. split; [exact Hw | reflexivity]. }
  { intros e w [Hw _]. split; [exact Hw | exact I]. }
  intros [issues_found fixes_applied].
  eapply triple_seq with (Qm := fun r w => db_is d w /\ fixes_applied = []).
  { intros w [Hw Hf].
    split; [|exact Hf].
    now apply (triple_check_orphans (db_is d) verbose os db_status
                 issues_found w). }
  { intros e w [Hw _]. split; [exact Hw | exact I]. }
  intros issues'. intros w [Hw Hf]. split; [exact Hw | exact Hf].
Qed.

(** C10: a persisted row with the running flag set and no owner pid is a
    fixed point of reconciliation.  Whatever the process table shows and
    whatever storage faults occur, a status read and a health check leave
    the database as it is, and so does any number of status reads; the
    health check records no fix; and the status read reports the pipeline
    as running (it reports not-running only when a storage fault makes the
    read itself fail). *)
Theorem running_without_pid_is_fixed_point os now verbose w row :
  pipeline_status (db w) = Some row ->
  is_running row = Some true ->
  process_pid row = None ->
  db (world_of (Dashboard.get_pipeline_status os now w)) = db w
  /\ (exists d,
        result_of (Dashboard.get_pipeline_status os now w) = inr d
        /\ sd_is_running d = negb (fault_within 7 w))
  /\ (forall n, db (reads os now n w) = db w)
  /\ db (world_of (Health.perform_health_check verbose os now w)) = db w
  /\ (exists res,
        result_of (Health.perform_health_check verbose os now w) = inr res
        /\ fixes res = []).
Proof.
  intros Hrow Hrun Hpid.
  split; [now apply status_read_no_pid_db with (row := row)|].
  split.
  { destruct (fault_within 7 w) eqn:Hf.
    - destruct (status_read_fault os now w Hf) as [Hr _].
      eexists. split; [exact Hr | reflexivity].
    - destruct (status_read_no_pid_running os now w Hrow Hrun Hpid Hf)
        as [o E].
      rewrite E. eexists. split; reflexivity. }
  split.
  { intros n. revert w Hrow. induction n as [|n IH]; intros w Hrow.
    - reflexivity.
    - simpl.
      pose proof (status_read_no_pid_db os now w Hrow Hrun Hpid) as Hd.
      rewrite IH; [exact Hd | now rewrite Hd]. }
  now apply health_check_no_pid with (row := row).
Qed.

Lemma running_without_pid_is_fixed_point_witness :
  db (world_of (Dashboard.get_pipeline_status
                  Sample.os_gone Sample.now Sample.w_no_pid))
  = db Sample.w_no_pid
  /\ (exists d,
        result_of (Dashboard.get_pipeline_status
                     Sample.os_gone Sample.now Sample.w_no_pid) = inr d
        /\ sd_is_running d = negb (fault_within 7 Sample.w_no_pid))
  /\ (forall n, db (reads Sample.os_gone Sample.now n Sample.w_no_pid)
                = db Sample.w_no_pid)
  /\ db (world_of (Health.perform_health_check
                     true Sample.os_gone Sample.now Sample.w_no_pid))
     = db Sample.w_no_pid
  /\ (exists res,
        result_of (Health.perform_health_check
                     true Sample.os_gone Sample.now Sample.w_no_pid) = inr res
        /\ fixes res = []).
Proof.
  apply (@running_without_pid_is_fixed_point
           Sample.os_gone Sample.now true Sample.w_no_pid Sample.row_no_pid);
    reflexivity.
Defined.

(* ===================================================================== *)
(** ** The health check's exit code *)
(* ===================================================================== *)

Lemma same_run_refl {A} (m : M A) : same_run m m.
Proof. intros w. split; reflexivity. Qed.

Lemma same_run_bind {A B} (m1 m2 : M A) (k1 k2 : A -> M B) :
  same_run m1 m2 ->
  (forall a, same_run (k1 a) (k2 a)) ->
  same_run (bind m1 k1) (bind m2 k2).
Proof.
  intros Hm Hk w. destruct (Hm w) as [Hr Hw].
  destruct (run_bind m1 k1 w) as [E1 E2].
  destruct (run_bind m2 k2 w) as [E3 E4].
  rewrite E1, E2, E3, E4, <- Hr, <- Hw.
  destruct (result_of (m1 w)) as [e|a]; [split; reflexivity|].
  apply Hk.
Qed.

Lemma same_run_try {A} (m1 m2 : M A) (h1 h2 : exn -> M A) :
  same_run m1 m2 ->
  (forall e, same_run (h1 e) (h2 e)) ->
  same_run (try_catch m1 h1) (try_catch m2 h2).
Proof.
  intros Hm Hh w. destruct (Hm w) as [Hr Hw].
  destruct (run_try m1 h1 w) as [E1 E2].
  destruct (run_try m2 h2 w) as [E3 E4].
  rewrite E1, E2, E3, E4, <- Hr, <- Hw.
  destruct (result_of (m1 w)) as [e|a]; [|split; reflexivity].
  apply Hh.
Qed.

Lemma same_run_when_verbose v1 v2 ms1 ms2 :
  same_run (when_verbose v1 ms1) (when_verbose v2 ms2).
Proof. intros w. split; reflexivity. Qed.

(** One step of a proof that two programs differing only in their
    [verbose] flag run alike. *)
Ltac same_run_step :=
  first
    [ apply same_run_when_verbose
    | apply same_run_refl
    | apply same_run_bind; [| intros ?]
    | apply same_run_try; [| intros ?] ].

Lemma same_run_report_orphans v1 v2 db_status orphaned issues_found :
  same_run (Health.report_orphans v1 db_status orphaned issues_found)
           (Health.report_orphans v2 db_status orphaned issues_found).
Proof.
  revert issues_found.
  induction orphaned as [|proc rest IH]; intros issues_found; simpl.
  - apply same_run_refl.
  - destruct (match db_status with
              | Some row => match process_pid row with
                            | Some p => Health.o_pid proc =? p
                            | None => false
                            end
              | None => false
              end); [apply IH|].
    apply same_run_bind; [apply same_run_when_verbose | intros _; apply IH].
Qed.

Lemma same_run_check_tracked_process v1 v2 os row :
  same_run (Health.check_tracked_process v1 os row)
           (Health.check_tracked_process v2 os row).
Proof.
  unfold Health.check_tracked_process.
  destruct (bool_truthy (is_running row) && pid_truthy (process_pid row));
    [|apply same_run_refl].
  apply same_run_bind; [apply same_run_refl|]. intros [running reason].
  destruct (negb running); [|repeat same_run_step].
  apply same_run_bind; [apply same_run_when_verbose | intros _].
  apply same_run_bind; [apply same_run_refl | intros fixed].
  destruct fixed; repeat same_run_step.
Qed.

Lemma same_run_check_runtime v1 v2 now row issues_found :
  same_run (Health.check_runtime v1 now row issues_found)
           (Health.check_runtime v2 now row issues_found).
Proof.
  unfold Health.check_runtime.
  destruct (is_running row) as [[|]|]; try apply same_run_refl.
  destruct (last_run_timestamp row) as [t|]; try apply same_run_refl.
  destruct (Health.two_hours <? now - t); repeat same_run_step.
Qed.

Lemma same_run_check_orphans v1 v2 os db_status issues_found :
  same_run (Health.check_orphans v1 os db_status issues_found)
           (Health.check_orphans v2 os db_status issues_found).
Proof.
  unfold Health.check_orphans.
  apply same_run_bind; [apply same_run_when_verbose | intros _].
  apply same_run_bind; [apply same_run_refl | intros orphaned].
  destruct orphaned; [repeat same_run_step|].
  apply same_run_report_orphans.
Qed.

(** The [verbose] flag changes only the events of a health check. *)
Lemma same_run_perform_health_check v1 v2 os now :
  same_run (Health.perform_health_check v1 os now)
           (Health.perform_health_check v2 os now).
Proof.
  unfold Health.perform_health_check.
  apply same_run_bind; [apply same_run_when_verbose | intros _].
  apply same_run_try; [|intros e; repeat same_run_step].
  apply same_run_bind; [apply same_run_refl | intros _].
  apply same_run_bind; [apply same_run_refl | intros db_status].
  apply same_run_bind.
  - destruct db_status as [row|]; [|repeat same_run_step].
    apply same_run_bind; [apply same_run_when_verbose | intros _].
    apply same_run_bind; [apply same_run_check_tracked_process|].
    intros [issues_found fixes_applied].
    apply same_run_bind; [apply same_run_check_runtime | intros ?].
    apply same_run_refl.
  - intros [issues_found fixes_applied].
    apply same_run_bind; [apply same_run_check_orphans | intros issues'].
    apply same_run_bind; [apply same_run_when_verbose | intros _].
    apply same_run_refl.
Qed.

(** A health check always returns a result, and the result is healthy
    exactly when its list of issues is empty. *)
Lemma perform_health_check_healthy verbose os now w :
  exists res,
    result_of (Health.perform_health_check verbose os now w) = inr res
    /\ healthy res = match issues res with [] => true | _ :: _ => false end.
Proof.
  cut (triple (fun _ => True) (Health.perform_health_check verbose os now)
         (fun r _ => exists res,
              r = inr res
              /\ healthy res
                 = match issues res with [] => true | _ :: _ => false end)).
  { intros T. exact (T w I). }
  unfold Health.perform_health_check.
  eapply triple_seq with (Qm := fun r _ => exists u, r = inr u).
  { intros w0 _. eexists; reflexivity. }
  { intros e w0 [u H]. discriminate H. }
  intros u.
  apply triple_handle
    with (Qm := fun r _ =>
                  match r with
                  | inr res =>
                      healthy res
                      = match issues res with [] => true | _ :: _ => false end
                  | inl _ => True
                  end).
  2:{ intros res w0 H. eauto. }
  2:{ intros e w0 _. eexists. split; reflexivity. }
  eapply triple_seq with (Qm := fun _ _ => True);
    [intros ? ?; exact I | intros; exact I | intros ?].
  eapply triple_seq with (Qm := fun _ _ => True);
    [intros ? ?; exact I | intros; exact I | intros db_status].
  eapply triple_seq with (Qm := fun _ _ => True);
    [intros ? ?; exact I | intros; exact I | intros [issues_found fixes_applied]].
  eapply triple_seq with (Qm := fun _ _ => True);
    [intros ? ?; exact I | intros; exact I | intros issues'].
  eapply triple_seq with (Qm := fun _ _ => True);
    [intros ? ?; exact I | intros; exact I | intros ?].
  intros w0 _. simpl. destruct issues'; reflexivity.
Qed.

(** Reporting orphans only appends to the issues. *)
Lemma report_orphans_appends verbose db_status orphaned issues_found w :
  exists extra,
    result_of (Health.report_orphans verbose db_status orphaned
                 issues_found w) = inr (issues_found ++ extra).
Proof.
  revert issues_found.
  induction orphaned as [|proc rest IH]; intros issues_found; simpl.
  - exists []. now rewrite app_nil_r.
  - destruct (match db_status with
              | Some row => match process_pid row with
                            | Some p => Health.o_pid proc =? p
                            | None => false
                            end
              | None => false
              end); [apply IH|].
    destruct (run_bind
                (when_verbose verbose
                   [HcWarn (OrphanedProcess (Health.o_pid proc)
                                            (Health.o_cmdline proc))])
                (fun _ =>
                   Health.report_orphans verbose db_status rest
                     (issues_found
                      ++ [OrphanedProcess (Health.o_pid proc)
                                          (Health.o_cmdline proc)])) w)
      as [E _].
    rewrite E. simpl.
    destruct (IH (issues_found
                  ++ [OrphanedProcess (Health.o_pid proc)
                                      (Health.o_cmdline proc)])) as [extra Hx].
    unfold when_verbose, world_of at 1. simpl. rewrite Hx.
    rewrite <- app_assoc. eexists; reflexivity.
Qed.

(** The orphan scan fails or returns the issues it was given, extended. *)
Lemma check_orphans_appends verbose os db_status issues_found w :
  (exists e,
     result_of (Health.check_orphans verbose os db_status issues_found w)
     = inl e)
  \/ (exists extra,
        result_of (Health.check_orphans verbose os db_status issues_found w)
        = inr (issues_found ++ extra)).
Proof.
  unfold Health.check_orphans, Health.lift.
  destruct (Health.find_orphaned_pipeline_processes os) as [e|orphaned].
  - left. eexists; reflexivity.
  - right. destruct orphaned as [|proc rest].
    + exists []. rewrite app_nil_r. reflexivity.
    + destruct (report_orphans_appends verbose db_status (proc :: rest)
                  issues_found w) as [extra Hx].
      exists extra.
      cbv beta iota delta [bind when_verbose ret result_of fst] in *.
      destruct (Health.report_orphans verbose db_status (proc :: rest)
                  issues_found w) as [[r w1] o1].
      exact Hx.
Qed.

(** Every fix a health check records comes with the issue it repaired. *)
Lemma perform_health_check_fix_has_issue verbose os now w :
  exists res,
    result_of (Health.perform_health_check verbose os now w) = inr res
    /\ (fixes res = [] \/ issues res <> []).
Proof.
  cut (triple (fun _ => True) (Health.perform_health_check verbose os now)
         (fun r _ => exists res,
              r = inr res /\ (fixes res = [] \/ issues res <> []))).
  { intros T. exact (T w I). }
  unfold Health.perform_health_check.
  eapply triple_seq with (Qm := fun r _ => exists u, r = inr u).
  { intros w0 _. eexists; reflexivity. }
  { intros e w0 [u H]. discriminate H. }
  intros u.
  apply triple_handle
    with (Qm := fun r _ =>
                  match r with
                  | inr res => fixes res = [] \/ issues res <> []
                  | inl _ => True
                  end).
  2:{ intros res w0 H. eauto. }
  2:{ intros e w0 _. eexists. split; [reflexivity | now left]. }
  eapply triple_seq with (Qm := fun _ _ => True);
    [intros ? ?; exact I | intros; exact I | intros ?].
  eapply triple_seq with (Qm := fun _ _ => True);
    [intros ? ?; exact I | intros; exact I | intros db_status].
  eapply triple_seq
    with (Qm := fun r _ => match r with
                           | inr (i, f) => f = [] \/ i <> []
                           | inl _ => True
                           end).
  { destruct db_status as [row|]; [|intros w0 _; now left].
    eapply triple_seq with (Qm := fun _ _ => True);
      [intros ? ?; exact I | intros; exact I | intros ?].
    eapply triple_seq
      with (Qm := fun r _ => match r with
                             | inr (i, f) => f = [] \/ i <> []
                             | inl _ => True
                             end).
    { unfold Health.check_tracked_process.
      destruct (bool_truthy (is_running row) && pid_truthy (process_pid row));
        [|intros w0 _; now left].
      eapply triple_seq with (Qm := fun _ _ => True);
        [intros ? ?; exact I | intros; exact I | intros [running reason]].
      destruct (negb running); [|intros w0 _; now left].
      eapply triple_seq with (Qm := fun _ _ => True);
        [intros ? ?; exact I | intros; exact I | intros ?].
      eapply triple_seq with (Qm := fun _ _ => True);
        [intros ? ?; exact I | intros; exact I | intros fixed].
      destruct fixed; intros w0 _; simpl; [right; discriminate | now left]. }
    { intros; exact I. }
    intros [issues_found fixes_applied] w0 H.
    destruct (run_bind
                (Health.check_runtime verbose now row issues_found)
                (fun issues' => ret (issues', fixes_applied)) w0) as [E _].
    rewrite E. clear E.
    destruct (check_runtime_run verbose now row issues_found w0)
      as (l & o & E & Hl).
    unfold result_of at 1. rewrite E. simpl.
    destruct H as [H|H]; [now left | right].
    destruct Hl as [-> | [i ->]]; [exact H|].
    intros C. apply app_eq_nil in C. destruct C as [_ C]. discriminate C. }
  { intros; exact I. }
  intros [issues_found fixes_applied].
  eapply triple_seq
    with (Qm := fun r _ => match r with
                           | inr l => fixes_applied = [] \/ l <> []
                           | inl _ => True
                           end).
  { intros w0 H.
    destruct (check_orphans_appends verbose os db_status issues_found w0)
      as [[e Hx]|[extra Hx]]; rewrite Hx; [exact I|].
    destruct H as [H|H]; [now left | right].
    intros C. apply app_eq_nil in C. destruct C as [C _]. contradiction. }
  { intros; exact I. }
  intros issues'.
  eapply triple_seq with (Qm := fun _ _ => fixes_applied = [] \/ issues' <> []).
  { intros w0 H. exact H. }
  { intros; exact I. }
  intros ? w0 H. exact H.
Qed.

(** C5 (as stated) fails: the recorded owner is gone, the health check
    finds that one issue and repairs it (one issue, one fix, the row is
    rewritten), and the exit code is 1, with or without [--quiet]. *)
Lemma repaired_issue_exits_nonzero_example :
  result_of (Health.perform_health_check
               true Sample.os_gone Sample.now Sample.w_running)
  = inr {| healthy := false;
           issues := [MarkedRunningBut (PidDoesNotExist 4242)];
           fixes := [FixedStaleStatus (Some 4242)] |}
  /\ pipeline_status
       (db (world_of (Health.main false Sample.os_gone Sample.now
                        Sample.w_running)))
     = Some (failed_row Sample.row_running)
  /\ result_of (Health.main false Sample.os_gone Sample.now Sample.w_running)
     = inr 1
  /\ result_of (Health.main true Sample.os_gone Sample.now Sample.w_running)
     = inr 1.
Proof. vm_compute. repeat split. Qed.

(** C5 (amended): every run of the health-check CLI exits with 0 when the
    check found no issue and with 1 when it found any issue, repaired or
    not (or when the check itself failed): whenever a fix was applied the
    exit code is 1.  The quiet flag changes neither the exit code nor what
    is written to the store, only the events printed. *)
Theorem exit_code_reflects_issues_found quiet os now w :
  (exists res,
     result_of (Health.perform_health_check (negb quiet) os now w) = inr res
     /\ result_of (Health.main quiet os now w)
        = inr (match issues res with [] => 0 | _ :: _ => 1 end)
     /\ (fixes res = []
         \/ result_of (Health.main quiet os now w) = inr 1))
  /\ result_of (Health.main true os now w)
     = result_of (Health.main false os now w)
  /\ world_of (Health.main true os now w)
     = world_of (Health.main false os now w).
Proof.
  split.
  { destruct (perform_health_check_healthy (negb quiet) os now w)
      as [res [Hr Hh]].
    exists res. split; [exact Hr|].
    assert (E : result_of (Health.main quiet os now w)
                = inr (match issues res with [] => 0 | _ :: _ => 1 end)).
    { unfold Health.main. destruct (run_bind
        (Health.perform_health_check (negb quiet) os now)
        (fun result => ret (if healthy result then 0 else 1)) w) as [E _].
      rewrite E, Hr. simpl. rewrite Hh. destruct (issues res); reflexivity. }
    split; [exact E|].
    destruct (perform_health_check_fix_has_issue (negb quiet) os now w)
      as [res' [Hr' Hf]].
    rewrite Hr in Hr'. injection Hr' as <-.
    destruct Hf as [Hf|Hf]; [now left | right].
    rewrite E. destruct (issues res); [contradiction | reflexivity]. }
  assert (S : same_run (Health.main true os now) (Health.main false os now)).
  { unfold Health.main. apply same_run_bind;
      [apply same_run_perform_health_check | intros res; apply same_run_refl]. }
  destruct (S w) as [Hr Hw].
  split; [exact Hr | exact Hw].
Qed.

(* ===================================================================== *)
(** ** Liveness when the command line cannot be inspected *)
(* ===================================================================== *)




(* ===================================================================== *)
(** ** Reaping *)
(* ===================================================================== *)

Lemma filter_none_negb {A} (f : A -> bool) (l : list A) :
  List.length (filter f l) = 0%nat ->
  filter (fun x => negb (f x)) l = l.
Proof.
  induction l as [|x l IH]; simpl; [reflexivity|].
  destruct (f x); simpl; [discriminate|].
  intros H. now rewrite IH.
Qed.

(** The database a cleanup leaves: after [True] the old one without the
    reapable rows, in every other outcome the old one. *)
Lemma cleanup_old_posts_run now w :
  exists r fs o,
    Ingest.cleanup_old_posts now w
    = (r,
       {| db := match r with
                | inr true =>
                    Ingest.delete_reapable (now - Ingest.five_days) (db w)
                | _ => db w
                end;
          faults := fs |}, o).
Proof.
  destruct w as [d fs].
  assert (Hz : Ingest.count_reapable (now - Ingest.five_days) d = 0%nat ->
               Ingest.delete_reapable (now - Ingest.five_days) d = d).
  { unfold Ingest.count_reapable, Ingest.delete_reapable. intros H.
    rewrite (filter_none_negb _ _ H). now destruct d. }
  unfold Ingest.cleanup_old_posts, try_with_connection, try_catch, bind,
    get_db_connection, rollback, execute, commit, storage_fault, ret, print,
    query, update, view.
  destruct (Ingest.count_reapable (now - Ingest.five_days) d) eqn:E;
    do 5 (try (destruct fs as [|[|] fs])); simpl; rewrite ?E; simpl;
    first [ exists (inr true); rewrite ?(Hz eq_refl);
            do 2 eexists; reflexivity
          | exists (inr false); do 2 eexists; reflexivity
          | exists (inl OperationalError); do 2 eexists; reflexivity ].
Qed.

(** The posts a successful cleanup leaves. *)
Lemma cleanup_old_posts_success now w :
  result_of (Ingest.cleanup_old_posts now w) = inr true ->
  posts_raw (db (world_of (Ingest.cleanup_old_posts now w)))
  = filter (fun p => negb (Ingest.reapable (now - Ingest.five_days) p))
           (posts_raw (db w)).
Proof.
  destruct (cleanup_old_posts_run now w) as (r & fs & o & E).
  unfold result_of, world_of. rewrite E. simpl.
  intros H. subst r. reflexivity.
Qed.

(** No cleanup, successful or not, deletes a row whose status is
    [selected], [answered], [sent] or [lead], whatever its age. *)
Lemma cleanup_keeps_protected now w p st :
  In p (posts_raw (db w)) ->
  status p = Some st ->
  Text.mem st Ingest.reap_protected = true ->
  In p (posts_raw (db (world_of (Ingest.cleanup_old_posts now w)))).
Proof.
  intros Hin Hst Hmem.
  destruct (cleanup_old_posts_run now w) as (r & fs & o & E).
  unfold world_of. rewrite E. simpl.
  destruct r as [e|[|]]; try exact Hin.
  simpl. apply filter_In. split; [exact Hin|].
  unfold Ingest.reapable. rewrite Hst, Hmem. simpl.
  now rewrite andb_false_r.
Qed.

(** C7: a reap that succeeds deletes an item older than the five-day
    window whose status is [open], deletes one of the same age whose
    status is null, and keeps one of the same age whose status is
    [selected]. *)
Theorem reap_five_day_window now w p_open p_selected p_null :
  In p_open (posts_raw (db w)) ->
  In p_selected (posts_raw (db w)) ->
  In p_null (posts_raw (db w)) ->
  created_utc p_open < now - Ingest.five_days ->
  created_utc p_selected = created_utc p_open ->
  created_utc p_null = created_utc p_open ->
  status p_open = Some "open" ->
  status p_selected = Some "selected" ->
  status p_null = None ->
  result_of (Ingest.cleanup_old_posts now w) = inr true ->
  let posts := posts_raw (db (world_of (Ingest.cleanup_old_posts now w))) in
  ~ In p_open posts /\ In p_selected posts /\ ~ In p_null posts.
Proof.
  intros Ho Hs Hn Hage Hage_s Hage_n So Ss Sn Hok posts.
  subst posts. rewrite (cleanup_old_posts_success now w Hok).
  apply Z.ltb_lt in Hage.
  repeat split.
  - intros H. apply filter_In in H. destruct H as [_ H].
    unfold Ingest.reapable in H. rewrite Hage, So in H. discriminate H.
  - apply filter_In. split; [exact Hs|].
    unfold Ingest.reapable. rewrite Ss. simpl. now rewrite andb_false_r.
  - intros H. apply filter_In in H. destruct H as [_ H].
    unfold Ingest.reapable in H. rewrite Hage_n, Hage, Sn in H. discriminate H.
Qed.

Lemma reap_five_day_window_witness :
  let posts :=
    posts_raw (db (world_of (Ingest.cleanup_old_posts
                               SampleIngest.now SampleIngest.w_old))) in
  created_utc SampleIngest.old_open = SampleIngest.now - 6 * SampleIngest.day
  /\ ~ In SampleIngest.old_open posts
  /\ In SampleIngest.old_selected posts
  /\ ~ In SampleIngest.old_null posts.
Proof.
  split; [reflexivity|].
  apply (@reap_five_day_window SampleIngest.now SampleIngest.w_old
           SampleIngest.old_open SampleIngest.old_selected
           SampleIngest.old_null);
    try reflexivity.
  - left; reflexivity.
  - right; left; reflexivity.
  - right; right; left; reflexivity.
Defined.

(* ===================================================================== *)
(** ** One admission *)
(* ===================================================================== *)

(** A statement either raises, leaving the committed database alone, or
    yields a connection whose working copy is the statement's result. *)
Lemma execute_run {A} c (stmt : DB -> exn + (DB * A)) w :
  (exists e w', execute c stmt w = (inl e, w', []) /\ db w' = db w)
  \/ (exists d a w',
        execute c stmt w
        = (inr ({| work := Some d; aborted := false |}, a), w', [])
        /\ stmt (view c w) = inr (d, a)
        /\ db w' = db w).
Proof.
  destruct w as [d0 fs]. unfold execute, bind, storage_fault, raise, view.
  simpl.
  destruct (aborted c); [left; do 2 eexists; split; reflexivity|].
  destruct fs as [|[|] fs]; simpl;
    try (left; do 2 eexists; split; reflexivity);
    (destruct (stmt match work c with Some d => d | None => d0 end)
       as [e|[d a]];
     [ left; do 2 eexists; split; reflexivity
     | right; do 3 eexists; repeat split ]).
Qed.

(** Reading the image text never fails and touches nothing. *)
Lemma image_text_run env s w :
  exists t o, Ingest.image_text env s w = (inr t, w, o).
Proof.
  unfold Ingest.image_text.
  destruct (match Ingest.post_hint s with
            | Some h => String.eqb h "image"
            | None => false
            end || Ingest.has_image_extension (Ingest.s_url s));
    [|do 2 eexists; reflexivity].
  unfold Ingest.extract_text_from_image, bind, print, ret.
  destruct (String.eqb (Ingest.s_url s) ""); [do 2 eexists; reflexivity|].
  destruct (negb (Ingest.has_image_extension (Ingest.s_url s)));
    [do 2 eexists; reflexivity|].
  destruct (Ingest.ocr env (Ingest.s_url s)) as [t| |]; simpl;
    try (do 2 eexists; reflexivity).
  destruct (String.eqb t ""); do 2 eexists; reflexivity.
Qed.

(** Expose the next statement of an unfolded run in hypothesis [H] and
    split on whether it raised. *)
Ltac exec_step H :=
  match type of H with
  | context [execute ?c ?s ?w0] =>
      let e := fresh "e" in
      let d := fresh "d" in
      let a := fresh "a" in
      let w1 := fresh "w" in
      let E := fresh "E" in
      let Hs := fresh "Hs" in
      let Hd := fresh "Hd" in
      destruct (execute_run c s w0)
        as [(e & w1 & E & Hd) | (d & a & w1 & E & Hs & Hd)];
      rewrite E in H; clear E; simpl in H
  end.

(** A rollback fails, or returns the fresh connection; either way the
    committed database stays. *)
Lemma rollback_run c w :
  exists w',
    db w' = db w
    /\ (rollback c w = (inl OperationalError, w', [])
        \/ rollback c w = (inr fresh_conn, w', [])).
Proof.
  destruct w as [d fs]. unfold rollback, bind, storage_fault, ret.
  destruct fs as [|[|] fs]; simpl; eexists;
    (split; [|first [left; reflexivity | right; reflexivity]]);
    reflexivity.
Qed.

(** Expose the next rollback of an unfolded run in hypothesis [H] and
    split on whether it raised. *)
Ltac rollback_step H :=
  match type of H with
  | context [rollback ?c ?w0] =>
      let w1 := fresh "w" in
      let E := fresh "E" in
      let Hr := fresh "Hr" in
      destruct (rollback_run c w0) as (w1 & Hr & [E | E]);
      rewrite E in H; clear E; simpl in H
  end.

Ltac image_step H :=
  match type of H with
  | context [Ingest.image_text ?env ?s ?w0] =>
      let t := fresh "t" in
      let o := fresh "o" in
      let E := fresh "E" in
      destruct (image_text_run env s w0) as (t & o & E);
      rewrite E in H; clear E; simpl in H
  end.

Lemma insert_post_users p d d' :
  Ingest.insert_post p d = inr (d', tt) -> users d' = users d.
Proof.
  unfold Ingest.insert_post.
  destruct (Ingest.post_exists (post_id p) d); [intros H; now injection H as <-|].
  destruct (Ingest.url_taken p d); [discriminate|].
  intros H. now injection H as <-.
Qed.

(** The insert step: either the row is added to the working copy and the
    count grows, or the connection is rolled back and the count stays. *)
Lemma insert_submission_run env s a c cnt w c' cnt' k w' o :
  Ingest.insert_submission env s a c cnt w = (inr (c', cnt', k), w', o) ->
  db w' = db w
  /\ k = Ingest.Continue
  /\ ((cnt' = Ingest.bump_count cnt
       /\ exists t d,
            Ingest.insert_post
              (Ingest.post_data env s (Ingest.author_id_of a) t) (view c w)
            = inr (d, tt)
            /\ c' = {| work := Some d; aborted := false |})
      \/ (cnt' = cnt /\ c' = fresh_conn
          /\ exists e,
               In (ErrorInsertingPost (Ingest.id s) (Ingest.name a) e) o)).
Proof.
  unfold Ingest.insert_submission. intros H.
  unfold bind, try_catch, ret, print in H.
  image_step H. exec_step H.
  - rollback_step H; [discriminate H|].
    injection H as <- <- <- <- <-. repeat split; [congruence|].
    right. repeat split. exists e. apply in_or_app. right. now left.
  - destruct a0. injection H as <- <- <- <- <-. repeat split; [exact Hd|].
    left. split; [reflexivity|]. eauto.
Qed.

(** The user step followed by the insert step.  When a row with the
    author's id exists no statement writes to [users]. *)
Lemma ensure_user_known env s a c cnt w c' cnt' k w' o :
  Ingest.ensure_user env s a c cnt w = (inr (c', cnt', k), w', o) ->
  Ingest.user_exists (Ingest.author_id_of a) (view c w) = true ->
  Ingest.count cnt' = S (Ingest.count cnt) ->
  users (view c' w') = users (view c w).
Proof.
  unfold Ingest.ensure_user. intros H Hex Hcount.
  unfold bind at 1 in H. exec_step H; [discriminate H|].
  unfold query in Hs. injection Hs as <- <-. rewrite Hex in H.
  destruct (Ingest.insert_submission env s a
              {| work := Some (view c w); aborted := false |} cnt w0)
    as [[[e|[[c2 cnt2] k2]] w2] o2] eqn:E; simpl in H; [discriminate H|].
  injection H as <- <- <- <- <-.
  apply insert_submission_run in E.
  destruct E as (_ & _ & [(_ & t & d & Hi & ->) | (-> & _)]).
  - simpl. apply insert_post_users in Hi. exact Hi.
  - exfalso. lia.
Qed.

(** Inversion of a run that returned normally. *)
Lemma bind_inr_inv {A B} (m : M A) (k : A -> M B) w b w' o :
  bind m k w = (inr b, w', o) ->
  exists a w1 o1 o2,
    m w = (inr a, w1, o1) /\ k a w1 = (inr b, w', o2) /\ o = o1 ++ o2.
Proof.
  unfold bind. destruct (m w) as [[[e|a] w1] o1]; [discriminate|].
  destruct (k a w1) as [[r w2] o2] eqn:E. intros H.
  injection H as -> <- <-. exists a, w1, o1, o2. auto.
Qed.

Lemma try_catch_inr_inv {A} (m : M A) (h : exn -> M A) w b w' o :
  try_catch m h w = (inr b, w', o) ->
  m w = (inr b, w', o)
  \/ exists e w1 o1 o2,
       m w = (inl e, w1, o1) /\ h e w1 = (inr b, w', o2) /\ o = o1 ++ o2.
Proof.
  unfold try_catch. destruct (m w) as [[[e|a] w1] o1].
  - destruct (h e w1) as [[r w2] o2] eqn:E. intros H.
    injection H as -> <- <-. right. exists e, w1, o1, o2. auto.
  - intros H. left. exact H.
Qed.

Lemma execute_inr_inv {A} c (stmt : DB -> exn + (DB * A)) w x w' o :
  execute c stmt w = (inr x, w', o) ->
  exists d a,
    x = ({| work := Some d; aborted := false |}, a)
    /\ stmt (view c w) = inr (d, a)
    /\ db w' = db w /\ o = [].
Proof.
  intros H.
  destruct (execute_run c stmt w)
    as [(e & w1 & E & Hd) | (d & a & w1 & E & Hs & Hd)];
    rewrite E in H; [discriminate H|].
  injection H as <- <- <-. exists d, a. auto.
Qed.

Lemma print_inv (m : Msg) w x w' o :
  print m w = (inr x, w', o) -> w' = w /\ o = [m].
Proof. unfold print. intros H. injection H as _ <- <-. auto. Qed.

Lemma ret_inv {A} (a : A) w x w' o :
  ret a w = (inr x, w', o) -> x = a /\ w' = w /\ o = [].
Proof. unfold ret. intros H. injection H as <- <- <-. auto. Qed.

(** [print m ;; ret x] as one step. *)
Lemma print_ret_inv {A} (m : Msg) (a : A) w x w' o :
  bind (print m) (fun _ => ret a) w = (inr x, w', o) ->
  x = a /\ w' = w /\ o = [m].
Proof. unfold bind, print, ret. simpl. intros H. injection H as <- <- <-. auto. Qed.

(** [conn.rollback()] followed by a return, when it did not raise. *)
Lemma rollback_ret_inv {A} c (f : Conn -> A) w x w' o :
  bind (rollback c) (fun conn => ret (f conn)) w = (inr x, w', o) ->
  x = f fresh_conn /\ db w' = db w /\ o = [].
Proof.
  intros H. apply bind_inr_inv in H.
  destruct H as (c1 & w1 & o1 & o2 & E & H & ->).
  apply ret_inv in H. destruct H as (-> & -> & ->).
  destruct (rollback_run c w) as (w2 & Hr & [E2 | E2]);
    rewrite E2 in E; [discriminate E|].
  injection E as <- <- <-. auto.
Qed.

(** C8 (as stated) fails: author u1 is stored with comment karma 5 and no
    link karma; a new post of u1 arrives with comment karma 100 and link
    karma 7; the post replaces the stored one and is counted, and the
    stored author row is exactly what it was. *)
Lemma known_author_not_merged_example :
  let r := Ingest.process_submission
             (SampleIngest.env_of []) "dating_advice"
             (SampleIngest.now - Ingest.three_days)
             SampleIngest.alice_new fresh_conn Ingest.zero_counters
             (SampleIngest.w_alice (Some "open")) in
  (exists c' w' o,
     r = (inr (c', {| Ingest.count := 1;
                      Ingest.skipped_existing_users := 0;
                      Ingest.replaced_posts := 1 |}, Ingest.Continue), w', o)
     /\ users (view c' w') = [SampleIngest.alice_row]
     /\ map post_id (posts_raw (view c' w')) = ["n1"])
  /\ comment_karma (Ingest.user_data SampleIngest.alice) = Some 100
  /\ link_karma (Ingest.user_data SampleIngest.alice) = Some 7
  /\ comment_karma SampleIngest.alice_row = Some 5
  /\ link_karma SampleIngest.alice_row = None
  /\ ~ repeat_sighting_merges.
Proof.
  split; [do 3 eexists; split; [vm_compute; reflexivity | split; reflexivity]|].
  repeat (split; [reflexivity|]).
  intros C.
  destruct (C (SampleIngest.env_of []) "dating_advice"
              (SampleIngest.now - Ingest.three_days)
              SampleIngest.alice_new SampleIngest.alice
              fresh_conn Ingest.zero_counters
              (SampleIngest.w_alice (Some "open"))
              _ _ _ _ _ SampleIngest.alice_row
              ltac:(vm_compute; reflexivity) eq_refl
              ltac:(left; reflexivity) eq_refl eq_refl)
    as (merged & Hin & _ & Hck & _).
  simpl in Hin. destruct Hin as [<-|[]]. discriminate Hck.
Qed.

(** C8 (amended): when a row with the author's id already exists in the
    authors store, an admission that inserts or replaces an item executes
    no statement on the authors table: the table, and with it every field
    of the author's row, null or not, is what it was before, and no
    incoming profile value reaches it. *)
Theorem known_author_not_upserted env sub t s a c cnt w c' cnt' k w' o :
  Ingest.process_submission env sub t s c cnt w
  = (inr (c', cnt', k), w', o) ->
  Ingest.author s = Some a ->
  Ingest.user_exists (Ingest.author_id_of a) (view c w) = true ->
  Ingest.count cnt' = S (Ingest.count cnt) ->
  users (view c' w') = users (view c w).
Proof.
  unfold Ingest.process_submission. intros H Ha Hex Hcount.
  destruct (Ingest.s_created_utc s <? t).
  { apply print_ret_inv in H. destruct H as (H & _ & _).
    injection H as -> -> ->. exfalso; lia. }
  apply bind_inr_inv in H. destruct H as ([c1 found] & w1 & o1 & o2 & E1 & H & ->).
  apply execute_inr_inv in E1. destruct E1 as (d1 & a1 & X & Hs & Hd1 & ->).
  injection X as -> ->. unfold query in Hs. injection Hs as <- <-.
  destruct (Ingest.post_exists (Ingest.id s) (view c w)).
  { apply print_ret_inv in H. destruct H as (H & _ & _).
    injection H as -> -> ->. exfalso; lia. }
  rewrite Ha in H.
  destruct (50 <? String.length (Ingest.author_id_of a))%nat.
  { apply print_ret_inv in H. destruct H as (H & _ & _).
    injection H as -> -> ->. exfalso; lia. }
  apply bind_inr_inv in H.
  destruct H as ([c2 existing_post] & w2 & o3 & o4 & E2 & H & ->).
  apply execute_inr_inv in E2. destruct E2 as (d2 & a2 & X & Hs & Hd2 & ->).
  injection X as -> ->. unfold query in Hs. cbn [view work] in Hs.
  injection Hs as <- <-. cbn [view work] in H.
  destruct (Ingest.select_by_author (Ingest.author_id_of a) (view c w))
    as [existing|].
  - destruct (Ingest.status_in (status existing) Ingest.admit_protected).
    { apply print_ret_inv in H. destruct H as (H & _ & _).
      injection H as -> -> ->. simpl in Hcount. exfalso; lia. }
    destruct (String.eqb (title existing) (Ingest.s_title s)
              && String.eqb (subreddit existing) (Ingest.display_name s)).
    { apply print_ret_inv in H. destruct H as (H & _ & _).
      injection H as -> -> ->. simpl in Hcount. exfalso; lia. }
    apply bind_inr_inv in H. destruct H as (u & w3 & o5 & o6 & Ep & H & ->).
    apply print_inv in Ep. destruct Ep as [-> ->].
    apply bind_inr_inv in H.
    destruct H as ([c3 u3] & w4 & o7 & o8 & E3 & H & ->).
    apply execute_inr_inv in E3. destruct E3 as (d3 & a3 & X & Hs & Hd3 & ->).
    injection X as -> ->. unfold update in Hs. cbn [view work] in Hs.
    injection Hs as <- <-.
    apply ensure_user_known in H; [exact H | exact Hex | exact Hcount].
  - apply ensure_user_known in H; [exact H | exact Hex | exact Hcount].
Qed.

Lemma known_author_not_upserted_witness :
  exists c' w' o,
    Ingest.process_submission
      (SampleIngest.env_of []) "dating_advice"
      (SampleIngest.now - Ingest.three_days)
      SampleIngest.alice_new fresh_conn Ingest.zero_counters
      (SampleIngest.w_alice (Some "open"))
    = (inr (c', {| Ingest.count := 1;
                   Ingest.skipped_existing_users := 0;
                   Ingest.replaced_posts := 1 |}, Ingest.Continue), w', o)
    /\ users (view c' w')
       = users (view fresh_conn (SampleIngest.w_alice (Some "open"))).
Proof.
  do 3 eexists. split; [vm_compute; reflexivity|].
  eapply (@known_author_not_upserted
            (SampleIngest.env_of []) "dating_advice"
            (SampleIngest.now - Ingest.three_days)
            SampleIngest.alice_new SampleIngest.alice
            fresh_conn Ingest.zero_counters
            (SampleIngest.w_alice (Some "open")));
    [vm_compute; reflexivity | reflexivity | reflexivity | reflexivity].
Defined.

(* ===================================================================== *)
(** ** One transaction per source batch *)
(* ===================================================================== *)

Lemma keeps_ret {A} d (a : A) : keeps d (ret a).
Proof. intros w Hw. exact Hw. Qed.

Lemma keeps_print d m : keeps d (print m).
Proof. intros w Hw. exact Hw. Qed.

Lemma keeps_execute {A} d c (stmt : DB -> exn + (DB * A)) :
  keeps d (execute c stmt).
Proof. apply triple_execute. Qed.

Lemma keeps_bind {A B} d (m : M A) (k : A -> M B) :
  keeps d m -> (forall a, keeps d (k a)) -> keeps d (bind m k).
Proof.
  intros Hm Hk. eapply triple_seq; [exact Hm | intros e w Hw; exact Hw | exact Hk].
Qed.

Lemma keeps_try {A} d (m : M A) (h : exn -> M A) :
  keeps d m -> (forall e, keeps d (h e)) -> keeps d (try_catch m h).
Proof.
  intros Hm Hh. eapply triple_handle; [exact Hm | intros a w Hw; exact Hw | exact Hh].
Qed.

Lemma keeps_image_text d env s : keeps d (Ingest.image_text env s).
Proof.
  intros w Hw. destruct (image_text_run env s w) as (t & o & E).
  unfold world_of. rewrite E. exact Hw.
Qed.

Lemma keeps_rollback d c : keeps d (rollback c).
Proof.
  intros w Hw. destruct (rollback_run c w) as (w1 & Hr & [E | E]);
    unfold world_of, db_is in *; rewrite E; simpl; congruence.
Qed.

(** Decompose a [keeps] goal along the structure of the program. *)
Ltac keeps_step :=
  first
    [ apply keeps_ret
    | apply keeps_print
    | apply keeps_execute
    | apply keeps_rollback
    | apply keeps_image_text
    | apply keeps_bind; [| intros ?]
    | apply keeps_try; [| intros ?]
    | match goal with
      | |- keeps _ (if ?b then _ else _) => destruct b
      | |- keeps _ (match ?x with _ => _ end) => destruct x
      | |- keeps _ (let (_, _) := ?x in _) => destruct x
      end ].

Lemma keeps_process_submission d env sub t s c cnt :
  keeps d (Ingest.process_submission env sub t s c cnt).
Proof.
  unfold Ingest.process_submission, Ingest.ensure_user,
    Ingest.insert_submission.
  repeat keeps_step.
Qed.

(** Nothing is committed while the feed loop of a subreddit runs. *)
Lemma keeps_run_feed d env sub t steps c cnt :
  keeps d (Ingest.run_feed env sub t steps c cnt).
Proof.
  revert c cnt. induction steps as [|[s|txt] rest IH]; intros c cnt; simpl.
  - apply keeps_ret.
  - apply keeps_bind; [apply keeps_process_submission|].
    intros [[c1 cnt1] [|]]; [apply IH | apply keeps_ret].
  - intros w Hw. exact Hw.
Qed.

Lemma image_text_no_failure env s w r w' o :
  Ingest.image_text env s w = (r, w', o) -> insert_failed o = false.
Proof.
  unfold Ingest.image_text.
  destruct (match Ingest.post_hint s with
            | Some h => String.eqb h "image"
            | None => false
            end || Ingest.has_image_extension (Ingest.s_url s));
    [|intros H; injection H as _ _ <-; reflexivity].
  unfold Ingest.extract_text_from_image, bind, print, ret.
  destruct (String.eqb (Ingest.s_url s) "");
    [intros H; injection H as _ _ <-; reflexivity|].
  destruct (negb (Ingest.has_image_extension (Ingest.s_url s)));
    [intros H; injection H as _ _ <-; reflexivity|].
  destruct (Ingest.ocr env (Ingest.s_url s)) as [txt| |]; simpl;
    try (intros H; injection H as _ _ <-; reflexivity).
  destruct (String.eqb txt ""); intros H; injection H as _ _ <-; reflexivity.
Qed.

(** The insert step, with the events it emits: a failure event appears
    exactly when the handler rolled the connection back. *)
Lemma insert_submission_failed env s a c cnt w c' cnt' k w' o :
  Ingest.insert_submission env s a c cnt w = (inr (c', cnt', k), w', o) ->
  k = Ingest.Continue
  /\ ((insert_failed o = false /\ cnt' = Ingest.bump_count cnt)
      \/ (insert_failed o = true /\ c' = fresh_conn /\ cnt' = cnt)).
Proof.
  unfold Ingest.insert_submission. intros H.
  apply bind_inr_inv in H. destruct H as (img & w1 & o1 & o2 & Ei & H & ->).
  apply image_text_no_failure in Ei.
  unfold insert_failed in *. rewrite existsb_app, Ei. simpl.
  apply try_catch_inr_inv in H.
  destruct H as [H | (e & w2 & o3 & o4 & Em & H & ->)].
  - apply bind_inr_inv in H.
    destruct H as ([c1 u] & w2 & o3 & o4 & E & H & ->).
    apply execute_inr_inv in E. destruct E as (d & x & _ & _ & _ & ->).
    apply ret_inv in H. destruct H as (H & _ & ->).
    injection H as -> -> ->. split; [reflexivity | left; split; reflexivity].
  - apply bind_inr_inv in H. destruct H as (u & w3 & o5 & o6 & Ep & H & ->).
    apply print_inv in Ep. destruct Ep as [-> ->].
    apply (rollback_ret_inv c (fun conn => (conn, cnt, Ingest.Continue)))
      in H.
    destruct H as (H & _ & ->).
    injection H as -> -> ->. split; [reflexivity|]. right.
    rewrite existsb_app. simpl. rewrite orb_true_r. repeat split.
Qed.

Lemma ensure_user_failed env s a c cnt w c' cnt' k w' o :
  Ingest.ensure_user env s a c cnt w = (inr (c', cnt', k), w', o) ->
  k = Ingest.Continue
  /\ ((insert_failed o = false /\ cnt' = Ingest.bump_count cnt)
      \/ (insert_failed o = true /\ c' = fresh_conn /\ cnt' = cnt)).
Proof.
  unfold Ingest.ensure_user. intros H.
  apply bind_inr_inv in H. destruct H as ([c1 found] & w1 & o1 & o2 & E & H & ->).
  apply execute_inr_inv in E. destruct E as (d & x & _ & _ & _ & ->).
  simpl. destruct found; [now apply insert_submission_failed in H|].
  destruct (Ingest.author_details a) as [details warned].
  apply bind_inr_inv in H. destruct H as (u & w2 & o3 & o4 & Ew & H & ->).
  assert (Hw : insert_failed o3 = false).
  { destruct warned.
    - apply print_inv in Ew. destruct Ew as [_ ->]. reflexivity.
    - apply ret_inv in Ew. destruct Ew as (_ & _ & ->). reflexivity. }
  unfold insert_failed in *. rewrite existsb_app, Hw. simpl.
  apply bind_inr_inv in H. destruct H as (r & w3 & o5 & o6 & Et & H & ->).
  rewrite existsb_app.
  apply try_catch_inr_inv in Et.
  destruct Et as [Et | (e & w4 & o7 & o8 & Em & Et & ->)].
  - apply bind_inr_inv in Et.
    destruct Et as ([c2 u2] & w4 & o7 & o8 & E & Et & ->).
    apply execute_inr_inv in E. destruct E as (d2 & x2 & _ & _ & _ & ->).
    apply ret_inv in Et. destruct Et as (-> & _ & ->). simpl.
    now apply insert_submission_failed in H.
  - apply bind_inr_inv in Et. destruct Et as (u2 & w5 & o9 & o10 & Ep & Et & ->).
    apply ret_inv in Et. destruct Et as (-> & _ & ->).
    apply (rollback_ret_inv _ (fun conn => (conn, cnt, Ingest.Continue)))
      in H.
    destruct H as (H & _ & ->).
    injection H as -> -> ->. split; [reflexivity|]. right.
    assert (Hp : existsb is_insert_failure o9 = true).
    { destruct (Text.contains "users_username_key" (exn_text e));
        apply print_inv in Ep; destruct Ep as [_ ->]; reflexivity. }
    rewrite !existsb_app, Hp. rewrite orb_true_r. repeat split.
Qed.

(** One iteration that ended in the handler of a failed insert: the
    connection was rolled back and the candidate was not counted. *)
Lemma process_submission_failed env sub t s c cnt w c' cnt' k w' o :
  Ingest.process_submission env sub t s c cnt w
  = (inr (c', cnt', k), w', o) ->
  insert_failed o = true ->
  c' = fresh_conn /\ k = Ingest.Continue
  /\ Ingest.count cnt' = Ingest.count cnt.
Proof.
  unfold Ingest.process_submission. intros H Hf.
  destruct (Ingest.s_created_utc s <? t).
  { apply print_ret_inv in H. destruct H as (_ & _ & ->). discriminate Hf. }
  apply bind_inr_inv in H. destruct H as ([c1 found] & w1 & o1 & o2 & E1 & H & ->).
  apply execute_inr_inv in E1. destruct E1 as (d1 & a1 & _ & _ & _ & ->).
  simpl in Hf.
  destruct found.
  { apply print_ret_inv in H. destruct H as (_ & _ & ->). discriminate Hf. }
  destruct (Ingest.author s) as [a|].
  2:{ apply print_ret_inv in H. destruct H as (_ & _ & ->). discriminate Hf. }
  destruct (50 <? String.length (Ingest.author_id_of a))%nat.
  { apply print_ret_inv in H. destruct H as (_ & _ & ->). discriminate Hf. }
  apply bind_inr_inv in H.
  destruct H as ([c2 existing_post] & w2 & o3 & o4 & E2 & H & ->).
  apply execute_inr_inv in E2. destruct E2 as (d2 & a2 & _ & _ & _ & ->).
  simpl in Hf.
  destruct existing_post as [existing|].
  - destruct (Ingest.status_in (status existing) Ingest.admit_protected).
    { apply print_ret_inv in H. destruct H as (_ & _ & ->). discriminate Hf. }
    destruct (String.eqb (title existing) (Ingest.s_title s)
              && String.eqb (subreddit existing) (Ingest.display_name s)).
    { apply print_ret_inv in H. destruct H as (_ & _ & ->). discriminate Hf. }
    apply bind_inr_inv in H. destruct H as (u & w3 & o5 & o6 & Ep & H & ->).
    apply print_inv in Ep. destruct Ep as [-> ->]. simpl in Hf.
    apply bind_inr_inv in H.
    destruct H as ([c3 u3] & w4 & o7 & o8 & E3 & H & ->).
    apply execute_inr_inv in E3. destruct E3 as (d3 & a3 & _ & _ & _ & ->).
    simpl in Hf.
    apply ensure_user_failed in H.
    destruct H as (-> & [(Hn & _) | (_ & -> & ->)]);
      [rewrite Hn in Hf; discriminate Hf | repeat split].
  - apply ensure_user_failed in H.
    destruct H as (-> & [(Hn & _) | (_ & -> & ->)]);
      [rewrite Hn in Hf; discriminate Hf | repeat split].
Qed.

(** C4: admissions are not isolated from one another, against the
    handlers' own comments ("Skip this entire post").  In a batch of two
    candidates the first is inserted and counted; the user insert of the
    second violates the unique username, and the handler's rollback, made
    on the connection the whole batch shares, discards the first
    candidate's uncommitted rows with it: after the run the store holds no
    post at all, while the summary still counts one fetched.  So a failed
    admission does not leave the earlier admissions of its batch in
    place. *)
Theorem failed_admit_discards_earlier_admissions :
  (let r := Ingest.ingest_with_reddit_api batch_env SampleIngest.now
              SampleIngest.w_carol in
   result_of r = inr true
   /\ posts_raw (db (world_of r)) = []
   /\ users (db (world_of r)) = [SampleIngest.carol_row]
   /\ output_of r
      = [UsingRedditApi; FetchingNewPosts "dating_advice";
         SkipUsernameConflict "carol" "n3";
         FinishedFetching 1 "dating_advice"])
  /\ ~ per_item_isolation.
Proof.
  split; [vm_compute; repeat split|].
  intros C.
  pose (t := SampleIngest.now - Ingest.three_days).
  pose (r1 := Ingest.process_submission batch_env "dating_advice" t
                SampleIngest.bob_new fresh_conn Ingest.zero_counters
                SampleIngest.w_carol).
  pose (c1 := fst (fst (match result_of r1 with
                        | inr x => x
                        | inl _ => (fresh_conn, Ingest.zero_counters,
                                    Ingest.Break)
                        end))).
  pose (cnt1 := Ingest.bump_count Ingest.zero_counters).
  pose (r2 := Ingest.process_submission batch_env "dating_advice" t
                SampleIngest.carol_new c1 cnt1 (world_of r1)).
  pose (p := Ingest.post_data batch_env SampleIngest.bob_new "t2_u7" None).
  specialize (C batch_env "dating_advice" t
                SampleIngest.bob_new SampleIngest.carol_new
                fresh_conn Ingest.zero_counters SampleIngest.w_carol
                c1 cnt1 (world_of r1) (output_of r1)
                fresh_conn cnt1 Ingest.Continue (world_of r2) (output_of r2) p).
  assert (H : In p (posts_raw (view fresh_conn (world_of r2)))).
  { apply C; try (vm_compute; reflexivity). left. vm_compute. reflexivity. }
  vm_compute in H. exact H.
Qed.

(** The mechanism in general: an iteration that ended in the handler of a
    failed user or item insert returns the fresh connection, so that what
    the rest of the batch sees is the committed database, without the
    uncommitted rows of any earlier candidate; the failing candidate is not
    counted and the loop continues; and while the feed loop runs nothing
    is committed. *)
Lemma failed_insert_falls_back_to_committed env sub t s c cnt w c' cnt' k w'
  o :
  Ingest.process_submission env sub t s c cnt w
  = (inr (c', cnt', k), w', o) ->
  insert_failed o = true ->
  c' = fresh_conn
  /\ view c' w' = db w
  /\ k = Ingest.Continue
  /\ Ingest.count cnt' = Ingest.count cnt
  /\ (forall steps c0 cnt0 w0,
        db (world_of (Ingest.run_feed env sub t steps c0 cnt0 w0)) = db w0).
Proof.
  intros H Hf.
  destruct (process_submission_failed _ _ _ _ _ _ _ H Hf) as (-> & -> & Hc).
  split; [reflexivity|].
  split.
  { pose proof (@keeps_process_submission (db w) env sub t s c cnt w eq_refl)
      as Hk.
    unfold db_is, world_of in Hk. rewrite H in Hk. exact Hk. }
  split; [reflexivity|]. split; [exact Hc|].
  intros steps c0 cnt0 w0.
  exact (@keeps_run_feed (db w0) env sub t steps c0 cnt0 w0 eq_refl).
Qed.

(* ===================================================================== *)
(** ** Protected statuses *)
(* ===================================================================== *)

(** A query on a usable connection with no fault pending. *)
Lemma execute_query_ok {A} c (f : DB -> A) w :
  faults w = [] ->
  aborted c = false ->
  execute c (query f) w
  = (inr ({| work := Some (view c w); aborted := false |}, f (view c w)),
     w, []).
Proof.
  intros Hf Hab. destruct w as [d fs]. simpl in Hf. subst fs.
  unfold execute. rewrite Hab. reflexivity.
Qed.

(** With working storage, a candidate that reaches the lookup of its
    author's stored item is skipped when that item's status is [sent],
    [selected] or [answered]: nothing is written, the skip is counted and
    announced, and the loop continues. *)
Lemma protected_item_skipped env sub t s a c cnt w existing :
  faults w = [] ->
  aborted c = false ->
  (Ingest.s_created_utc s <? t) = false ->
  Ingest.post_exists (Ingest.id s) (view c w) = false ->
  Ingest.author s = Some a ->
  (50 <? String.length (Ingest.author_id_of a))%nat = false ->
  Ingest.select_by_author (Ingest.author_id_of a) (view c w) = Some existing ->
  Ingest.status_in (status existing) Ingest.admit_protected = true ->
  Ingest.process_submission env sub t s c cnt w
  = (inr ({| work := Some (view c w); aborted := false |},
          Ingest.bump_skipped cnt, Ingest.Continue),
     w,
     [SkipProtected (Ingest.name a) (status existing) (post_id existing)
                    (Ingest.id s)]).
Proof.
  intros Hf Hab Hage Hex Ha Hlen Hsel Hst.
  unfold Ingest.process_submission. rewrite Hage.
  unfold bind at 1. rewrite (execute_query_ok c _ w Hf Hab).
  rewrite Hex, Ha, Hlen.
  unfold bind at 1. rewrite execute_query_ok by (exact Hf || reflexivity).
  cbn [view work]. rewrite Hsel, Hst. reflexivity.
Qed.

(** C1: the admission check keeps [sent], [selected] and [answered] but
    not [lead], which the reaper does keep.  Author u1 has a stored item
    with status [lead]; a new post of u1 with another title arrives; the
    run deletes the stored item and inserts the new one. *)
Theorem lead_item_replaced_on_admit :
  let w := SampleIngest.w_alice (Some "lead") in
  let r := Ingest.ingest_with_reddit_api
             (SampleIngest.env_of [Ingest.Yield SampleIngest.alice_new])
             SampleIngest.now w in
  Text.mem "lead" Ingest.reap_protected = true
  /\ Text.mem "lead" Ingest.admit_protected = false
  /\ posts_raw (db w) = [SampleIngest.alice_post (Some "lead")]
  /\ result_of r = inr true
  /\ map post_id (posts_raw (db (world_of r))) = ["n1"]
  /\ ~ In (SampleIngest.alice_post (Some "lead")) (posts_raw (db (world_of r)))
  /\ output_of r
     = [UsingRedditApi; FetchingNewPosts "dating_advice";
        ReplacingPost "p0" (Some "lead") "alice" "n1";
        FinishedFetching 1 "dating_advice"; ReplacedSummary 1].
Proof.
  vm_compute. repeat split. intros [H|[]]. discriminate H.
Qed.

Lemma insert_post_keeps p d d' q :
  Ingest.insert_post p d = inr (d', tt) ->
  In q (posts_raw d) -> In q (posts_raw d').
Proof.
  unfold Ingest.insert_post.
  destruct (Ingest.post_exists (post_id p) d);
    [intros H; now injection H as <-|].
  destruct (Ingest.url_taken p d); [discriminate|].
  intros H Hq. injection H as <-. simpl. apply in_or_app. now left.
Qed.

Lemma upsert_user_posts u d d' :
  Ingest.upsert_user u d = inr (d', tt) -> posts_raw d' = posts_raw d.
Proof.
  unfold Ingest.upsert_user.
  destruct (Ingest.username_taken u d); [discriminate|].
  intros H. now injection H as <-.
Qed.

(** The insert step keeps every row the connection saw, unless it rolled
    back. *)
Lemma insert_submission_keeps env s a c cnt w c' cnt' k w' o q :
  Ingest.insert_submission env s a c cnt w = (inr (c', cnt', k), w', o) ->
  In q (posts_raw (view c w)) ->
  c' = fresh_conn \/ In q (posts_raw (view c' w')).
Proof.
  intros H Hq. apply insert_submission_run in H.
  destruct H as (_ & _ & [(_ & t & d & Hi & ->) | (_ & -> & _)]);
    [right | now left].
  simpl. eapply insert_post_keeps; [exact Hi | exact Hq].
Qed.

(** The user step and the insert step keep every row the connection saw,
    unless they rolled back. *)
Lemma ensure_user_keeps env s a c cnt w c' cnt' k w' o q :
  Ingest.ensure_user env s a c cnt w = (inr (c', cnt', k), w', o) ->
  In q (posts_raw (view c w)) ->
  c' = fresh_conn \/ In q (posts_raw (view c' w')).
Proof.
  unfold Ingest.ensure_user. intros H Hq.
  apply bind_inr_inv in H. destruct H as ([c1 found] & w1 & o1 & o2 & E & H & ->).
  apply execute_inr_inv in E. destruct E as (d & x & X & Hs & _ & ->).
  injection X as -> ->. unfold query in Hs. injection Hs as <- <-.
  destruct (Ingest.user_exists (Ingest.author_id_of a) (view c w)).
  { now apply insert_submission_keeps with (q := q) in H. }
  destruct (Ingest.author_details a) as [details warned].
  apply bind_inr_inv in H. destruct H as (u & w2 & o3 & o4 & _ & H & ->).
  apply bind_inr_inv in H. destruct H as (r & w3 & o5 & o6 & Et & H & ->).
  apply try_catch_inr_inv in Et.
  destruct Et as [Et | (e & w4 & o7 & o8 & Em & Et & ->)].
  - apply bind_inr_inv in Et.
    destruct Et as ([c2 u2] & w4 & o7 & o8 & E & Et & ->).
    apply execute_inr_inv in E. destruct E as (d2 & x2 & X & Hs & _ & ->).
    injection X as -> ->. cbn [view work] in Hs.
    destruct x2. apply upsert_user_posts in Hs.
    apply ret_inv in Et. destruct Et as (-> & _ & ->).
    apply insert_submission_keeps with (q := q) in H; [exact H|].
    cbn [view work]. now rewrite Hs.
  - apply bind_inr_inv in Et. destruct Et as (u2 & w5 & o9 & o10 & _ & Et & ->).
    apply ret_inv in Et. destruct Et as (-> & _ & ->).
    apply (rollback_ret_inv _ (fun conn => (conn, cnt, Ingest.Continue)))
      in H.
    destruct H as (H & _ & _).
    injection H as -> _ _. now left.
Qed.

(** What the admission check does protect: a stored row whose status is
    [sent], [selected] or [answered], and whose id no other row shares, is
    still there after any iteration of the feed loop that returns, in what
    the connection sees or, after a rollback, in the committed database it
    falls back to. *)
Lemma admit_keeps_listed_statuses env sub t s c cnt w c' cnt' k w' o p st :
  Ingest.process_submission env sub t s c cnt w
  = (inr (c', cnt', k), w', o) ->
  In p (posts_raw (view c w)) ->
  status p = Some st ->
  Text.mem st Ingest.admit_protected = true ->
  (forall q, In q (posts_raw (view c w)) -> post_id q = post_id p -> q = p) ->
  (c' = fresh_conn /\ db w' = db w) \/ In p (posts_raw (view c' w')).
Proof.
  unfold Ingest.process_submission. intros H Hp Hst Hmem Huniq.
  assert (Hdb : db w' = db w).
  { pose proof (@keeps_process_submission (db w) env sub t s c cnt w eq_refl)
      as Hk.
    unfold db_is, world_of, Ingest.process_submission in Hk.
    rewrite H in Hk. exact Hk. }
  destruct (Ingest.s_created_utc s <? t).
  { apply print_ret_inv in H. destruct H as (H & -> & _).
    injection H as -> _ _. now right. }
  apply bind_inr_inv in H. destruct H as ([c1 found] & w1 & o1 & o2 & E1 & H & ->).
  apply execute_inr_inv in E1. destruct E1 as (d1 & a1 & X & Hs & _ & ->).
  injection X as -> ->. unfold query in Hs. injection Hs as <- <-.
  destruct (Ingest.post_exists (Ingest.id s) (view c w)).
  { apply print_ret_inv in H. destruct H as (H & -> & _).
    injection H as -> _ _. now right. }
  destruct (Ingest.author s) as [a|].
  2:{ apply print_ret_inv in H. destruct H as (H & -> & _).
      injection H as -> _ _. now right. }
  destruct (50 <? String.length (Ingest.author_id_of a))%nat.
  { apply print_ret_inv in H. destruct H as (H & -> & _).
    injection H as -> _ _. now right. }
  apply bind_inr_inv in H.
  destruct H as ([c2 existing_post] & w2 & o3 & o4 & E2 & H & ->).
  apply execute_inr_inv in E2. destruct E2 as (d2 & a2 & X & Hs & _ & ->).
  injection X as -> ->. unfold query in Hs. cbn [view work] in Hs.
  injection Hs as <- <-. cbn [view work] in H.
  destruct (Ingest.select_by_author (Ingest.author_id_of a) (view c w))
    as [existing|] eqn:Hsel.
  - destruct (Ingest.status_in (status existing) Ingest.admit_protected)
      eqn:Hex.
    { apply print_ret_inv in H. destruct H as (H & -> & _).
      injection H as -> _ _. now right. }
    destruct (String.eqb (title existing) (Ingest.s_title s)
              && String.eqb (subreddit existing) (Ingest.display_name s)).
    { apply print_ret_inv in H. destruct H as (H & -> & _).
      injection H as -> _ _. now right. }
    apply bind_inr_inv in H. destruct H as (u & w3 & o5 & o6 & Ep & H & ->).
    apply print_inv in Ep. destruct Ep as [-> ->].
    apply bind_inr_inv in H.
    destruct H as ([c3 u3] & w4 & o7 & o8 & E3 & H & ->).
    apply execute_inr_inv in E3. destruct E3 as (d3 & a3 & X & Hs & _ & ->).
    injection X as -> ->. unfold update in Hs. cbn [view work] in Hs.
    injection Hs as <- <-.
    apply ensure_user_keeps with (q := p) in H.
    + destruct H as [-> | H]; [left; split; [reflexivity | exact Hdb] | now right].
    + cbn [view work]. unfold Ingest.delete_post. simpl.
      apply filter_In. split; [exact Hp|].
      apply negb_true_iff. apply String.eqb_neq. intros Heq.
      unfold Ingest.select_by_author in Hsel.
      apply find_some in Hsel. destruct Hsel as [Hin _].
      assert (existing = p) by (apply Huniq; [exact Hin | now symmetry]).
      subst existing. unfold Ingest.status_in in Hex.
      rewrite Hst, Hmem in Hex. discriminate Hex.
  - apply ensure_user_keeps with (q := p) in H; [|exact Hp].
    destruct H as [-> | H]; [left; split; [reflexivity | exact Hdb] | now right].
Qed.

(* ===================================================================== *)
(** ** The two liveness checkers side by side *)
(* ===================================================================== *)

(** X1: when [psutil] can be imported, the health check's checker and the
    dashboard's checker give the same verdict for every pid, [None] and 0
    included. *)
Theorem checkers_agree_with_psutil os pid :
  psutil_importable os = true ->
  exists reason,
    Health.is_pipeline_process_running os pid
    = inr (Dashboard.is_process_running os pid, reason).
Proof.
  intros Hps.
  unfold Health.is_pipeline_process_running, Dashboard.is_process_running.
  destruct pid as [p|]; [|eexists; reflexivity].
  destruct (p =? 0); [eexists; reflexivity|].
  rewrite Hps.
  destruct (pid_exists os p); simpl; [|eexists; reflexivity].
  destruct (proc_open os p); [eexists; reflexivity|].
  destruct (proc_status os p) as [e|st]; [eexists; reflexivity|].
  destruct (String.eqb st STATUS_ZOMBIE); [eexists; reflexivity|].
  destruct (proc_cmdline os p) as [e|args]; [eexists; reflexivity|].
  rewrite has_pipeline_keyword_unfold.
  destruct (Text.contains "run_daily_reddit_pipeline" (Text.join " " args)
            || Text.contains "ingest.py" (Text.join " " args)
            || Text.contains "run_gemini_analysis.py" (Text.join " " args));
    eexists; reflexivity.
Qed.

Lemma checkers_agree_with_psutil_witness :
  exists reason,
    Health.is_pipeline_process_running Sample.os_alive (Some 4242)
    = inr (Dashboard.is_process_running Sample.os_alive (Some 4242), reason).
Proof.
  apply (@checkers_agree_with_psutil Sample.os_alive (Some 4242)).
  reflexivity.
Defined.

(* ===================================================================== *)
(** ** What a health check writes *)
(* ===================================================================== *)

(** The repair of the health check always returns; it has written exactly
    when it returns [True]. *)
Lemma fix_stale_pipeline_status_run reason w :
  exists (b : bool) fs o,
    Health.fix_stale_pipeline_status reason w
    = (inr b,
       {| db := if b then Health.clear_running (db w) else db w;
          faults := fs |}, o).
Proof.
  destruct w as [d fs].
  unfold Health.fix_stale_pipeline_status, try_catch, bind,
    get_db_connection, execute, commit, storage_fault, ret, print, update,
    view.
  do 3 (destruct fs as [|[|] fs]; simpl;
        [ exists true; do 2 eexists; reflexivity
        | exists false; do 2 eexists; reflexivity | ]).
  exists true; do 2 eexists; reflexivity.
Qed.

(** The check of the tracked process: it records a fix exactly when the
    repair was committed. *)
Lemma check_tracked_process_writes d verbose os row :
  triple (db_is d) (Health.check_tracked_process verbose os row)
    (fun r w =>
       match r with
       | inr (_, []) => db_is d w
       | inr (_, [f]) =>
           f = FixedStaleStatus (process_pid row)
           /\ db_is (Health.clear_running d) w
       | inr (_, _ :: _ :: _) => False
       | inl _ => db_is d w
       end).
Proof.
  intros w Hw. unfold Health.check_tracked_process.
  destruct (bool_truthy (is_running row) && pid_truthy (process_pid row));
    [|exact Hw].
  unfold Health.lift.
  destruct (Health.is_pipeline_process_running os (process_pid row))
    as [e|[running reason]]; [exact Hw|].
  destruct running; [exact Hw|].
  destruct (fix_stale_pipeline_status_run reason w) as (b & fs & o & E).
  unfold result_of, world_of, bind, ret, when_verbose. simpl.
  rewrite E. unfold db_is in *.
  destruct b; simpl; [split; [reflexivity | now rewrite Hw] | exact Hw].
Qed.

(** X2: the only write a health check ever makes is clearing the running
    flag and the owner pid, and it never records a fix that was not
    committed: when the result lists a fix, the store holds the cleared
    row. *)
Theorem health_check_fix_is_committed verbose os now w :
  exists res,
    result_of (Health.perform_health_check verbose os now w) = inr res
    /\ (db (world_of (Health.perform_health_check verbose os now w)) = db w
        \/ db (world_of (Health.perform_health_check verbose os now w))
           = Health.clear_running (db w))
    /\ (fixes res = []
        \/ db (world_of (Health.perform_health_check verbose os now w))
           = Health.clear_running (db w)).
Proof.
  set (d := db w).
  cut (triple (db_is d) (Health.perform_health_check verbose os now)
         (fun r w' =>
            exists res,
              r = inr res
              /\ (db w' = d \/ db w' = Health.clear_running d)
              /\ (fixes res = [] \/ db w' = Health.clear_running d))).
  { intros T. exact (T w eq_refl). }
  clearbody d. clear w.
  unfold Health.perform_health_check.
  eapply triple_seq; [apply triple_when_verbose with (P := db_is d) | |].
  { intros e w [H _]. discriminate H. }
  intros u.
  apply triple_handle
    with (Qm := fun r w =>
                  (db w = d \/ db w = Health.clear_running d)
                  /\ match r with
                     | inr res =>
                         fixes res = [] \/ db w = Health.clear_running d
                     | inl _ => True
                     end).
  2:{ intros res w [H1 H2]. eauto. }
  2:{ intros e w [H1 _]. eexists. split; [reflexivity|].
      split; [exact H1 | now left]. }
  eapply triple_seq with (Qm := fun r w => db_is d w).
  { intros w [_ Hw]. unfold Health.load_config.
    destruct (config_loadable os); exact Hw. }
  { intros e w Hw. split; [now left | exact I]. }
  intros u'.
  eapply triple_seq; [apply triple_get_pipeline_status_from_db | |].
  { intros e w [Hw _]. split; [now left | exact I]. }
  intros db_status.
  eapply triple_seq
    with (Qm := fun r w =>
                  (db w = d \/ db w = Health.clear_running d)
                  /\ match r with
                     | inr (_, f) => f = [] \/ db w = Health.clear_running d
                     | inl _ => True
                     end).
  { destruct db_status as [row|].
    - intros w0 [Hw0 _]. revert w0 Hw0.
      change (triple (db_is d)
                (when_verbose verbose [HcDatabaseStatus row] ;;
                 '(issues_found, fixes_applied) <-
                    Health.check_tracked_process verbose os row ;;
                 issues_found <-
                    Health.check_runtime verbose now row issues_found ;;
                 ret (issues_found, fixes_applied))
                (fun r w =>
                   (db w = d \/ db w = Health.clear_running d)
                   /\ match r with
                      | inr (_, f) => f = [] \/ db w = Health.clear_running d
                      | inl _ => True
                      end)).
      eapply triple_seq;
        [apply triple_when_verbose with (P := db_is d) | |].
      { intros e w [H _]. discriminate H. }
      intros u2.
      eapply triple_seq with
        (Qm := fun r w =>
                 (db w = d \/ db w = Health.clear_running d)
                 /\ match r with
                    | inr (_, f) => f = [] \/ db w = Health.clear_running d
                    | inl _ => True
                    end).
      { intros w [_ Hw].
        pose proof (@check_tracked_process_writes d verbose os row w Hw) as T.
        destruct (result_of (Health.check_tracked_process verbose os row w))
          as [e|[i [|f [|f2 fs]]]]; unfold db_is in T.
        - split; [now left | exact I].
        - split; [now left | now left].
        - destruct T as [_ T]. split; now right.
        - destruct T. }
      { intros e w [H _]. split; [exact H | exact I]. }
      intros [issues_found fixes_applied] w [H1 H2].
      destruct (run_bind
                  (Health.check_runtime verbose now row issues_found)
                  (fun issues' => ret (issues', fixes_applied)) w) as [E1 E2].
      rewrite E1, E2. clear E1 E2.
      destruct (check_runtime_run verbose now row issues_found w)
        as (l & o & E & _).
      unfold result_of at 1 3, world_of at 2. rewrite E. simpl.
      split; [exact H1 | exact H2].
    - intros w [Hw _]. split; [now left | now left]. }
  { intros e w [H _]. split; [exact H | exact I]. }
  intros [issues_found fixes_applied].
  eapply triple_seq
    with (Qm := fun r w =>
                  (db w = d \/ db w = Health.clear_running d)
                  /\ (fixes_applied = [] \/ db w = Health.clear_running d)).
  { intros w H.
    exact (triple_check_orphans
             (fun w => (db w = d \/ db w = Health.clear_running d)
                       /\ (fixes_applied = []
                           \/ db w = Health.clear_running d))
             verbose os db_status issues_found w H). }
  { intros e w [H _]. split; [exact H | exact I]. }
  intros issues'. intros w H. exact H.
Qed.

(* ===================================================================== *)
(** ** Runs with working storage *)
(* ===================================================================== *)

Lemma runs_to_bind {A B} (m : M A) (k : A -> M B) w a w1 r w2 :
  runs_to m w (inr a) w1 ->
  runs_to (k a) w1 r w2 ->
  runs_to (bind m k) w r w2.
Proof.
  intros [R1 W1] [R2 W2]. destruct (run_bind m k w) as [Er Ew].
  unfold runs_to. rewrite Er, Ew, R1, W1. auto.
Qed.

Lemma runs_to_bind_raise {A B} (m : M A) (k : A -> M B) w e w1 :
  runs_to m w (inl e) w1 ->
  runs_to (bind m k) w (inl e) w1.
Proof.
  intros [R1 W1]. destruct (run_bind m k w) as [Er Ew].
  unfold runs_to. rewrite Er, Ew, R1. auto.
Qed.

Lemma runs_to_try {A} (m : M A) (h : exn -> M A) w a w1 :
  runs_to m w (inr a) w1 ->
  runs_to (try_catch m h) w (inr a) w1.
Proof.
  intros [R1 W1]. destruct (run_try m h w) as [Er Ew].
  unfold runs_to. rewrite Er, Ew, R1. auto.
Qed.

Lemma runs_to_try_handle {A} (m : M A) (h : exn -> M A) w e w1 r w2 :
  runs_to m w (inl e) w1 ->
  runs_to (h e) w1 r w2 ->
  runs_to (try_catch m h) w r w2.
Proof.
  intros [R1 W1] [R2 W2]. destruct (run_try m h w) as [Er Ew].
  unfold runs_to. rewrite Er, Ew, R1, W1. auto.
Qed.

Lemma runs_to_ret {A} (a : A) w : runs_to (ret a) w (inr a) w.
Proof. split; reflexivity. Qed.

Lemma runs_to_print m w : runs_to (print m) w (inr tt) w.
Proof. split; reflexivity. Qed.

Lemma runs_to_when_verbose v ms w : runs_to (when_verbose v ms) w (inr tt) w.
Proof. split; reflexivity. Qed.

Lemma runs_to_connect w :
  faults w = [] -> runs_to get_db_connection w (inr fresh_conn) w.
Proof.
  destruct w as [d fs]. simpl. intros ->. split; reflexivity.
Qed.

Lemma runs_to_execute {A} c (stmt : DB -> exn + (DB * A)) w d a :
  faults w = [] ->
  aborted c = false ->
  stmt (view c w) = inr (d, a) ->
  runs_to (execute c stmt) w
          (inr ({| work := Some d; aborted := false |}, a)) w.
Proof.
  destruct w as [d0 fs]. simpl. intros -> Hab Hs.
  unfold runs_to, execute. rewrite Hab.
  unfold bind, storage_fault, result_of, world_of. simpl.
  rewrite Hs. split; reflexivity.
Qed.

Lemma runs_to_execute_raise {A} c (stmt : DB -> exn + (DB * A)) w e :
  faults w = [] ->
  aborted c = false ->
  stmt (view c w) = inl e ->
  runs_to (execute c stmt) w (inl e) w.
Proof.
  destruct w as [d0 fs]. simpl. intros -> Hab Hs.
  unfold runs_to, execute. rewrite Hab.
  unfold bind, storage_fault, result_of, world_of. simpl.
  rewrite Hs. split; reflexivity.
Qed.

Lemma runs_to_commit c w :
  faults w = [] ->
  aborted c = false ->
  runs_to (commit c) w (inr fresh_conn) {| db := view c w; faults := [] |}.
Proof.
  destruct w as [d0 fs]. simpl. intros -> Hab.
  unfold runs_to, commit, bind, storage_fault, result_of, world_of. simpl.
  rewrite Hab. split; reflexivity.
Qed.

(** Reporting orphans with its result spelled out: every candidate other
    than the tracked process becomes an issue, in order. *)
Lemma runs_to_report_orphans verbose db_status orphaned issues_found w :
  runs_to (Health.report_orphans verbose db_status orphaned issues_found) w
    (inr (issues_found
          ++ map (fun proc => OrphanedProcess (Health.o_pid proc)
                                              (Health.o_cmdline proc))
                 (filter (fun proc => negb (tracked_by db_status proc))
                         orphaned)))
    w.
Proof.
  revert issues_found.
  induction orphaned as [|proc rest IH]; intros issues_found.
  - simpl. rewrite app_nil_r. apply runs_to_ret.
  - cbn [Health.report_orphans filter].
    change (match db_status with
            | Some row => match process_pid row with
                          | Some p => Health.o_pid proc =? p
                          | None => false
                          end
            | None => false
            end) with (tracked_by db_status proc).
    destruct (tracked_by db_status proc); simpl; [apply IH|].
    eapply runs_to_bind; [apply runs_to_when_verbose|].
    specialize (IH (issues_found
                    ++ [OrphanedProcess (Health.o_pid proc)
                                        (Health.o_cmdline proc)])).
    rewrite <- app_assoc in IH. exact IH.
Qed.

Lemma runs_to_get_pipeline_status_from_db w :
  faults w = [] ->
  runs_to Health.get_pipeline_status_from_db w
          (inr (pipeline_status (db w))) w.
Proof.
  intros Hf. unfold Health.get_pipeline_status_from_db.
  apply runs_to_try.
  eapply runs_to_bind; [now apply runs_to_connect|].
  eapply runs_to_bind.
  - apply runs_to_execute; [exact Hf | reflexivity | reflexivity].
  - apply runs_to_ret.
Qed.

Lemma runs_to_fix_stale_pipeline_status reason w :
  faults w = [] ->
  runs_to (Health.fix_stale_pipeline_status reason) w (inr true)
          {| db := Health.clear_running (db w); faults := [] |}.
Proof.
  intros Hf. unfold Health.fix_stale_pipeline_status.
  apply runs_to_try.
  eapply runs_to_bind; [now apply runs_to_connect|].
  eapply runs_to_bind.
  - apply runs_to_execute; [exact Hf | reflexivity | reflexivity].
  - eapply runs_to_bind; [now apply runs_to_commit | apply runs_to_ret].
Qed.

(** With working storage the check of the tracked process reports a stale
    owner, repairs it and records the fix; otherwise it reports nothing. *)
Lemma runs_to_check_tracked_process verbose os row running reason w :
  faults w = [] ->
  Health.is_pipeline_process_running os (process_pid row)
  = inr (running, reason) ->
  runs_to (Health.check_tracked_process verbose os row) w
    (inr (if owner_examined row && negb running
          then ([MarkedRunningBut reason],
                [FixedStaleStatus (process_pid row)])
          else ([], [])))
    (if owner_examined row && negb running
     then {| db := Health.clear_running (db w); faults := [] |}
     else w).
Proof.
  intros Hf Hc. unfold Health.check_tracked_process.
  fold (owner_examined row).
  destruct (owner_examined row); [|apply runs_to_ret].
  rewrite Hc. simpl.
  eapply runs_to_bind; [apply runs_to_ret|].
  destruct running; simpl.
  - eapply runs_to_bind; [apply runs_to_when_verbose | apply runs_to_ret].
  - eapply runs_to_bind; [apply runs_to_when_verbose|].
    eapply runs_to_bind; [now apply runs_to_fix_stale_pipeline_status|].
    eapply runs_to_bind; [apply runs_to_when_verbose | apply runs_to_ret].
Qed.

Lemma runs_to_check_runtime verbose now row issues_found w :
  runs_to (Health.check_runtime verbose now row issues_found) w
          (inr (issues_found ++ stuck_issue now row)) w.
Proof.
  unfold Health.check_runtime, stuck_issue.
  destruct (is_running row) as [[|]|];
    try (rewrite app_nil_r; apply runs_to_ret).
  destruct (last_run_timestamp row) as [t|];
    try (rewrite app_nil_r; apply runs_to_ret).
  destruct (Health.two_hours <? now - t).
  - eapply runs_to_bind; [apply runs_to_when_verbose | apply runs_to_ret].
  - rewrite app_nil_r. apply runs_to_ret.
Qed.

Lemma runs_to_check_orphans verbose os db_status issues_found orphaned w :
  Health.find_orphaned_pipeline_processes os = inr orphaned ->
  runs_to (Health.check_orphans verbose os db_status issues_found) w
          (inr (issues_found ++ orphan_issues db_status orphaned)) w.
Proof.
  intros Ho. unfold Health.check_orphans. rewrite Ho.
  eapply runs_to_bind; [apply runs_to_when_verbose|].
  eapply runs_to_bind; [apply runs_to_ret|].
  destruct orphaned as [|proc rest].
  - unfold orphan_issues. simpl. rewrite app_nil_r.
    eapply runs_to_bind; [apply runs_to_when_verbose | apply runs_to_ret].
  - apply runs_to_report_orphans.
Qed.

(** With working storage, a stored row and probes that answer, the health
    check returns exactly the issues of its three checks. *)
Lemma runs_to_perform_health_check verbose os now w row running reason
  orphaned :
  faults w = [] ->
  config_loadable os = true ->
  pipeline_status (db w) = Some row ->
  Health.is_pipeline_process_running os (process_pid row)
  = inr (running, reason) ->
  Health.find_orphaned_pipeline_processes os = inr orphaned ->
  exists res,
    result_of (Health.perform_health_check verbose os now w) = inr res
    /\ issues res
       = (if owner_examined row && negb running
          then [MarkedRunningBut reason] else [])
         ++ stuck_issue now row
         ++ orphan_issues (Some row) orphaned
    /\ healthy res = Nat.eqb (List.length (issues res)) 0
    /\ world_of (Health.perform_health_check verbose os now w)
       = (if owner_examined row && negb running
          then {| db := Health.clear_running (db w); faults := [] |}
          else w).
Proof.
  intros Hf Hcfg Hrow Hc Ho.
  pose proof (runs_to_check_tracked_process verbose os row w Hf Hc) as Ht.
  set (stale := owner_examined row && negb running) in *.
  set (w1 := if stale
             then {| db := Health.clear_running (db w); faults := [] |}
             else w) in *.
  set (l := (if stale then [MarkedRunningBut reason] else [])
            ++ stuck_issue now row ++ orphan_issues (Some row) orphaned).
  set (f := if stale then [FixedStaleStatus (process_pid row)] else []).
  assert (Hb : runs_to
                 (when_verbose verbose [HcDatabaseStatus row] ;;
                  ' (issues_found, fixes_applied) <-
                    Health.check_tracked_process verbose os row ;;
                  issues_found <-
                    Health.check_runtime verbose now row issues_found ;;
                  ret (issues_found, fixes_applied)) w
                 (inr ((if stale then [MarkedRunningBut reason] else [])
                       ++ stuck_issue now row, f)) w1).
  { eapply runs_to_bind; [apply runs_to_when_verbose|].
    eapply runs_to_bind; [exact Ht|].
    unfold f. destruct stale; cbv beta iota;
      (eapply runs_to_bind; [apply runs_to_check_runtime | apply runs_to_ret]). }
  assert (R : runs_to (Health.perform_health_check verbose os now) w
                (inr {| healthy := Nat.eqb (List.length l) 0;
                        issues := l; fixes := f |}) w1).
  { unfold Health.perform_health_check.
    eapply runs_to_bind; [apply runs_to_when_verbose|].
    apply runs_to_try.
    eapply runs_to_bind.
    { unfold Health.load_config. rewrite Hcfg. apply runs_to_ret. }
    eapply runs_to_bind; [now apply runs_to_get_pipeline_status_from_db|].
    rewrite Hrow.
    eapply runs_to_bind; [exact Hb|].
    cbv beta iota.
    eapply runs_to_bind;
      [now apply runs_to_check_orphans with (orphaned := orphaned)|].
    rewrite <- app_assoc. fold l.
    eapply runs_to_bind;
      [unfold Health.print_summary; apply runs_to_when_verbose
      | apply runs_to_ret]. }
  destruct R as [R W]. eexists. split; [exact R|].
  split; [reflexivity|]. split; [reflexivity | exact W].
Qed.

Lemma stuck_issue_nil now row :
  Nat.eqb (List.length (stuck_issue now row)) 0
  = negb (over_two_hours now row).
Proof.
  unfold stuck_issue, over_two_hours.
  destruct (is_running row) as [[|]|]; try reflexivity.
  destruct (last_run_timestamp row) as [t|]; try reflexivity.
  destruct (Health.two_hours <? now - t); reflexivity.
Qed.

Lemma orphan_issues_nil db_status orphaned :
  Nat.eqb (List.length (orphan_issues db_status orphaned)) 0
  = forallb (tracked_by db_status) orphaned.
Proof.
  unfold orphan_issues. induction orphaned as [|proc rest IH]; [reflexivity|].
  simpl. destruct (tracked_by db_status proc); simpl; [exact IH | reflexivity].
Qed.

Lemma length_app_nil {A} (l1 l2 : list A) :
  Nat.eqb (List.length (l1 ++ l2)) 0
  = Nat.eqb (List.length l1) 0 && Nat.eqb (List.length l2) 0.
Proof. destruct l1; reflexivity. Qed.

(** X3: with working storage, a readable configuration, a stored pipeline
    row and process probes that answer, the health command exits with 0
    exactly when (a) the row's owner, if the row is marked running with a
    pid, is a live pipeline process, (b) the row is not marked running for
    more than two hours, and (c) every pipeline process found on the
    machine is the tracked one; otherwise it exits with 1. *)
Theorem health_exit_code_with_working_storage quiet os now w row running
  reason orphaned :
  faults w = [] ->
  config_loadable os = true ->
  pipeline_status (db w) = Some row ->
  Health.is_pipeline_process_running os (process_pid row)
  = inr (running, reason) ->
  Health.find_orphaned_pipeline_processes os = inr orphaned ->
  result_of (Health.main quiet os now w)
  = inr (if (negb (owner_examined row) || running)
            && negb (over_two_hours now row)
            && forallb (tracked_by (Some row)) orphaned
         then 0 else 1).
Proof.
  intros Hf Hcfg Hrow Hc Ho.
  destruct (runs_to_perform_health_check (negb quiet) os now w
              Hf Hcfg Hrow Hc Ho) as (res & Hres & Hi & Hh & _).
  unfold Health.main.
  destruct (run_bind (Health.perform_health_check (negb quiet) os now)
              (fun result => ret (if healthy result then 0 else 1)) w)
    as [Er _].
  rewrite Er, Hres. cbn [result_of ret fst].
  f_equal. rewrite Hh, Hi.
  rewrite !length_app_nil, stuck_issue_nil, orphan_issues_nil.
  replace (Nat.eqb (List.length
             (if owner_examined row && negb running
              then [MarkedRunningBut reason] else [])) 0)
    with (negb (owner_examined row) || running)
    by (destruct (owner_examined row), running; reflexivity).
  rewrite andb_assoc. reflexivity.
Qed.

Lemma health_exit_code_with_working_storage_witness :
  result_of (Health.main true Sample.os_alive Sample.now Sample.w_running)
  = inr 0.
Proof.
  exact (@health_exit_code_with_working_storage true Sample.os_alive
           Sample.now Sample.w_running Sample.row_running true
           (PidRunningPipeline 4242)
           [{| Health.o_pid := 4242;
               Health.o_cmdline := "python ingestor/ingest.py";
               Health.o_create_time := Some 1700000000 |}]
           eq_refl eq_refl eq_refl eq_refl eq_refl).
Defined.

(** X24: the two reconcilers repair a stale row to the same stored
    state.  With working storage and [psutil] available, when the row is
    marked running and its recorded owner fails the liveness check, the
    store after a health check and the store after a status read of the
    dashboard are the same: the row with the running flag off and the pid
    cleared, start and completion times kept. *)
Theorem reconcilers_repair_alike verbose os now now' w row p orphaned :
  faults w = [] ->
  config_loadable os = true ->
  psutil_importable os = true ->
  pipeline_status (db w) = Some row ->
  is_running row = Some true ->
  process_pid row = Some p ->
  p <> 0 ->
  Dashboard.is_process_running os (Some p) = false ->
  Health.find_orphaned_pipeline_processes os = inr orphaned ->
  db (world_of (Health.perform_health_check verbose os now w))
  = db (world_of (Dashboard.get_pipeline_status os now' w))
  /\ pipeline_status (db (world_of (Dashboard.get_pipeline_status os now' w)))
     = Some (failed_row row).
Proof.
  intros Hf Hcfg Hps Hrow Hrun Hpid Hp Hdead Ho.
  rewrite (@status_read_repairs os now' w row p Hf Hrow Hrun Hpid Hp Hdead).
  unfold world_of at 2 3. simpl fst. simpl snd.
  assert (Hc : exists reason,
             Health.is_pipeline_process_running os (process_pid row)
             = inr (false, reason)).
  { rewrite Hpid, <- Hdead.
    unfold Health.is_pipeline_process_running, Dashboard.is_process_running.
    destruct (p =? 0); [eexists; reflexivity|].
    rewrite Hps.
    destruct (pid_exists os p); [|eexists; reflexivity]. simpl.
    destruct (proc_open os p); [eexists; reflexivity|].
    destruct (proc_status os p) as [e|st]; [eexists; reflexivity|].
    destruct (String.eqb st STATUS_ZOMBIE); [eexists; reflexivity|].
    destruct (proc_cmdline os p) as [e|args]; [eexists; reflexivity|].
    cbv zeta. rewrite has_pipeline_keyword_unfold.
    destruct (Text.contains "run_daily_reddit_pipeline" (Text.join " " args)
              || Text.contains "ingest.py" (Text.join " " args)
              || Text.contains "run_gemini_analysis.py" (Text.join " " args));
      eexists; reflexivity. }
  destruct Hc as [reason Hc].
  destruct (runs_to_perform_health_check verbose os now w
              Hf Hcfg Hrow Hc Ho) as (res & _ & _ & _ & W).
  rewrite W.
  assert (Hex : owner_examined row && negb false = true).
  { unfold owner_examined. rewrite Hrun, Hpid. simpl.
    apply Z.eqb_neq in Hp. now rewrite Hp. }
  rewrite Hex. simpl.
  unfold Health.clear_running, set_pipeline_status, failed_row. simpl.
  rewrite Hrow. split; reflexivity.
Qed.

Lemma reconcilers_repair_alike_witness :
  db (world_of (Health.perform_health_check true Sample.os_gone Sample.now
                  Sample.w_running))
  = db (world_of (Dashboard.get_pipeline_status Sample.os_gone Sample.now
                    Sample.w_running))
  /\ pipeline_status
       (db (world_of (Dashboard.get_pipeline_status Sample.os_gone
                        Sample.now Sample.w_running)))
     = Some (failed_row Sample.row_running).
Proof.
  apply (@reconcilers_repair_alike true Sample.os_gone Sample.now Sample.now
           Sample.w_running Sample.row_running 4242 []);
    try reflexivity.
  lia.
Defined.

(* ===================================================================== *)
(** ** Status updates and the completion check *)
(* ===================================================================== *)

(** X4: [update_pipeline_status] never raises, and its return value tells
    whether the write happened: when it returns [True] the committed
    database is the old one with the action's upsert applied (unchanged
    for an action other than start, complete and failed), and when it
    returns [False] nothing was written, whichever storage operation
    failed. *)
Theorem update_pipeline_status_all_or_nothing timestamp action w :
  exists b,
    result_of (Dashboard.update_pipeline_status timestamp action w) = inr b
    /\ db (world_of (Dashboard.update_pipeline_status timestamp action w))
       = (if b then action_effect timestamp action (db w) else db w).
Proof.
  destruct w as [d fs].
  unfold Dashboard.update_pipeline_status, action_effect.
  destruct (String.eqb action "start");
    [|destruct (String.eqb action "complete");
      [|destruct (String.eqb action "failed")]];
    unfold try_catch, bind, get_db_connection, execute, commit,
      storage_fault, ret, print, update, view;
    do 3 (destruct fs as [|[|] fs]; simpl;
          try (exists true; split; reflexivity);
          try (exists false; split; reflexivity)).
Qed.

Lemma runs_to_update_pipeline_status timestamp action w :
  faults w = [] ->
  runs_to (Dashboard.update_pipeline_status timestamp action) w (inr true)
          {| db := action_effect timestamp action (db w); faults := [] |}.
Proof.
  destruct w as [d fs]. simpl. intros ->.
  unfold Dashboard.update_pipeline_status, action_effect.
  destruct (String.eqb action "start");
    [|destruct (String.eqb action "complete");
      [|destruct (String.eqb action "failed")]];
    split; reflexivity.
Qed.

(** With working storage a row that is believed running is reported as
    running and nothing is written. *)
Lemma status_read_live os now w row :
  faults w = [] ->
  pipeline_status (db w) = Some row ->
  believed_running os row = true ->
  Dashboard.get_pipeline_status os now w
  = (inr {| sd_last_run := Dashboard.timestamp_or_0 (last_run_timestamp row);
            sd_is_running := true;
            sd_last_completion :=
              Dashboard.timestamp_or_0 (last_completion_timestamp row);
            sd_process_pid := process_pid row |},
     w, []).
Proof.
  intros Hf Hrow Hb. unfold believed_running in Hb.
  apply andb_true_iff in Hb. destruct Hb as [Hrun Hlive].
  destruct w as [d fs]. simpl in *. subst fs.
  unfold Dashboard.get_pipeline_status,
    try_catch, bind, get_db_connection, execute, commit, storage_fault,
    ret, print, query, update, ddl, view, abort. simpl.
  rewrite Hrow. simpl. rewrite Hrun. simpl.
  destruct (pid_truthy (process_pid row)); simpl in *.
  - rewrite Hlive. simpl. rewrite Hrun. destruct d; reflexivity.
  - rewrite Hrun. destruct d; reflexivity.
Qed.

Lemma count_posts_newer_pos t d :
  (0 <? Z.of_nat (Dashboard.count_posts_newer t d)) = has_post_newer t d.
Proof.
  unfold Dashboard.count_posts_newer, has_post_newer.
  induction (posts_raw d) as [|p ps IH]; [reflexivity|].
  simpl. destruct (created_utc p >? t); simpl; [|exact IH].
  apply Z.ltb_lt. lia.
Qed.

(** The completion check of a row believed running, with working
    storage. *)
Lemma completion_run_live os now w row :
  faults w = [] ->
  pipeline_status (db w) = Some row ->
  believed_running os row = true ->
  runs_to (Dashboard.check_pipeline_completion os now) w
    (inr (has_post_newer
            (Dashboard.timestamp_or_0 (last_run_timestamp row)) (db w)))
    (if has_post_newer
          (Dashboard.timestamp_or_0 (last_run_timestamp row)) (db w)
     then {| db := Dashboard.upsert_complete now (db w); faults := [] |}
     else w).
Proof.
  intros Hf Hrow Hb.
  pose proof (@status_read_live os now w row Hf Hrow Hb) as Hs.
  set (t := Dashboard.timestamp_or_0 (last_run_timestamp row)) in *.
  assert (Hs' : runs_to (Dashboard.get_pipeline_status os now) w
                  (inr {| sd_last_run := t;
                          sd_is_running := true;
                          sd_last_completion :=
                            Dashboard.timestamp_or_0
                              (last_completion_timestamp row);
                          sd_process_pid := process_pid row |}) w)
    by (unfold runs_to; rewrite Hs; split; reflexivity).
  unfold Dashboard.check_pipeline_completion.
  apply runs_to_try.
  eapply runs_to_bind; [now apply runs_to_connect|].
  eapply runs_to_bind; [exact Hs'|].
  cbn [sd_is_running sd_last_run negb].
  eapply runs_to_bind.
  { apply runs_to_execute; [exact Hf | reflexivity | reflexivity]. }
  cbv beta iota. unfold view, fresh_conn. cbn [work].
  rewrite count_posts_newer_pos, andb_true_r.
  destruct (has_post_newer t (db w)).
  - eapply runs_to_bind;
      [now apply runs_to_update_pipeline_status | apply runs_to_ret].
  - apply runs_to_ret.
Qed.

(** X5: with working storage and a row believed running, the completion
    check decides by the stored items alone: it answers [True] exactly when
    some item was created after the recorded start, and in that case the
    row is committed as complete at the current time (start time and pid
    kept); otherwise it answers [False] and nothing is written. *)
Theorem completion_follows_new_items os now w row :
  faults w = [] ->
  pipeline_status (db w) = Some row ->
  believed_running os row = true ->
  result_of (Dashboard.check_pipeline_completion os now w)
  = inr (has_post_newer
           (Dashboard.timestamp_or_0 (last_run_timestamp row)) (db w))
  /\ db (world_of (Dashboard.check_pipeline_completion os now w))
     = (if has_post_newer
             (Dashboard.timestamp_or_0 (last_run_timestamp row)) (db w)
        then Dashboard.upsert_complete now (db w)
        else db w).
Proof.
  intros Hf Hrow Hb.
  destruct (@completion_run_live os now w row Hf Hrow Hb) as [R W].
  rewrite R, W. split; [reflexivity|].
  destruct (has_post_newer _ (db w)); reflexivity.
Qed.

Lemma completion_follows_new_items_witness :
  result_of (Dashboard.check_pipeline_completion Sample.os_alive Sample.now
               SampleRun.w_new_post) = inr true
  /\ db (world_of (Dashboard.check_pipeline_completion Sample.os_alive
                     Sample.now SampleRun.w_new_post))
     = Dashboard.upsert_complete Sample.now (db SampleRun.w_new_post).
Proof.
  exact (@completion_follows_new_items Sample.os_alive Sample.now
           SampleRun.w_new_post Sample.row_running eq_refl eq_refl eq_refl).
Defined.

(** The completion check of a row whose owner fails the liveness check,
    with working storage. *)
Lemma completion_run_dead os now w row p :
  faults w = [] ->
  pipeline_status (db w) = Some row ->
  is_running row = Some true ->
  process_pid row = Some p ->
  p <> 0 ->
  Dashboard.is_process_running os (Some p) = false ->
  runs_to (Dashboard.check_pipeline_completion os now) w (inr true)
          {| db := set_pipeline_status (Some (failed_row row)) (db w);
             faults := [] |}.
Proof.
  intros Hf Hrow Hrun Hpid Hp Hdead.
  pose proof (@status_read_repairs os now w row p Hf Hrow Hrun Hpid Hp Hdead)
    as Hs.
  unfold Dashboard.check_pipeline_completion.
  apply runs_to_try.
  eapply runs_to_bind; [now apply runs_to_connect|].
  eapply runs_to_bind;
    [unfold runs_to; rewrite Hs; split; reflexivity|].
  apply runs_to_ret.
Qed.

(** The completion check of a row that is not marked running, with working
    storage. *)
Lemma completion_run_idle os now w row :
  faults w = [] ->
  pipeline_status (db w) = Some row ->
  bool_truthy (is_running row) = false ->
  runs_to (Dashboard.check_pipeline_completion os now) w (inr true) w.
Proof.
  intros Hf Hrow Hrun.
  pose proof (@status_read_idle os now w row Hf Hrow Hrun) as Hs.
  unfold Dashboard.check_pipeline_completion.
  apply runs_to_try.
  eapply runs_to_bind; [now apply runs_to_connect|].
  eapply runs_to_bind;
    [unfold runs_to; rewrite Hs; split; reflexivity|].
  apply runs_to_ret.
Qed.

(** X6: with working storage, when the row is marked running but its owner
    fails the liveness check, the completion check answers [True] although
    no completion is recorded: the status read inside it commits the row as
    failed (not running, pid cleared, start and completion times as they
    were), and no item is counted. *)
Theorem dead_owner_counts_as_complete os now w row p :
  faults w = [] ->
  pipeline_status (db w) = Some row ->
  is_running row = Some true ->
  process_pid row = Some p ->
  p <> 0 ->
  Dashboard.is_process_running os (Some p) = false ->
  result_of (Dashboard.check_pipeline_completion os now w) = inr true
  /\ db (world_of (Dashboard.check_pipeline_completion os now w))
     = set_pipeline_status (Some (failed_row row)) (db w).
Proof.
  intros Hf Hrow Hrun Hpid Hp Hdead.
  destruct (@completion_run_dead os now w row p Hf Hrow Hrun Hpid Hp Hdead) as [R W].
  rewrite R, W. split; reflexivity.
Qed.

Lemma dead_owner_counts_as_complete_witness :
  result_of (Dashboard.check_pipeline_completion Sample.os_gone Sample.now
               SampleRun.w_new_post) = inr true
  /\ db (world_of (Dashboard.check_pipeline_completion Sample.os_gone
                     Sample.now SampleRun.w_new_post))
     = set_pipeline_status (Some (failed_row Sample.row_running))
                           (db SampleRun.w_new_post).
Proof.
  apply (@dead_owner_counts_as_complete Sample.os_gone Sample.now
           SampleRun.w_new_post Sample.row_running 4242);
    try reflexivity.
  lia.
Defined.

(* ===================================================================== *)
(** ** A health check without a readable row *)
(* ===================================================================== *)

Lemma runs_to_status_unreadable w :
  pipeline_status (db w) = None \/ fault_within 2 w = true ->
  exists w',
    runs_to Health.get_pipeline_status_from_db w (inr None) w'
    /\ db w' = db w.
Proof.
  destruct w as [d fs]. unfold fault_within, runs_to. simpl.
  unfold Health.get_pipeline_status_from_db, try_catch, bind,
    get_db_connection, execute, storage_fault, ret, print, query, view.
  intros H.
  do 2 (destruct fs as [|[|] fs]; simpl in *;
        [ destruct H as [H|H]; [|discriminate H];
          rewrite H; eexists; split; [split; reflexivity | reflexivity]
        | eexists; split; [split; reflexivity | reflexivity] | ]).
  destruct H as [H|H]; [|discriminate H].
  rewrite H; eexists; split; [split; reflexivity | reflexivity].
Qed.

(** X7: a storage failure while the health check reads the pipeline row
    (at the connect or at the [SELECT]) is reported exactly like a missing
    row: the first issue is the no-status issue, followed by one issue per
    pipeline process found on the machine (none of them counts as
    tracked); the result is unhealthy, no fix is recorded and nothing is
    written. *)
Theorem health_unreadable_status_reported_as_missing verbose os now w
  orphaned :
  config_loadable os = true ->
  pipeline_status (db w) = None \/ fault_within 2 w = true ->
  Health.find_orphaned_pipeline_processes os = inr orphaned ->
  exists res,
    result_of (Health.perform_health_check verbose os now w) = inr res
    /\ issues res
       = NoStatusInDatabase
           :: map (fun proc => OrphanedProcess (Health.o_pid proc)
                                               (Health.o_cmdline proc))
                  orphaned
    /\ fixes res = []
    /\ healthy res = false
    /\ db (world_of (Health.perform_health_check verbose os now w)) = db w.
Proof.
  intros Hcfg Hread Ho.
  destruct (runs_to_status_unreadable w Hread) as (w' & Hr & Hd).
  set (l := NoStatusInDatabase
              :: map (fun proc => OrphanedProcess (Health.o_pid proc)
                                                  (Health.o_cmdline proc))
                     orphaned).
  assert (El : [NoStatusInDatabase] ++ orphan_issues None orphaned = l).
  { unfold l, orphan_issues. simpl. f_equal. f_equal.
    clear. induction orphaned as [|proc rest IH]; [reflexivity|].
    simpl. now rewrite IH. }
  assert (R : runs_to (Health.perform_health_check verbose os now) w
                (inr {| healthy := Nat.eqb (List.length l) 0;
                        issues := l; fixes := [] |}) w').
  { unfold Health.perform_health_check.
    eapply runs_to_bind; [apply runs_to_when_verbose|].
    apply runs_to_try.
    eapply runs_to_bind.
    { unfold Health.load_config. rewrite Hcfg. apply runs_to_ret. }
    eapply runs_to_bind; [exact Hr|].
    eapply runs_to_bind.
    { eapply runs_to_bind; [apply runs_to_when_verbose | apply runs_to_ret]. }
    cbv beta iota.
    eapply runs_to_bind;
      [now apply runs_to_check_orphans with (orphaned := orphaned)|].
    rewrite El.
    eapply runs_to_bind;
      [unfold Health.print_summary; apply runs_to_when_verbose
      | apply runs_to_ret]. }
  destruct R as [R W]. eexists. split; [exact R|].
  rewrite W. repeat split; assumption || reflexivity.
Qed.

Lemma health_unreadable_status_reported_as_missing_witness :
  exists res,
    result_of (Health.perform_health_check true Sample.os_alive Sample.now
                 w_storage_down) = inr res
    /\ issues res
       = [NoStatusInDatabase;
          OrphanedProcess 4242 "python ingestor/ingest.py"]
    /\ fixes res = []
    /\ healthy res = false
    /\ db (world_of (Health.perform_health_check true Sample.os_alive
                       Sample.now w_storage_down)) = db w_storage_down.
Proof.
  exact (@health_unreadable_status_reported_as_missing true Sample.os_alive
           Sample.now w_storage_down
           [{| Health.o_pid := 4242;
               Health.o_cmdline := "python ingestor/ingest.py";
               Health.o_create_time := Some 1700000000 |}]
           eq_refl (or_intror eq_refl) eq_refl).
Defined.

(* ===================================================================== *)
(** ** What one iteration of the feed loop leaves in its transaction *)
(* ===================================================================== *)

(** The user step and the insert step: either the handler of a failed
    insert rolled the connection back, or the working copy received the
    author (when no row had the id) and then the candidate. *)
Lemma ensure_user_view env s a c cnt w c' cnt' k w' o :
  Ingest.ensure_user env s a c cnt w = (inr (c', cnt', k), w', o) ->
  db w' = db w
  /\ ((c' = fresh_conn /\ cnt' = cnt)
      \/ (cnt' = Ingest.bump_count cnt
          /\ exists img d2 d3,
               (if Ingest.user_exists (Ingest.author_id_of a) (view c w)
                then inr (view c w, tt)
                else Ingest.upsert_user (Ingest.user_data a) (view c w))
               = inr (d2, tt)
               /\ Ingest.insert_post
                    (Ingest.post_data env s (Ingest.author_id_of a) img) d2
                  = inr (d3, tt)
               /\ c' = {| work := Some d3; aborted := false |})).
Proof.
  unfold Ingest.ensure_user. intros H.
  apply bind_inr_inv in H.
  destruct H as ([c1 found] & w1 & o1 & o2 & E & H & ->).
  apply execute_inr_inv in E. destruct E as (d & x & X & Hs & Hd1 & ->).
  injection X as -> ->. unfold query in Hs. injection Hs as <- <-.
  destruct (Ingest.user_exists (Ingest.author_id_of a) (view c w)).
  { apply insert_submission_run in H.
    destruct H as (Hd & _ & [(-> & img & d3 & Hi & ->) | (-> & -> & _)]).
    - split; [congruence|]. right. split; [reflexivity|].
      exists img, (view c w), d3. cbn [view work] in Hi. auto.
    - split; [congruence|]. left. split; reflexivity. }
  destruct (Ingest.author_details a) as [details warned].
  apply bind_inr_inv in H. destruct H as (u & w2 & o3 & o4 & Ew & H & ->).
  assert (Hw2 : w2 = w1).
  { destruct warned.
    - apply print_inv in Ew. now destruct Ew.
    - apply ret_inv in Ew. now destruct Ew as (_ & -> & _). }
  subst w2.
  apply bind_inr_inv in H. destruct H as (r & w3 & o5 & o6 & Et & H & ->).
  apply try_catch_inr_inv in Et.
  destruct Et as [Et | (e & w4 & o7 & o8 & Em & Et & ->)].
  - apply bind_inr_inv in Et.
    destruct Et as ([c2 u2] & w4 & o7 & o8 & E & Et & ->).
    apply execute_inr_inv in E. destruct E as (d2 & x2 & X & Hs & Hd2 & ->).
    injection X as -> ->. cbn [view work] in Hs. destruct x2.
    apply ret_inv in Et. destruct Et as (-> & -> & ->).
    apply insert_submission_run in H.
    destruct H as (Hd & _ & [(-> & img & d3 & Hi & ->) | (-> & -> & _)]).
    + split; [congruence|]. right. split; [reflexivity|].
      exists img, d2, d3. cbn [view work] in Hi. auto.
    + split; [congruence|]. left. split; reflexivity.
  - assert (Hd4 : db w4 = db w1).
    { match type of Em with
      | ?m w1 = _ =>
          assert (Hk : keeps (db w1) m)
            by (apply keeps_bind;
                [apply keeps_execute | intros [? ?]; apply keeps_ret]);
          specialize (Hk w1 eq_refl)
      end.
      unfold db_is, world_of in Hk. rewrite Em in Hk. exact Hk. }
    apply bind_inr_inv in Et.
    destruct Et as (u2 & w5 & o9 & o10 & Ep & Et & ->).
    assert (Hw5 : w5 = w4).
    { destruct (Text.contains "users_username_key" (exn_text e));
        apply print_inv in Ep; now destruct Ep. }
    subst w5.
    apply ret_inv in Et. destruct Et as (-> & -> & ->).
    apply (rollback_ret_inv _ (fun conn => (conn, cnt, Ingest.Continue)))
      in H.
    destruct H as (H & Hd5 & ->).
    injection H as -> -> ->. split; [congruence|]. left. split; reflexivity.
Qed.

Lemma admission_of_steps env s a img d d2 d3 :
  (if Ingest.user_exists (Ingest.author_id_of a)
        match Ingest.select_by_author (Ingest.author_id_of a) d with
        | Some existing => Ingest.delete_post (post_id existing) d
        | None => d
        end
   then inr (match Ingest.select_by_author (Ingest.author_id_of a) d with
             | Some existing => Ingest.delete_post (post_id existing) d
             | None => d
             end, tt)
   else Ingest.upsert_user (Ingest.user_data a)
          match Ingest.select_by_author (Ingest.author_id_of a) d with
          | Some existing => Ingest.delete_post (post_id existing) d
          | None => d
          end) = inr (d2, tt) ->
  Ingest.insert_post (Ingest.post_data env s (Ingest.author_id_of a) img) d2
  = inr (d3, tt) ->
  admission env s a img d = inr d3.
Proof.
  intros Hu Hi. unfold admission. cbv zeta. rewrite Hu, Hi. reflexivity.
Qed.

(** One iteration that returned: nothing is committed, and the working
    copy is untouched (stop or skip), or rolled back to the committed
    database (failed insert), or the result of an admission, which is then
    counted. *)
Lemma process_submission_view env sub t s c cnt w c' cnt' k w' o :
  Ingest.process_submission env sub t s c cnt w
  = (inr (c', cnt', k), w', o) ->
  db w' = db w
  /\ ((view c' w' = view c w /\ Ingest.count cnt' = Ingest.count cnt)
      \/ (c' = fresh_conn /\ Ingest.count cnt' = Ingest.count cnt)
      \/ (exists a img,
            Ingest.author s = Some a
            /\ (Ingest.s_created_utc s <? t) = false
            /\ (50 <? String.length (Ingest.author_id_of a))%nat = false
            /\ Ingest.post_exists (Ingest.id s) (view c w) = false
            /\ match Ingest.select_by_author (Ingest.author_id_of a)
                       (view c w) with
               | Some existing =>
                   Ingest.status_in (status existing) Ingest.admit_protected
                   = false
               | None => True
               end
            /\ admission env s a img (view c w) = inr (view c' w')
            /\ Ingest.count cnt' = S (Ingest.count cnt))).
Proof.
  intros H.
  assert (Hdb : db w' = db w).
  { pose proof (@keeps_process_submission (db w) env sub t s c cnt w eq_refl)
      as Hk.
    unfold db_is, world_of in Hk. rewrite H in Hk. exact Hk. }
  split; [exact Hdb|].
  assert (Hview : forall d, view {| work := Some d; aborted := false |} w' = d)
    by reflexivity.
  unfold Ingest.process_submission in H.
  destruct (Ingest.s_created_utc s <? t) eqn:Hage.
  { apply print_ret_inv in H. destruct H as (H & -> & _).
    injection H as -> -> ->. left. split; reflexivity. }
  apply bind_inr_inv in H.
  destruct H as ([c1 found] & w1 & o1 & o2 & E1 & H & ->).
  apply execute_inr_inv in E1. destruct E1 as (d1 & a1 & X & Hs & Hd1 & ->).
  injection X as -> ->. unfold query in Hs. injection Hs as <- <-.
  destruct (Ingest.post_exists (Ingest.id s) (view c w)) eqn:Hex.
  { apply print_ret_inv in H. destruct H as (H & -> & _).
    injection H as -> -> ->. left. split; reflexivity. }
  destruct (Ingest.author s) as [a|] eqn:Ha.
  2:{ apply print_ret_inv in H. destruct H as (H & -> & _).
      injection H as -> -> ->. left. split; reflexivity. }
  destruct (50 <? String.length (Ingest.author_id_of a))%nat eqn:Hlen.
  { apply print_ret_inv in H. destruct H as (H & -> & _).
    injection H as -> -> ->. left. split; reflexivity. }
  apply bind_inr_inv in H.
  destruct H as ([c2 existing_post] & w2 & o3 & o4 & E2 & H & ->).
  apply execute_inr_inv in E2. destruct E2 as (d2 & a2 & X & Hs & Hd2 & ->).
  injection X as -> ->. unfold query in Hs. cbn [view work] in Hs.
  injection Hs as <- <-. cbn [view work] in H.
  destruct (Ingest.select_by_author (Ingest.author_id_of a) (view c w))
    as [existing|] eqn:Hsel.
  - destruct (Ingest.status_in (status existing) Ingest.admit_protected)
      eqn:Hst.
    { apply print_ret_inv in H. destruct H as (H & -> & _).
      injection H as -> -> ->. left. split; reflexivity. }
    destruct (String.eqb (title existing) (Ingest.s_title s)
              && String.eqb (subreddit existing) (Ingest.display_name s)).
    { apply print_ret_inv in H. destruct H as (H & -> & _).
      injection H as -> -> ->. left. split; reflexivity. }
    apply bind_inr_inv in H. destruct H as (u & w3 & o5 & o6 & Ep & H & ->).
    apply print_inv in Ep. destruct Ep as [-> ->].
    apply bind_inr_inv in H.
    destruct H as ([c3 u3] & w4 & o7 & o8 & E3 & H & ->).
    apply execute_inr_inv in E3. destruct E3 as (d3 & a3 & X & Hs & Hd3 & ->).
    injection X as -> ->. unfold update in Hs. cbn [view work] in Hs.
    injection Hs as <- <-.
    apply ensure_user_view in H. cbn [view work] in H.
    destruct H as (_ & [(-> & ->) | (-> & img & e2 & e3 & Hu & Hi & ->)]).
    + right. left. split; reflexivity.
    + right. right. exists a, img. rewrite Hview.
      repeat split; try assumption; try reflexivity.
      * rewrite Hsel. exact Hst.
      * apply admission_of_steps with (d2 := e2); rewrite ?Hsel; assumption.
  - apply ensure_user_view in H. cbn [view work] in H.
    destruct H as (_ & [(-> & ->) | (-> & img & e2 & e3 & Hu & Hi & ->)]).
    + right. left. split; reflexivity.
    + right. right. exists a, img. rewrite Hview.
      repeat split; try assumption; try reflexivity.
      * rewrite Hsel. exact I.
      * apply admission_of_steps with (d2 := e2); rewrite ?Hsel; assumption.
Qed.

(* ===================================================================== *)
(** ** What an admission stores *)
(* ===================================================================== *)

Lemma post_exists_delete i j d :
  Ingest.post_exists i d = false ->
  Ingest.post_exists i (Ingest.delete_post j d) = false.
Proof.
  unfold Ingest.post_exists, Ingest.delete_post. simpl.
  induction (posts_raw d) as [|p ps IH]; [reflexivity|]. simpl.
  intros H. apply orb_false_iff in H. destruct H as [Hp Hps].
  destruct (negb (String.eqb (post_id p) j)); simpl.
  - rewrite Hp. simpl. now apply IH.
  - now apply IH.
Qed.

Lemma user_step_posts a (d d2 : DB) :
  (if Ingest.user_exists (Ingest.author_id_of a) d then inr (d, tt)
   else Ingest.upsert_user (Ingest.user_data a) d) = inr (d2, tt) ->
  posts_raw d2 = posts_raw d.
Proof.
  destruct (Ingest.user_exists (Ingest.author_id_of a) d).
  - intros H. now injection H as <-.
  - apply upsert_user_posts.
Qed.

(** The steps of an admission, one by one. *)
Lemma admission_inv env s a img d d3 :
  admission env s a img d = inr d3 ->
  exists d1 d2,
    d1 = match Ingest.select_by_author (Ingest.author_id_of a) d with
         | Some existing => Ingest.delete_post (post_id existing) d
         | None => d
         end
    /\ (if Ingest.user_exists (Ingest.author_id_of a) d1 then inr (d1, tt)
        else Ingest.upsert_user (Ingest.user_data a) d1) = inr (d2, tt)
    /\ Ingest.insert_post
         (Ingest.post_data env s (Ingest.author_id_of a) img) d2
       = inr (d3, tt).
Proof.
  unfold admission. cbv zeta.
  set (d1 := match Ingest.select_by_author (Ingest.author_id_of a) d with
             | Some existing => Ingest.delete_post (post_id existing) d
             | None => d
             end).
  destruct (if Ingest.user_exists (Ingest.author_id_of a) d1
            then inr (d1, tt)
            else Ingest.upsert_user (Ingest.user_data a) d1)
    as [e|[d2 []]] eqn:Hu; [discriminate|].
  destruct (Ingest.insert_post
              (Ingest.post_data env s (Ingest.author_id_of a) img) d2)
    as [e|[d3' []]] eqn:Hi; [discriminate|].
  intros H. injection H as <-. exists d1, d2. auto.
Qed.

Lemma admission_stores env s a img d d3 :
  Ingest.post_exists (Ingest.id s) d = false ->
  admission env s a img d = inr d3 ->
  In (Ingest.post_data env s (Ingest.author_id_of a) img) (posts_raw d3).
Proof.
  intros Hex H. apply admission_inv in H.
  destruct H as (d1 & d2 & E1 & Hu & Hi).
  assert (Hex1 : Ingest.post_exists (Ingest.id s) d1 = false).
  { subst d1.
    destruct (Ingest.select_by_author (Ingest.author_id_of a) d);
      [now apply post_exists_delete | exact Hex]. }
  apply user_step_posts in Hu.
  unfold Ingest.insert_post in Hi.
  replace (Ingest.post_exists
             (post_id (Ingest.post_data env s (Ingest.author_id_of a) img))
             d2)
    with false in Hi
    by (unfold Ingest.post_exists in *; rewrite Hu; symmetry; exact Hex1).
  destruct (Ingest.url_taken _ d2); [discriminate Hi|].
  injection Hi as <-. simpl. apply in_or_app. right. now left.
Qed.

(** X8: a candidate that is counted as fetched is in the working copy of
    the batch's transaction exactly as built from the submission: under
    the submission's id, with the author's id (non-null, at most 50
    characters), the status left to the column default, no priority score,
    the url made from the permalink, and a creation time inside the
    three-day window. *)
Theorem counted_admission_stores_candidate env sub t s c cnt w c' cnt' k w'
  o :
  Ingest.process_submission env sub t s c cnt w
  = (inr (c', cnt', k), w', o) ->
  Ingest.count cnt' = S (Ingest.count cnt) ->
  exists a img,
    Ingest.author s = Some a
    /\ In (Ingest.post_data env s (Ingest.author_id_of a) img)
          (posts_raw (view c' w'))
    /\ (String.length (Ingest.author_id_of a) <= 50)%nat
    /\ t <= Ingest.s_created_utc s.
Proof.
  intros H Hcount. apply process_submission_view in H.
  destruct H as (_ & [(_ & Hc) | [(_ & Hc) | H]]); try (exfalso; lia).
  destruct H as (a & img & Ha & Hage & Hlen & Hex & _ & Hadm & _).
  exists a, img. split; [exact Ha|].
  split; [eapply admission_stores; eassumption|].
  split.
  - apply Nat.ltb_ge in Hlen. exact Hlen.
  - apply Z.ltb_ge in Hage. exact Hage.
Qed.

Lemma counted_admission_stores_candidate_witness :
  exists c' w' o,
    Ingest.process_submission
      (SampleIngest.env_of []) "dating_advice"
      (SampleIngest.now - Ingest.three_days)
      SampleIngest.alice_new fresh_conn Ingest.zero_counters
      (SampleIngest.w_alice (Some "open"))
    = (inr (c', {| Ingest.count := 1;
                   Ingest.skipped_existing_users := 0;
                   Ingest.replaced_posts := 1 |}, Ingest.Continue), w', o)
    /\ exists a img,
         Ingest.author SampleIngest.alice_new = Some a
         /\ In (Ingest.post_data (SampleIngest.env_of [])
                  SampleIngest.alice_new (Ingest.author_id_of a) img)
               (posts_raw (view c' w'))
         /\ (String.length (Ingest.author_id_of a) <= 50)%nat
         /\ SampleIngest.now - Ingest.three_days
            <= Ingest.s_created_utc SampleIngest.alice_new.
Proof.
  do 3 eexists. split; [vm_compute; reflexivity|].
  eapply (@counted_admission_stores_candidate
            (SampleIngest.env_of []) "dating_advice"
            (SampleIngest.now - Ingest.three_days)
            SampleIngest.alice_new fresh_conn Ingest.zero_counters
            (SampleIngest.w_alice (Some "open")));
    [vm_compute; reflexivity | reflexivity].
Defined.

(* ===================================================================== *)
(** ** Invariants of a whole ingestion run *)
(* ===================================================================== *)

Lemma triple_after_silent {A} (P : World -> Prop) (m0 : M unit)
  (k : unit -> M A) Q :
  (forall w, exists o, m0 w = (inr tt, w, o)) ->
  triple P (k tt) Q ->
  triple P (bind m0 k) Q.
Proof.
  intros Hs Hk w Hw. destruct (run_bind m0 k w) as [Er Ew].
  destruct (Hs w) as [o E]. unfold result_of, world_of in *.
  rewrite E in Er, Ew. simpl in Er, Ew. rewrite Er, Ew. exact (Hk w Hw).
Qed.

Lemma silent_print m w : exists o, print m w = (inr tt, w, o).
Proof. eexists; reflexivity. Qed.

Lemma silent_note (b : bool) m w :
  exists o, (if b then print m else ret tt) w = (inr tt, w, o).
Proof. destruct b; eexists; reflexivity. Qed.

Lemma process_submission_inv Inv env sub t s c cnt :
  preserved_by_admission Inv ->
  triple (holds_in Inv c) (Ingest.process_submission env sub t s c cnt)
         (holds_after Inv (fun x => fst (fst x))).
Proof.
  intros HInv w [Hdb Hview]. unfold holds_after, holds_in.
  destruct (Ingest.process_submission env sub t s c cnt w)
    as [[[e|[[c' cnt'] k]] w'] o] eqn:E;
    unfold result_of, world_of; simpl.
  - pose proof (@keeps_process_submission (db w) env sub t s c cnt w eq_refl)
      as Hk.
    unfold db_is, world_of in Hk. rewrite E in Hk. simpl in Hk.
    now rewrite Hk.
  - apply process_submission_view in E.
    destruct E as (Hd & [(Hv & _) | [(-> & _) | H]]).
    + rewrite Hd, Hv. auto.
    + unfold view. simpl. rewrite Hd. auto.
    + destruct H as (a & img & _ & _ & _ & Hex & Hst & Hadm & _).
      rewrite Hd. split; [exact Hdb|].
      exact (HInv env s a img _ _ Hview Hex Hst Hadm).
Qed.

Lemma run_feed_inv Inv env sub t steps c cnt :
  preserved_by_admission Inv ->
  triple (holds_in Inv c) (Ingest.run_feed env sub t steps c cnt)
         (holds_after Inv fst).
Proof.
  intros HInv. revert c cnt.
  induction steps as [|[s|txt] rest IH]; intros c cnt; simpl.
  - intros w Hw. exact Hw.
  - eapply triple_seq.
    + apply process_submission_inv. exact HInv.
    + intros e w Hw. exact Hw.
    + intros [[c1 cnt1] [|]]; simpl.
      * apply IH.
      * intros w Hw. exact Hw.
  - intros w [Hw _]. exact Hw.
Qed.

Lemma commit_inv Inv c :
  triple (holds_in Inv c) (commit c)
         (fun r w => Inv (db w)
                     /\ match r with
                        | inr c' => c' = fresh_conn
                        | inl _ => True
                        end).
Proof.
  intros [d fs] [Hdb Hview]. unfold commit, bind, storage_fault, view in *.
  simpl in *.
  destruct fs as [|[|] fs]; simpl; destruct (aborted c); simpl; auto.
Qed.

Lemma ingest_subreddit_inv Inv env t n c :
  preserved_by_admission Inv ->
  triple (holds_in Inv c) (Ingest.ingest_subreddit env t n c)
         (holds_after Inv fst).
Proof.
  intros HInv. unfold Ingest.ingest_subreddit.
  apply triple_after_silent; [apply silent_print|].
  apply triple_handle with (Qm := holds_after Inv fst).
  - eapply triple_seq; [apply run_feed_inv; exact HInv | |].
    + intros e w Hw. exact Hw.
    + intros [c1 cnt1]. simpl.
      eapply triple_seq; [apply commit_inv | |].
      * intros e w [Hw _]. exact Hw.
      * intros c2.
        apply triple_after_silent; [apply silent_print|].
        apply triple_after_silent; [apply silent_note|].
        apply triple_after_silent; [apply silent_note|].
        intros w [Hw ->]. split; exact Hw.
  - intros a w Hw. exact Hw.
  - intros e.
    apply triple_after_silent; [apply silent_print|].
    apply triple_after_silent; [apply silent_note|].
    intros w Hw. unfold holds_after, holds_in in *.
    destruct (rollback_run c w) as (w1 & Hr & [E | E]);
      unfold bind, ret, result_of, world_of; rewrite E; simpl.
    + now rewrite Hr.
    + unfold view. simpl. rewrite Hr. split; exact Hw.
Qed.

Lemma ingest_subreddits_inv Inv env t names c :
  preserved_by_admission Inv ->
  triple (holds_in Inv c) (Ingest.ingest_subreddits env t names c)
         (fun _ w => Inv (db w)).
Proof.
  intros HInv. revert c.
  induction names as [|n rest IH]; intros c; simpl.
  - intros w [Hw _]. exact Hw.
  - eapply triple_seq; [apply ingest_subreddit_inv; exact HInv | |].
    + intros e w Hw. exact Hw.
    + intros [c1 cnt1]. apply IH.
Qed.

(** An invariant of the stored data that every admission preserves is
    preserved by a whole run of the API ingestion, however it ends. *)
Lemma ingest_with_reddit_api_inv Inv env now w :
  preserved_by_admission Inv ->
  Inv (db w) ->
  Inv (db (world_of (Ingest.ingest_with_reddit_api env now w))).
Proof.
  intros HInv Hw.
  cut (triple (fun w => Inv (db w)) (Ingest.ingest_with_reddit_api env now)
              (fun _ w => Inv (db w))).
  { intros T. exact (T w Hw). }
  unfold Ingest.ingest_with_reddit_api.
  destruct (negb (Ingest.reddit_configured env)).
  { apply triple_after_silent; [apply silent_print|].
    intros w0 H0. exact H0. }
  apply triple_after_silent; [apply silent_print|].
  apply triple_handle with (Qm := fun _ w => Inv (db w)).
  - eapply triple_seq
      with (Qm := holds_after Inv (fun c : Conn => c)).
    + intros [d fs] H0. unfold get_db_connection, bind, storage_fault.
      simpl in *. destruct fs as [|[|] fs]; simpl; try exact H0;
        split; exact H0.
    + intros e w0 H0. exact H0.
    + intros c.
      eapply triple_seq;
        [apply ingest_subreddits_inv; exact HInv | |].
      * intros e w0 H0. exact H0.
      * intros u w0 H0. exact H0.
  - intros a w0 H0. exact H0.
  - intros e. apply triple_after_silent; [apply silent_print|].
    intros w0 H0. exact H0.
Qed.

Lemma user_id_user_data a :
  user_id (Ingest.user_data a) = Ingest.author_id_of a.
Proof.
  unfold Ingest.user_data.
  destruct (Ingest.author_details a) as [[[[created ck] lk] verified] warned].
  reflexivity.
Qed.

(** The user step of an admission leaves the authors table as it is or
    appends the candidate's author. *)
Lemma user_step_users a (d d2 : DB) :
  (if Ingest.user_exists (Ingest.author_id_of a) d then inr (d, tt)
   else Ingest.upsert_user (Ingest.user_data a) d) = inr (d2, tt) ->
  users d2 = users d \/ users d2 = users d ++ [Ingest.user_data a].
Proof.
  destruct (Ingest.user_exists (Ingest.author_id_of a) d) eqn:Hex.
  - intros H. injection H as <-. now left.
  - unfold Ingest.upsert_user.
    destruct (Ingest.username_taken (Ingest.user_data a) d); [discriminate|].
    rewrite user_id_user_data, Hex. intros H. injection H as <-. now right.
Qed.

Lemma admission_users env s a img d d3 :
  admission env s a img d = inr d3 ->
  users d3 = users d \/ users d3 = users d ++ [Ingest.user_data a].
Proof.
  intros H. apply admission_inv in H.
  destruct H as (d1 & d2 & E1 & Hu & Hi).
  apply insert_post_users in Hi. apply user_step_users in Hu.
  assert (H1 : users d1 = users d).
  { subst d1.
    destruct (Ingest.select_by_author (Ingest.author_id_of a) d);
      reflexivity. }
  rewrite Hi, <- H1. exact Hu.
Qed.

(** X9: a run of the API ingestion never deletes or rewrites a stored
    author: whatever the feeds yield and whatever fails, the authors table
    after the run is the table before it with rows appended at the end. *)
Theorem ingestion_only_appends_users env now w :
  exists extra,
    users (db (world_of (Ingest.ingest_with_reddit_api env now w)))
    = users (db w) ++ extra.
Proof.
  apply (@ingest_with_reddit_api_inv
           (fun d => exists extra, users d = users (db w) ++ extra)).
  - intros env0 s a img d d' [extra Hd] _ _ Hadm.
    apply admission_users in Hadm. destruct Hadm as [-> | ->].
    + exists extra. exact Hd.
    + exists (extra ++ [Ingest.user_data a]). rewrite Hd.
      now rewrite app_assoc.
  - exists []. now rewrite app_nil_r.
Qed.

Lemma by_author_eq a p :
  Ingest.by_author a p = true -> author_id p = Some a.
Proof.
  unfold Ingest.by_author. destruct (author_id p) as [x|]; [|discriminate].
  intros H. apply String.eqb_eq in H. now subst.
Qed.

Lemma one_per_author_spec d :
  one_per_author d = true
  <-> forall a,
        (List.length (filter (Ingest.by_author a) (posts_raw d)) <= 1)%nat.
Proof.
  unfold one_per_author. rewrite forallb_forall. split.
  - intros H a.
    destruct (filter (Ingest.by_author a) (posts_raw d)) as [|p l] eqn:E;
      [simpl; lia|].
    assert (Hp : In p (filter (Ingest.by_author a) (posts_raw d)))
      by (rewrite E; now left).
    apply filter_In in Hp. destruct Hp as [Hin Hby].
    specialize (H p Hin). rewrite (by_author_eq _ _ Hby) in H.
    apply Nat.leb_le in H. rewrite E in H. exact H.
  - intros H p _. destruct (author_id p) as [a|]; [|reflexivity].
    apply Nat.leb_le. apply H.
Qed.

Lemma filter_filter_length {A} (f g : A -> bool) l :
  (List.length (filter f (filter g l)) <= List.length (filter f l))%nat.
Proof.
  induction l as [|x l IH]; [simpl; lia|]. simpl.
  destruct (g x), (f x) eqn:Hf; simpl; rewrite ?Hf; simpl; lia.
Qed.

(** Deleting the item found for an author who has at most one leaves the
    author without items. *)
Lemma delete_found_clears a existing l :
  (List.length (filter (Ingest.by_author a) l) <= 1)%nat ->
  find (Ingest.by_author a) l = Some existing ->
  filter (Ingest.by_author a)
         (filter (fun p => negb (String.eqb (post_id p) (post_id existing))) l)
  = [].
Proof.
  induction l as [|p l IH]; [discriminate|]. simpl.
  destruct (Ingest.by_author a p) eqn:Hp.
  - intros Hlen Hf. injection Hf as <-. rewrite String.eqb_refl. simpl.
    simpl in Hlen.
    assert (Hn : filter (Ingest.by_author a) l = []).
    { destruct (filter (Ingest.by_author a) l); [reflexivity | simpl in Hlen; lia]. }
    pose proof (filter_filter_length (Ingest.by_author a)
                  (fun q => negb (String.eqb (post_id q) (post_id p))) l)
      as Hle.
    rewrite Hn in Hle. simpl in Hle.
    destruct (filter (Ingest.by_author a) (filter _ l));
      [reflexivity | simpl in Hle; lia].
  - intros Hlen Hf.
    destruct (negb (String.eqb (post_id p) (post_id existing))); simpl.
    + rewrite Hp. now apply IH.
    + now apply IH.
Qed.

Lemma find_none_filter {A} (f : A -> bool) l :
  find f l = None -> filter f l = [].
Proof.
  induction l as [|x l IH]; [reflexivity|]. simpl.
  destruct (f x); [discriminate | exact IH].
Qed.

Lemma admission_one_per_author env s a img d d3 :
  one_per_author d = true ->
  admission env s a img d = inr d3 ->
  one_per_author d3 = true.
Proof.
  rewrite !one_per_author_spec. intros Hd H. apply admission_inv in H.
  destruct H as (d1 & d2 & E1 & Hu & Hi).
  assert (H1 : (forall x, (List.length (filter (Ingest.by_author x)
                                          (posts_raw d1)) <= 1)%nat)
               /\ filter (Ingest.by_author (Ingest.author_id_of a))
                         (posts_raw d1) = []).
  { subst d1. unfold Ingest.select_by_author.
    destruct (find (Ingest.by_author (Ingest.author_id_of a)) (posts_raw d))
      as [existing|] eqn:Hf; simpl.
    - split.
      + intros x. eapply Nat.le_trans; [apply filter_filter_length | apply Hd].
      + apply delete_found_clears; [apply Hd | exact Hf].
    - split; [exact Hd | now apply find_none_filter]. }
  destruct H1 as [Hall Hnone].
  apply user_step_posts in Hu. rewrite <- Hu in Hall, Hnone.
  unfold Ingest.insert_post in Hi.
  destruct (Ingest.post_exists _ d2); [injection Hi as <-; exact Hall|].
  destruct (Ingest.url_taken _ d2); [discriminate Hi|].
  injection Hi as <-. intros x. simpl. rewrite filter_app, length_app.
  simpl. unfold Ingest.by_author at 2. simpl.
  destruct (String.eqb (Ingest.author_id_of a) x) eqn:Hx.
  - apply String.eqb_eq in Hx. subst x. rewrite Hnone. simpl. lia.
  - simpl. specialize (Hall x). lia.
Qed.

(** X10: a run of the API ingestion keeps the rule of one stored item per
    author: if no author has more than one item before the run, none has
    after it, whatever the feeds yield and whatever fails. *)
Theorem ingestion_keeps_one_item_per_author env now w :
  one_per_author (db w) = true ->
  one_per_author (db (world_of (Ingest.ingest_with_reddit_api env now w)))
  = true.
Proof.
  intros Hw.
  apply (@ingest_with_reddit_api_inv (fun d => one_per_author d = true));
    [|exact Hw].
  intros env0 s a img d d' Hd _ _ Hadm.
  eapply admission_one_per_author; eassumption.
Qed.

Lemma ingestion_keeps_one_item_per_author_witness :
  one_per_author
    (db (world_of (Ingest.ingest_with_reddit_api
                     (SampleIngest.env_of [Ingest.Yield SampleIngest.alice_new])
                     SampleIngest.now (SampleIngest.w_alice (Some "open")))))
  = true.
Proof.
  apply (@ingestion_keeps_one_item_per_author
           (SampleIngest.env_of [Ingest.Yield SampleIngest.alice_new])
           SampleIngest.now (SampleIngest.w_alice (Some "open"))).
  reflexivity.
Defined.

Lemma no_dup_ids_filter (f : Post -> bool) l :
  no_dup_ids l = true -> no_dup_ids (filter f l) = true.
Proof.
  induction l as [|p l IH]; [reflexivity|]. simpl.
  intros H. apply andb_true_iff in H. destruct H as [Hp Hl].
  destruct (f p); simpl; [|now apply IH].
  rewrite (IH Hl), andb_true_r.
  apply negb_true_iff in Hp. apply negb_true_iff.
  clear -Hp. induction l as [|q l IH]; [reflexivity|]. simpl in *.
  apply orb_false_iff in Hp. destruct Hp as [Hq Hl].
  destruct (f q); simpl; [rewrite Hq; simpl|]; now apply IH.
Qed.

Lemma no_dup_ids_inj l p q :
  no_dup_ids l = true ->
  In p l -> In q l -> post_id p = post_id q -> p = q.
Proof.
  induction l as [|x l IH]; [intros _ []|]. simpl.
  intros H. apply andb_true_iff in H. destruct H as [Hx Hl].
  apply negb_true_iff in Hx.
  assert (Hno : forall y, In y l -> post_id y <> post_id x).
  { intros y Hy E.
    assert (Ht : existsb (fun q0 => String.eqb (post_id q0) (post_id x)) l
                 = true).
    { apply existsb_exists. exists y. split; [exact Hy|].
      now apply String.eqb_eq. }
    congruence. }
  intros [<-|Hp] [<-|Hq] E; auto.
  - exfalso. exact (Hno q Hq (eq_sym E)).
  - exfalso. exact (Hno p Hp E).
Qed.

Lemma no_dup_ids_app_new l p :
  no_dup_ids l = true ->
  existsb (fun q => String.eqb (post_id q) (post_id p)) l = false ->
  no_dup_ids (l ++ [p]) = true.
Proof.
  induction l as [|x l IH]; [reflexivity|]. simpl.
  intros H Hn. apply andb_true_iff in H. destruct H as [Hx Hl].
  apply orb_false_iff in Hn. destruct Hn as [Hxp Hn].
  rewrite (IH Hl Hn), andb_true_r.
  rewrite existsb_app. apply negb_true_iff in Hx. rewrite Hx. simpl.
  rewrite String.eqb_sym, Hxp. reflexivity.
Qed.

Lemma status_in_mem st l :
  Ingest.status_in (Some st) l = Text.mem st l.
Proof. reflexivity. Qed.

(** An admission keeps a stored item whose status the admission check
    keeps, and keeps the ids distinct. *)
Lemma admission_keeps_protected env s a img d d3 p st :
  no_dup_ids (posts_raw d) = true ->
  In p (posts_raw d) ->
  status p = Some st ->
  Text.mem st Ingest.admit_protected = true ->
  Ingest.post_exists (Ingest.id s) d = false ->
  match Ingest.select_by_author (Ingest.author_id_of a) d with
  | Some existing =>
      Ingest.status_in (status existing) Ingest.admit_protected = false
  | None => True
  end ->
  admission env s a img d = inr d3 ->
  no_dup_ids (posts_raw d3) = true /\ In p (posts_raw d3).
Proof.
  intros Hnd Hp Hst Hmem Hex Hsel H. apply admission_inv in H.
  destruct H as (d1 & d2 & E1 & Hu & Hi).
  assert (H1 : no_dup_ids (posts_raw d1) = true /\ In p (posts_raw d1)
               /\ Ingest.post_exists (Ingest.id s) d1 = false).
  { subst d1. unfold Ingest.select_by_author in *.
    destruct (find (Ingest.by_author (Ingest.author_id_of a)) (posts_raw d))
      as [existing|] eqn:Hf; [|auto].
    split; [now apply no_dup_ids_filter|].
    split; [|now apply post_exists_delete].
    simpl. apply filter_In. split; [exact Hp|].
    apply negb_true_iff. apply String.eqb_neq. intros E.
    apply find_some in Hf. destruct Hf as [Hin _].
    assert (p = existing) by (eapply no_dup_ids_inj; eassumption).
    subst existing. rewrite Hst, status_in_mem, Hmem in Hsel.
    discriminate Hsel. }
  destruct H1 as (Hnd1 & Hp1 & Hex1).
  apply user_step_posts in Hu. rewrite <- Hu in Hnd1, Hp1.
  unfold Ingest.insert_post in Hi.
  destruct (Ingest.post_exists _ d2) eqn:Hex2; [injection Hi as <-; auto|].
  destruct (Ingest.url_taken _ d2); [discriminate Hi|].
  injection Hi as <-. simpl. split.
  - apply no_dup_ids_app_new; [exact Hnd1 | exact Hex2].
  - apply in_or_app. now left.
Qed.

(** X11: a run of the API ingestion never deletes or changes a stored item
    whose status is [sent], [selected] or [answered], provided the stored
    ids are distinct (the primary key): the row is in the store after the
    run as it was before, whatever the feeds yield and whatever fails. *)
Theorem ingestion_keeps_protected_items env now w p st :
  no_dup_ids (posts_raw (db w)) = true ->
  In p (posts_raw (db w)) ->
  status p = Some st ->
  Text.mem st Ingest.admit_protected = true ->
  In p (posts_raw (db (world_of (Ingest.ingest_with_reddit_api env now w)))).
Proof.
  intros Hnd Hp Hst Hmem.
  apply (@ingest_with_reddit_api_inv
           (fun d => no_dup_ids (posts_raw d) = true /\ In p (posts_raw d)));
    [|split; assumption].
  intros env0 s a img d d' [Hd Hin] Hex Hsel Hadm.
  eapply admission_keeps_protected; eassumption.
Qed.

Lemma ingestion_keeps_protected_items_witness :
  In (SampleIngest.alice_post (Some "selected"))
     (posts_raw
        (db (world_of (Ingest.ingest_with_reddit_api
                         (SampleIngest.env_of
                            [Ingest.Yield SampleIngest.alice_new])
                         SampleIngest.now
                         (SampleIngest.w_alice (Some "selected")))))).
Proof.
  apply (@ingestion_keeps_protected_items
           (SampleIngest.env_of [Ingest.Yield SampleIngest.alice_new])
           SampleIngest.now (SampleIngest.w_alice (Some "selected"))
           (SampleIngest.alice_post (Some "selected")) "selected").
  - reflexivity.
  - left. reflexivity.
  - reflexivity.
  - reflexivity.
Defined.

(* ===================================================================== *)
(** ** The reap *)
(* ===================================================================== *)

(** X12: the value the reap returns tells whether the deletion happened:
    after [True] the items are those that are inside the five-day window
    or carry a kept status, in their old order; in every other outcome
    ([False] after a storage failure, also one at the commit, or the
    exception of a rollback that fails in the handler) every item is still
    there; authors and the pipeline row are never touched. *)
Theorem reap_all_or_nothing now w :
  posts_raw (db (world_of (Ingest.cleanup_old_posts now w)))
  = match result_of (Ingest.cleanup_old_posts now w) with
    | inr true =>
        filter (fun p => negb (Ingest.reapable (now - Ingest.five_days) p))
               (posts_raw (db w))
    | _ => posts_raw (db w)
    end
  /\ users (db (world_of (Ingest.cleanup_old_posts now w))) = users (db w)
  /\ pipeline_status (db (world_of (Ingest.cleanup_old_posts now w)))
     = pipeline_status (db w).
Proof.
  destruct (cleanup_old_posts_run now w) as (r & fs & o & E).
  unfold result_of, world_of. rewrite E. simpl.
  destruct r as [e|[|]]; repeat split.
Qed.

Lemma filter_idem {A} (f : A -> bool) l : filter f (filter f l) = filter f l.
Proof.
  induction l as [|x l IH]; [reflexivity|]. simpl.
  destruct (f x) eqn:Hx; simpl; rewrite ?Hx, IH; reflexivity.
Qed.

Lemma delete_reapable_idem t d :
  Ingest.delete_reapable t (Ingest.delete_reapable t d)
  = Ingest.delete_reapable t d.
Proof.
  unfold Ingest.delete_reapable. simpl. now rewrite filter_idem.
Qed.

(** X13: a reap that follows a successful reap at the same time deletes
    nothing more, whether it succeeds or fails. *)
Theorem reap_after_reap_changes_nothing now w :
  result_of (Ingest.cleanup_old_posts now w) = inr true ->
  db (world_of (Ingest.cleanup_old_posts now
                  (world_of (Ingest.cleanup_old_posts now w))))
  = db (world_of (Ingest.cleanup_old_posts now w)).
Proof.
  intros H. destruct (cleanup_old_posts_run now w) as (r & fs & o & E).
  assert (Hr : r = inr true)
    by (unfold result_of in H; rewrite E in H; simpl in H; exact H).
  subst r.
  replace (world_of (Ingest.cleanup_old_posts now w))
    with {| db := Ingest.delete_reapable (now - Ingest.five_days) (db w);
            faults := fs |}
    by (unfold world_of; rewrite E; reflexivity).
  destruct (cleanup_old_posts_run now
              {| db := Ingest.delete_reapable (now - Ingest.five_days) (db w);
                 faults := fs |}) as (r2 & fs2 & o2 & E2).
  unfold world_of. rewrite E2. simpl.
  destruct r2 as [e|[|]]; try reflexivity. apply delete_reapable_idem.
Qed.

Lemma reap_after_reap_changes_nothing_witness :
  db (world_of (Ingest.cleanup_old_posts SampleIngest.now
                  (world_of (Ingest.cleanup_old_posts SampleIngest.now
                               SampleIngest.w_old))))
  = db (world_of (Ingest.cleanup_old_posts SampleIngest.now
                    SampleIngest.w_old)).
Proof.
  apply (@reap_after_reap_changes_nothing SampleIngest.now SampleIngest.w_old).
  reflexivity.
Defined.

(** X14: no reap deletes an item created inside the five-day window,
    whatever its status (also [open] or null) and whether the reap
    succeeds or fails. *)
Theorem reap_spares_recent_items now w p :
  In p (posts_raw (db w)) ->
  now - Ingest.five_days <= created_utc p ->
  In p (posts_raw (db (world_of (Ingest.cleanup_old_posts now w)))).
Proof.
  intros Hin Hage.
  destruct (cleanup_old_posts_run now w) as (r & fs & o & E).
  unfold world_of. rewrite E. simpl.
  destruct r as [e|[|]]; try exact Hin.
  simpl. apply filter_In. split; [exact Hin|].
  unfold Ingest.reapable.
  replace (created_utc p <? now - Ingest.five_days) with false
    by (symmetry; apply Z.ltb_ge; exact Hage).
  reflexivity.
Qed.

Lemma reap_spares_recent_items_witness :
  In SampleRun.new_post
     (posts_raw (db (world_of (Ingest.cleanup_old_posts SampleIngest.now
                                 SampleRun.w_new_post)))).
Proof.
  apply (@reap_spares_recent_items SampleIngest.now SampleRun.w_new_post
           SampleRun.new_post).
  - left. reflexivity.
  - vm_compute. discriminate.
Defined.

(* ===================================================================== *)
(** ** Image text and the end of a feed *)
(* ===================================================================== *)

Lemma has_image_extension_empty : Ingest.has_image_extension "" = false.
Proof. reflexivity. Qed.

(** X15: the image text stored with an item depends only on the url and on
    what the OCR service answers: it is the recognised text when the url
    ends in an image extension and the download and the OCR succeed, and
    null otherwise; a post hint of [image] on a url without such an
    extension gives null, and a failed download or OCR never fails the
    item. *)
Theorem image_text_by_extension env s w :
  result_of (Ingest.image_text env s w)
  = inr (if Ingest.has_image_extension (Ingest.s_url s)
         then match Ingest.ocr env (Ingest.s_url s) with
              | Ingest.OcrText txt => Some txt
              | _ => None
              end
         else None)
  /\ world_of (Ingest.image_text env s w) = w.
Proof.
  unfold Ingest.image_text, Ingest.extract_text_from_image.
  destruct (String.eqb (Ingest.s_url s) "") eqn:Hu.
  { apply String.eqb_eq in Hu. rewrite Hu, has_image_extension_empty.
    rewrite orb_false_r.
    destruct (match Ingest.post_hint s with
              | Some h => String.eqb h "image"
              | None => false
              end); split; reflexivity. }
  destruct (Ingest.has_image_extension (Ingest.s_url s)).
  - rewrite orb_true_r. simpl.
    destruct (Ingest.ocr env (Ingest.s_url s)) as [txt| |];
      try (split; reflexivity).
    unfold bind, print, ret, result_of, world_of. simpl.
    destruct (String.eqb txt ""); split; reflexivity.
  - rewrite orb_false_r. simpl.
    destruct (match Ingest.post_hint s with
              | Some h => String.eqb h "image"
              | None => false
              end); split; reflexivity.
Qed.

(** X16: the feed loop stops for good at the first candidate older than
    three days: whatever the feed would yield after it (newer items, or an
    error of the iterator) has no influence on the result, the storage or
    the events of the batch. *)
Theorem feed_ignores_items_after_an_old_one env sub t pre s rest rest' c cnt
  w :
  Ingest.s_created_utc s < t ->
  Ingest.run_feed env sub t (pre ++ Ingest.Yield s :: rest) c cnt w
  = Ingest.run_feed env sub t (pre ++ Ingest.Yield s :: rest') c cnt w.
Proof.
  intros Hold. apply Z.ltb_lt in Hold.
  revert c cnt w. induction pre as [|[s0|txt] pre IH]; intros c cnt w.
  - simpl. unfold bind, Ingest.process_submission. rewrite Hold. reflexivity.
  - simpl. unfold bind.
    destruct (Ingest.process_submission env sub t s0 c cnt w)
      as [[[e|[[c1 cnt1] [|]]] w1] o1]; try reflexivity.
    now rewrite IH.
  - reflexivity.
Qed.

Lemma feed_ignores_items_after_an_old_one_witness :
  Ingest.run_feed (SampleIngest.env_of []) "dating_advice"
    (SampleIngest.now - Ingest.three_days)
    ([Ingest.Yield SampleIngest.bob_new]
     ++ Ingest.Yield SampleRun.stale :: [Ingest.Yield SampleIngest.alice_new])
    fresh_conn Ingest.zero_counters SampleIngest.w_carol
  = Ingest.run_feed (SampleIngest.env_of []) "dating_advice"
      (SampleIngest.now - Ingest.three_days)
      ([Ingest.Yield SampleIngest.bob_new]
       ++ Ingest.Yield SampleRun.stale :: [Ingest.FeedRaises "503"])
      fresh_conn Ingest.zero_counters SampleIngest.w_carol.
Proof.
  apply (@feed_ignores_items_after_an_old_one
           (SampleIngest.env_of []) "dating_advice"
           (SampleIngest.now - Ingest.three_days)
           [Ingest.Yield SampleIngest.bob_new] SampleRun.stale
           [Ingest.Yield SampleIngest.alice_new] [Ingest.FeedRaises "503"]
           fresh_conn Ingest.zero_counters SampleIngest.w_carol).
  reflexivity.
Defined.

(* ===================================================================== *)
(** ** The launch button of the page *)
(* ===================================================================== *)

Lemma runs_to_of_eq {A} (m : M A) w r w' o :
  m w = (r, w', o) -> runs_to m w r w'.
Proof. intros E. unfold runs_to. rewrite E. split; reflexivity. Qed.

Lemma runs_to_result {A} (m : M A) w r w' :
  runs_to m w r w' -> result_of (m w) = r.
Proof. intros [R _]. exact R. Qed.

Lemma truthy_running row :
  bool_truthy (is_running row) = true -> is_running row = Some true.
Proof. destruct (is_running row) as [[|]|]; simpl; congruence. Qed.

Lemma truthy_pid row :
  pid_truthy (process_pid row) = true ->
  exists p, process_pid row = Some p /\ p <> 0.
Proof.
  destruct (process_pid row) as [p|]; simpl; [|discriminate].
  intros H. exists p. split; [reflexivity|].
  apply negb_true_iff in H. now apply Z.eqb_neq.
Qed.

(** X17: with working storage and a stored pipeline row, the page disables
    the launch button exactly when the row is believed running (marked
    running, and its owner, if a usable pid is recorded, passes the
    liveness check) and no stored item was created after the recorded
    start; in every other case (idle row, dead owner, new item) the button
    is enabled. *)
Theorem launch_button_disabled_when_running os now w row :
  faults w = [] ->
  pipeline_status (db w) = Some row ->
  exists state,
    result_of (Page.pipeline_state os now w) = inr state
    /\ Page.button_disabled state
       = believed_running os row
         && negb (has_post_newer
                    (Dashboard.timestamp_or_0 (last_run_timestamp row))
                    (db w)).
Proof.
  intros Hf Hrow. unfold Page.pipeline_state.
  destruct (believed_running os row) eqn:Hb.
  - (* believed running *)
    pose proof (runs_to_of_eq _ _ (@status_read_live os now w row Hf Hrow Hb))
      as Hs.
    pose proof (@completion_run_live os now w row Hf Hrow Hb) as Hc.
    destruct (has_post_newer
                (Dashboard.timestamp_or_0 (last_run_timestamp row)) (db w)).
    + eexists. split.
      * eapply runs_to_result.
        eapply runs_to_bind; [exact Hs|].
        eapply runs_to_bind; [exact Hc|].
        eapply runs_to_bind; [apply runs_to_ret | apply runs_to_ret].
      * reflexivity.
    + eexists. split.
      * eapply runs_to_result.
        eapply runs_to_bind; [exact Hs|].
        eapply runs_to_bind; [exact Hc|].
        eapply runs_to_bind; [exact Hs | apply runs_to_ret].
      * reflexivity.
  - unfold believed_running in Hb.
    destruct (bool_truthy (is_running row)) eqn:Hrun.
    + (* marked running, owner dead *)
      simpl in Hb. apply orb_false_iff in Hb. destruct Hb as [Hpid Hdead].
      apply negb_false_iff in Hpid.
      destruct (truthy_pid _ Hpid) as (p & Hp & Hp0).
      rewrite Hp in Hdead. apply truthy_running in Hrun.
      pose proof (runs_to_of_eq _ _
                    (@status_read_repairs os now w row p Hf Hrow Hrun Hp Hp0
                       Hdead)) as Hs.
      eexists. split.
      * eapply runs_to_result.
        eapply runs_to_bind; [exact Hs|].
        eapply runs_to_bind.
        { apply completion_run_idle with (row := failed_row row);
            reflexivity. }
        eapply runs_to_bind; [apply runs_to_ret | apply runs_to_ret].
      * reflexivity.
    + (* not marked running *)
      pose proof (runs_to_of_eq _ _ (@status_read_idle os now w row Hf Hrow
                                       Hrun)) as Hs.
      eexists. split.
      * eapply runs_to_result.
        eapply runs_to_bind; [exact Hs|].
        eapply runs_to_bind;
          [exact (@completion_run_idle os now w row Hf Hrow Hrun)|].
        eapply runs_to_bind; [apply runs_to_ret | apply runs_to_ret].
      * reflexivity.
Qed.

Lemma launch_button_disabled_when_running_witness :
  exists state,
    result_of (Page.pipeline_state Sample.os_alive Sample.now
                 Sample.w_running) = inr state
    /\ Page.button_disabled state = true.
Proof.
  exact (@launch_button_disabled_when_running Sample.os_alive Sample.now
           Sample.w_running Sample.row_running eq_refl eq_refl).
Defined.

(* ===================================================================== *)
(** ** Launching the pipeline *)
(* ===================================================================== *)

Lemma spawns_inv l pid :
  spawns l pid = true ->
  l = launcher_ok pid.
Proof.
  destruct l as [ex ch po cf]. unfold spawns, launcher_ok. simpl.
  destruct ex; [|discriminate]. destruct ch; [discriminate|].
  destruct po as [e|p]; [discriminate|]. destruct cf; [discriminate|].
  simpl. intros H. apply Z.eqb_eq in H. now subst.
Qed.

(** A launch with working storage: the pid is stored, then the start. *)
Lemma on_click_run pid now d :
  exists o,
    Launch.on_click (launcher_ok pid) now {| db := d; faults := [] |}
    = (inr Launch.Started,
       {| db := Dashboard.upsert_start now (Launch.upsert_pid pid d);
          faults := [] |}, o).
Proof. eexists. reflexivity. Qed.

(** X18: a launch and the next status read agree.  With working storage,
    when the script exists and the child starts with pid [pid], the click
    ends as started, and a status read made while the child passes the
    liveness check reports the pipeline as running, started at the time of
    the click, owned by [pid], with the completion time of the previous
    run. *)
Theorem launch_then_status_read os l now now' w pid :
  faults w = [] ->
  spawns l pid = true ->
  pid <> 0 ->
  Dashboard.is_process_running os (Some pid) = true ->
  Launch.result_of (Launch.on_click l now w) = inr Launch.Started
  /\ result_of (Dashboard.get_pipeline_status os now'
                  (Launch.world_of (Launch.on_click l now w)))
     = inr {| sd_last_run := now;
              sd_is_running := true;
              sd_last_completion :=
                match pipeline_status (db w) with
                | Some r =>
                    Dashboard.timestamp_or_0 (last_completion_timestamp r)
                | None => 0
                end;
              sd_process_pid := Some pid |}.
Proof.
  intros Hf Hl Hpid Hlive. apply spawns_inv in Hl. subst l.
  destruct w as [d fs]. simpl in Hf. subst fs.
  destruct (on_click_run pid now d) as [o E].
  unfold Launch.result_of, Launch.world_of. rewrite E. simpl fst. simpl snd.
  split; [reflexivity|].
  set (w1 := {| db := Dashboard.upsert_start now (Launch.upsert_pid pid d);
                faults := [] |}).
  set (row1 := {| last_run_timestamp := Some now;
                  is_running := Some true;
                  last_completion_timestamp :=
                    match pipeline_status d with
                    | Some r => last_completion_timestamp r
                    | None => None
                    end;
                  process_pid := Some pid |}).
  assert (Hrow : pipeline_status (db w1) = Some row1).
  { unfold w1, row1, Dashboard.upsert_start, Launch.upsert_pid. simpl.
    destruct (pipeline_status d); reflexivity. }
  assert (Hb : believed_running os row1 = true).
  { unfold believed_running, row1. simpl. rewrite Hlive.
    now rewrite orb_true_r. }
  rewrite (@status_read_live os now' w1 row1 eq_refl Hrow Hb).
  unfold result_of, row1. simpl.
  destruct (pipeline_status d); reflexivity.
Qed.

Lemma launch_then_status_read_witness :
  Launch.result_of (Launch.on_click (launcher_ok 4242) Sample.now
                      Sample.w_running) = inr Launch.Started
  /\ result_of (Dashboard.get_pipeline_status Sample.os_alive Sample.now
                  (Launch.world_of (Launch.on_click (launcher_ok 4242)
                                      Sample.now Sample.w_running)))
     = inr {| sd_last_run := Sample.now;
              sd_is_running := true;
              sd_last_completion := 0;
              sd_process_pid := Some 4242 |}.
Proof.
  apply (@launch_then_status_read Sample.os_alive (launcher_ok 4242)
           Sample.now Sample.now Sample.w_running 4242);
    try reflexivity.
  lia.
Defined.

(** X19: the pid store fails silently.  When the script exists and the
    child starts, but one of the four storage operations of the pid store
    fails (connect, schema statement, upsert or commit) and storage works
    afterwards, the click still ends as started, and the row is committed
    as running from the time of the click with the pid it had before (the
    previous run's, or none): the pid of the child is recorded nowhere. *)
Theorem launch_without_pid_record l now w pid n :
  spawns l pid = true ->
  (n < 4)%nat ->
  faults w = repeat false n ++ [true] ->
  Launch.result_of (Launch.on_click l now w) = inr Launch.Started
  /\ db (Launch.world_of (Launch.on_click l now w))
     = Dashboard.upsert_start now (db w).
Proof.
  intros Hl Hn Hf. apply spawns_inv in Hl. subst l.
  destruct w as [d fs]. simpl in Hf. subst fs.
  destruct n as [|[|[|[|n]]]]; try lia; split; reflexivity.
Qed.

Lemma launch_without_pid_record_witness :
  Launch.result_of (Launch.on_click (launcher_ok 5151) Sample.now
                      w_storage_down) = inr Launch.Started
  /\ db (Launch.world_of (Launch.on_click (launcher_ok 5151) Sample.now
                            w_storage_down))
     = Dashboard.upsert_start Sample.now (db w_storage_down).
Proof.
  apply (@launch_without_pid_record (launcher_ok 5151) Sample.now
           w_storage_down 5151 0).
  - reflexivity.
  - lia.
  - reflexivity.
Defined.

(* ===================================================================== *)
(** ** Status changes of items *)
(* ===================================================================== *)

(** The database a status change leaves: after [True] the old one with
    the status set, in every other outcome the old one. *)
Lemma update_post_status_run post_url new_status w :
  exists r fs o,
    Page.update_post_status post_url new_status w
    = (r,
       {| db := match r with
                | inr (true, _) =>
                    Page.set_status new_status post_url (db w)
                | _ => db w
                end;
          faults := fs |}, o)
    /\ (r = inr (true, Page.StatusUpdatedTo new_status)
        \/ forall msg, r <> inr (true, msg)).
Proof.
  destruct w as [d fs].
  unfold Page.update_post_status, Page.invalidate_caches,
    try_with_connection, try_catch, bind, get_db_connection, rollback, close,
    execute, commit, storage_fault, ret, update, view.
  do 4 (try (destruct fs as [|[|] fs])); simpl;
    first
      [ exists (inr (true, Page.StatusUpdatedTo new_status));
        do 2 eexists; split; [reflexivity | left; reflexivity]
      | exists (inr (false, Page.ErrorUpdatingStatus OperationalError));
        do 2 eexists; split; [reflexivity | right; intros msg; discriminate]
      | exists (inl OperationalError);
        do 2 eexists; split; [reflexivity | right; intros msg; discriminate] ].
Qed.

(** X20: a status change from the dashboard reports [True] only after the
    change is committed, and never writes anything else.  When it returns
    [True], every item with the given url has the new status and
    everything else is as before (also when no item has that url); when it
    does not ([False], or the exception of a rollback that fails in the
    handler), the store is untouched or holds exactly that change. *)
Theorem status_change_all_or_nothing post_url new_status w :
  (result_of (Page.update_post_status post_url new_status w)
   = inr (true, Page.StatusUpdatedTo new_status)
   /\ db (world_of (Page.update_post_status post_url new_status w))
      = Page.set_status new_status post_url (db w))
  \/ ((forall msg,
         result_of (Page.update_post_status post_url new_status w)
         <> inr (true, msg))
      /\ (db (world_of (Page.update_post_status post_url new_status w))
          = db w
          \/ db (world_of (Page.update_post_status post_url new_status w))
             = Page.set_status new_status post_url (db w))).
Proof.
  destruct (update_post_status_run post_url new_status w)
    as (r & fs & o & E & [Hr | Hr]);
    unfold result_of, world_of; rewrite E; simpl.
  - left. subst r. split; reflexivity.
  - right. split; [exact Hr|]. left.
    destruct r as [e|[[|] msg]]; try reflexivity.
    exfalso. exact (Hr msg eq_refl).
Qed.

Lemma no_dup_ids_set_status new_status post_url d :
  no_dup_ids (posts_raw (Page.set_status new_status post_url d))
  = no_dup_ids (posts_raw d).
Proof.
  unfold Page.set_status. simpl.
  induction (posts_raw d) as [|p l IH]; [reflexivity|]. simpl.
  rewrite IH. f_equal. f_equal.
  assert (Hid : forall q,
             post_id (if String.eqb (url q) post_url
                      then Page.with_status new_status q else q)
             = post_id q)
    by (intros q; destruct (String.eqb (url q) post_url); reflexivity).
  rewrite Hid. clear IH. induction l as [|q l IH]; [reflexivity|].
  simpl. now rewrite Hid, IH.
Qed.

Lemma admit_protected_is_reap_protected st :
  Text.mem st Ingest.admit_protected = true ->
  Text.mem st Ingest.reap_protected = true.
Proof.
  unfold Text.mem, Ingest.admit_protected, Ingest.reap_protected. simpl.
  destruct (String.eqb st "sent"), (String.eqb st "selected"),
    (String.eqb st "answered"); simpl; intros H;
    rewrite ?orb_true_r; try reflexivity; discriminate H.
Qed.

(** X21: marking protects.  Once the dashboard has set the status of an
    item to [sent], [selected] or [answered], the item, with that status
    and otherwise unchanged, is still stored after a later run of the API
    ingestion followed by a reap, whatever the feeds yield, however old
    the item is and whatever fails; the stored ids are assumed distinct
    (the primary key). *)
Theorem marked_item_survives_ingestion_and_reap env now now' w p st :
  result_of (Page.update_post_status (url p) st w)
  = inr (true, Page.StatusUpdatedTo st) ->
  no_dup_ids (posts_raw (db w)) = true ->
  In p (posts_raw (db w)) ->
  Text.mem st Ingest.admit_protected = true ->
  In (Page.with_status st p)
     (posts_raw
        (db (world_of
               (Ingest.cleanup_old_posts now'
                  (world_of
                     (Ingest.ingest_with_reddit_api env now
                        (world_of (Page.update_post_status (url p) st
                                     w)))))))).
Proof.
  intros Hok Hnd Hp Hmem.
  destruct (update_post_status_run (url p) st w) as (r & fs & o & E & _).
  unfold result_of in Hok. rewrite E in Hok. simpl in Hok. subst r.
  replace (world_of (Page.update_post_status (url p) st w))
    with {| db := Page.set_status st (url p) (db w); faults := fs |}
    by (unfold world_of; rewrite E; reflexivity).
  apply cleanup_keeps_protected with (st := st);
    [|reflexivity | now apply admit_protected_is_reap_protected].
  apply (@ingest_with_reddit_api_inv
           (fun d => no_dup_ids (posts_raw d) = true
                     /\ In (Page.with_status st p) (posts_raw d))).
  - intros env0 s a img d d' [Hd Hin] Hex Hsel Hadm.
    eapply admission_keeps_protected with (st := st); try eassumption.
    reflexivity.
  - split.
    + simpl db. now rewrite no_dup_ids_set_status.
    + simpl. apply in_map_iff. exists p. split; [|exact Hp].
      now rewrite String.eqb_refl.
Qed.

Lemma marked_item_survives_ingestion_and_reap_witness :
  In (Page.with_status "selected" SampleIngest.old_open)
     (posts_raw
        (db (world_of
               (Ingest.cleanup_old_posts SampleIngest.now
                  (world_of
                     (Ingest.ingest_with_reddit_api
                        (SampleIngest.env_of
                           [Ingest.Yield SampleIngest.alice_new])
                        SampleIngest.now
                        (world_of (Page.update_post_status
                                     (url SampleIngest.old_open) "selected"
                                     SampleIngest.w_old)))))))).
Proof.
  apply (@marked_item_survives_ingestion_and_reap
           (SampleIngest.env_of [Ingest.Yield SampleIngest.alice_new])
           SampleIngest.now SampleIngest.now SampleIngest.w_old
           SampleIngest.old_open "selected").
  - reflexivity.
  - reflexivity.
  - left. reflexivity.
  - reflexivity.
Defined.

(* ===================================================================== *)
(** ** The configured subreddits *)
(* ===================================================================== *)

Lemma lstrip_head s :
  Config.lstrip s = []
  \/ exists c t, Config.lstrip s = c :: t /\ Config.is_space c = false.
Proof.
  induction s as [|c t IH]; [now left|]. simpl.
  destruct (Config.is_space c) eqn:Hc; [exact IH|].
  right. exists c, t. auto.
Qed.

Lemma rstrip_idem s : Config.rstrip (Config.rstrip s) = Config.rstrip s.
Proof.
  induction s as [|c t IH]; [reflexivity|]. simpl.
  destruct (Config.is_space c && negb (Config.truthy (Config.rstrip t)))
    eqn:Hc; [reflexivity|].
  simpl. rewrite IH, Hc. reflexivity.
Qed.

Lemma strip_idem s : Config.strip (Config.strip s) = Config.strip s.
Proof.
  unfold Config.strip.
  destruct (lstrip_head s) as [-> | (c & t & -> & Hc)]; [reflexivity|].
  simpl. rewrite Hc. simpl. rewrite Hc. simpl. rewrite Hc. simpl.
  now rewrite rstrip_idem.
Qed.

Lemma forallb_lstrip f s :
  forallb f s = true -> forallb f (Config.lstrip s) = true.
Proof.
  induction s as [|c t IH]; [reflexivity|]. simpl.
  intros H. apply andb_true_iff in H. destruct H as [Hc Ht].
  destruct (Config.is_space c); [now apply IH|].
  simpl. now rewrite Hc, Ht.
Qed.

Lemma forallb_rstrip f s :
  forallb f s = true -> forallb f (Config.rstrip s) = true.
Proof.
  induction s as [|c t IH]; [reflexivity|]. simpl.
  intros H. apply andb_true_iff in H. destruct H as [Hc Ht].
  destruct (Config.is_space c && negb (Config.truthy (Config.rstrip t)));
    [reflexivity|].
  simpl. now rewrite Hc, IH.
Qed.

Lemma forallb_strip f s :
  forallb f s = true -> forallb f (Config.strip s) = true.
Proof.
  intros H. unfold Config.strip. now apply forallb_rstrip, forallb_lstrip.
Qed.

(** The pieces of a split contain no separator, and keep every property
    of the characters of the text. *)
Lemma split_on_pieces sep f s piece :
  forallb f s = true ->
  In piece (Config.split_on sep s) ->
  forallb (fun c => negb (c =? sep)%N) piece = true
  /\ forallb f piece = true.
Proof.
  revert piece. induction s as [|c t IH]; intros piece Hf; simpl.
  - intros [<-|[]]. split; reflexivity.
  - simpl in Hf. apply andb_true_iff in Hf. destruct Hf as [Hc Ht].
    destruct (c =? sep)%N eqn:Hsep.
    + intros [<-|Hin]; [split; reflexivity | now apply IH].
    + destruct (Config.split_on sep t) as [|h r] eqn:E.
      * intros [<-|[]]. simpl. now rewrite Hsep, Hc.
      * intros [<-|Hin].
        -- destruct (IH h Ht (or_introl eq_refl)) as [H1 H2].
           simpl. now rewrite Hsep, Hc, H1, H2.
        -- apply IH; [exact Ht | now right].
Qed.

Lemma forallb_true {A} (s : list A) : forallb (fun _ => true) s = true.
Proof. induction s as [|c t IH]; [reflexivity | exact IH]. Qed.

Lemma no_separator_not_in sep s :
  forallb (fun c => negb (c =? sep)%N) s = true -> ~ In sep s.
Proof.
  intros H Hin. rewrite forallb_forall in H. specialize (H sep Hin).
  now rewrite N.eqb_refl in H.
Qed.

Lemma truthy_nonempty (s : Config.ustr) : Config.truthy s = true -> s <> [].
Proof. destruct s; [discriminate | discriminate]. Qed.

(** X22: every name returned by [get_subreddits], from the environment or
    from the defaults, is usable as it is: it is not empty, [strip()]
    leaves it as it is (no whitespace around it, in the Unicode sense of
    [str.strip()]) and it contains no comma. *)
Theorem subreddit_names_are_clean subreddits sr :
  In sr (Config.get_subreddits subreddits) ->
  sr <> [] /\ Config.strip sr = sr /\ ~ In Config.comma sr.
Proof.
  unfold Config.get_subreddits.
  destruct (Config.truthy
              match subreddits with Some v => v | None => [] end) eqn:Hset.
  - intros H. apply in_map_iff in H. destruct H as (piece & <- & H).
    apply filter_In in H. destruct H as [Hin Hne].
    split; [now apply truthy_nonempty|].
    split; [apply strip_idem|].
    apply no_separator_not_in, forallb_strip.
    exact (proj1 (split_on_pieces _ _ _ _ (forallb_true _) Hin)).
  - unfold Config.default_subreddits. simpl.
    intros H.
    repeat (destruct H as [<-|H];
            [split; [discriminate|];
             split; [reflexivity|];
             apply no_separator_not_in; reflexivity|]).
    destruct H.
Qed.

Lemma subreddit_names_are_clean_witness :
  Config.get_subreddits
    (Some (Config.of_string " dating," ++ [160%N]
           ++ Config.of_string ",Tinder ,"))
  = [Config.of_string "dating"; Config.of_string "Tinder"]
  /\ (Config.of_string "Tinder" <> []
      /\ Config.strip (Config.of_string "Tinder") = Config.of_string "Tinder"
      /\ ~ In Config.comma (Config.of_string "Tinder")).
Proof.
  split; [reflexivity|].
  apply (@subreddit_names_are_clean
           (Some (Config.of_string " dating," ++ [160%N]
                  ++ Config.of_string ",Tinder ,"))
           (Config.of_string "Tinder")).
  right. left. reflexivity.
Defined.

Lemma lstrip_blank s :
  forallb Config.is_space s = true -> Config.lstrip s = [].
Proof.
  induction s as [|c t IH]; [reflexivity|]. simpl.
  intros H. apply andb_true_iff in H. destruct H as [Hc Ht].
  rewrite Hc. now apply IH.
Qed.

Lemma blank_pieces s piece :
  forallb (fun c => Config.is_space c || (c =? Config.comma)%N) s = true ->
  In piece (Config.split_on Config.comma s) ->
  Config.strip piece = [].
Proof.
  intros Hs Hin.
  destruct (split_on_pieces _ _ _ _ Hs Hin) as [H1 H2].
  unfold Config.strip. rewrite lstrip_blank; [reflexivity|].
  clear -H1 H2. induction piece as [|c t IH]; [reflexivity|].
  simpl in *. apply andb_true_iff in H1, H2.
  destruct H1 as [Hc1 Ht1], H2 as [Hc2 Ht2].
  apply negb_true_iff in Hc1. rewrite Hc1, orb_false_r in Hc2.
  rewrite Hc2. now apply IH.
Qed.

(** X23: a [SUBREDDITS] value that is set but holds only commas and
    whitespace (in the Unicode sense of [str.strip()]) gives the empty
    list, not the defaults: the defaults are used only when the variable
    is unset or empty. *)
Theorem blank_setting_yields_no_subreddits v :
  v <> [] ->
  forallb (fun c => Config.is_space c || (c =? Config.comma)%N) v = true ->
  Config.get_subreddits (Some v) = [].
Proof.
  intros Hne Hblank. unfold Config.get_subreddits.
  replace (Config.truthy v) with true
    by (destruct v; [contradiction | reflexivity]).
  assert (Hall : forall piece, In piece (Config.split_on Config.comma v) ->
                               Config.strip piece = [])
    by (intros piece; now apply blank_pieces).
  induction (Config.split_on Config.comma v) as [|piece l IH];
    [reflexivity|].
  simpl. rewrite (Hall piece (or_introl eq_refl)). simpl.
  apply IH. intros q Hq. apply Hall. now right.
Qed.

Lemma blank_setting_yields_no_subreddits_witness :
  Config.get_subreddits (Some [32%N; 44%N; 160%N; 8195%N; 44%N]) = [].
Proof.
  apply (@blank_setting_yields_no_subreddits
           [32%N; 44%N; 160%N; 8195%N; 44%N]).
  - discriminate.
  - reflexivity.
Defined.
